(** * Supply-chain dashboards: derived metrics, risk buckets, filters and
      grouped summaries

    A shallow embedding of the data pipeline of

      - [enhanced_supply_chain_dashboard.py]
        ([calculate_derived_metrics], [DataAnalyzer], the filters of
        [main], the pandas summaries of [create_dashboard_layout]) and
      - [interactive_dashboard_enhanced.py]
        ([calculate_advanced_metrics], [EnhancedDataAnalyzer],
        [apply_filters], [main]),

    together with the part of pandas, numpy and DuckDB these functions call.

    Numbers are IEEE 754 binary64 values (the [float64] of numpy), taken from
    the Standard Library's [SpecFloat]: every operation is the correctly
    rounded one, division by zero yields an infinity or a NaN as in numpy.
    Data frames are Python objects: they live in a heap, [df.copy()]
    allocates, [df[c] = v] updates in place.  Exceptions, the global
    random generator and the order in which the SQL engine emits its groups
    are threaded through a small state-and-error monad. *)

From Stdlib Require Import ZArith List String Bool Lia SpecFloat OrderedTypeEx.
From stdpp Require Import base option list strings sorting.
Import ListNotations.

Local Open Scope string_scope.
Local Open Scope list_scope.

(* ===================================================================== *)
(** * binary64 arithmetic                                                  *)
(* ===================================================================== *)

Module B64.

Local Open Scope Z_scope.

(** 53 bits of mantissa, infinities at exponent 1024. *)
Definition prec : Z := 53.
Definition emax : Z := 1024.

Definition add : spec_float -> spec_float -> spec_float := SFadd prec emax.
Definition sub : spec_float -> spec_float -> spec_float := SFsub prec emax.
Definition mul : spec_float -> spec_float -> spec_float := SFmul prec emax.
Definition div : spec_float -> spec_float -> spec_float := SFdiv prec emax.

Definition eqb : spec_float -> spec_float -> bool := SFeqb.
Definition ltb : spec_float -> spec_float -> bool := SFltb.
Definition leb : spec_float -> spec_float -> bool := SFleb.
(** [x > y] and [x >= y], false as soon as one side is a NaN. *)
Definition gtb (x y : spec_float) : bool := SFltb y x.
Definition geb (x y : spec_float) : bool := SFleb y x.

Definition nan : spec_float := S754_nan.
Definition inf : spec_float := S754_infinity false.
Definition zero : spec_float := S754_zero false.

Definition is_nan (x : spec_float) : bool :=
  match x with S754_nan => true | _ => false end.

(** A well-formed binary64 datum: canonical mantissa, exponent in range. *)
Definition valid (x : spec_float) : bool := valid_binary prec emax x.

(** Conversion of a Python or numpy integer, rounded to nearest even. *)
Definition of_int (z : Z) : spec_float := binary_normalize prec emax z 0 false.

(** The decimal literal [n/d] of the source text, rounded once: the
    quotient of two exactly representable integers. *)
Definition dec (n d : Z) : spec_float := div (of_int n) (of_int d).

(** The literals of the two programs. *)
Definition f0_4 : spec_float := S754_finite false 7205759403792794 (-54).
Definition f0_3 : spec_float := S754_finite false 5404319552844595 (-54).
Definition f0_1 : spec_float := S754_finite false 7205759403792794 (-56).
Definition f1 : spec_float := S754_finite false 4503599627370496 (-52).
Definition f3 : spec_float := S754_finite false 6755399441055744 (-51).
Definition f5 : spec_float := S754_finite false 5629499534213120 (-50).
Definition f100 : spec_float := S754_finite false 7036874417766400 (-46).

(** Multiplication by [2^k] done on the exponent: exact as long as the
    result is still a [valid] binary64 number. *)
Definition scale2 (k : Z) (x : spec_float) : spec_float :=
  match x with
  | S754_finite s m e => S754_finite s m (e + k)
  | _ => x
  end.

(** Truncation toward zero of a finite value, as [int(x)] does. *)
Definition trunc (x : spec_float) : option Z :=
  match x with
  | S754_zero _ => Some 0
  | S754_finite s m e => Some (cond_Zopp s (Z.shiftl (Z.pos m) e))
  | S754_infinity _ | S754_nan => None
  end.

(** numpy's [int64]: two's complement wrap-around. *)
Definition wrap64 (z : Z) : Z := (z + 2 ^ 63) mod 2 ^ 64 - 2 ^ 63.

(** The total order DuckDB sorts DOUBLE values by: the numeric order, all
    zeros equal, NaN above everything.  [key] maps a value to a triple
    compared lexicographically. *)
Definition key (x : spec_float) : Z * Z * Z :=
  match x with
  | S754_nan => (3, 0, 0)
  | S754_infinity false => (2, 0, 0)
  | S754_infinity true => (-2, 0, 0)
  | S754_zero _ => (0, 0, 0)
  | S754_finite false m e => (1, e, Z.pos m)
  | S754_finite true m e => (-1, - e, - Z.pos m)
  end.

Definition lex_compare (a b : Z * Z * Z) : comparison :=
  let '(a1, a2, a3) := a in
  let '(b1, b2, b3) := b in
  match a1 ?= b1 with
  | Eq => match a2 ?= b2 with
          | Eq => a3 ?= b3
          | c => c
          end
  | c => c
  end.

(** The strict lexicographic order on keys, as a proposition. *)
Definition lt3 (a b : Z * Z * Z) : Prop :=
  a.1.1 < b.1.1 \/ (a.1.1 = b.1.1 /\ (a.1.2 < b.1.2 \/ (a.1.2 = b.1.2 /\ a.2 < b.2))).

Definition total_leb (x y : spec_float) : bool :=
  match lex_compare (key x) (key y) with
  | Gt => false
  | _ => true
  end.

(** The quotient of two integers, rounded once. *)
Definition ratio (n d : Z) : spec_float :=
  match n, d with
  | Z0, Z.pos _ => zero
  | Z.pos p, Z.pos q => div (S754_finite false p 0) (S754_finite false q 0)
  | Z.neg p, Z.pos q => div (S754_finite true p 0) (S754_finite false q 0)
  | _, _ => nan
  end.

(** The value of a finite number in units of [2^-1074], the smallest
    positive binary64 number: an integer for every valid datum. *)
Definition units (x : spec_float) : Z :=
  match x with
  | S754_finite s m e => cond_Zopp s (Z.pos m * 2 ^ (e + 1074))
  | _ => 0
  end.

(** Infinities stand below and above all numbers. *)
Definition rank (x : spec_float) : Z :=
  match x with
  | S754_infinity true => -1
  | S754_infinity false => 1
  | _ => 0
  end.

Definition positive_finite (c : spec_float) : bool :=
  match c with
  | S754_finite false _ _ => true
  | _ => false
  end.

(** The record the rounding works on, for the fraction [a / b]: the
    integer part, the first bit after it, and whether anything follows
    that bit. *)
Definition trunc_record (a b : Z) : shr_record :=
  {| shr_m := a / b;
     shr_r := b <=? 2 * (a mod b);
     shr_s := negb (2 * (a mod b) mod b =? 0) |}.

(** The exponent at which a division first takes its integer quotient,
    the shift of the dividend that goes with it, that quotient, and the
    exponent of the rounded result. *)
Definition quotient_exponent (m1 : positive) (e1 : Z) (m2 : positive) (e2 : Z) : Z :=
  Z.min (fexp prec emax (Zdigits2 (Z.pos m1) + e1 - (Zdigits2 (Z.pos m2) + e2)))
        (e1 - e2).

Definition quotient_shift (m1 : positive) (e1 : Z) (m2 : positive) (e2 : Z) : Z :=
  e1 - e2 - quotient_exponent m1 e1 m2 e2.

Definition first_quotient (m1 : positive) (e1 : Z) (m2 : positive) (e2 : Z) : Z :=
  (Z.pos m1 * 2 ^ quotient_shift m1 e1 m2 e2) / Z.pos m2.

Definition rounding_exponent (m1 : positive) (e1 : Z) (m2 : positive) (e2 : Z) : Z :=
  fexp prec emax (Zdigits2 (first_quotient m1 e1 m2 e2) + quotient_exponent m1 e1 m2 e2).

End B64.

(* ===================================================================== *)
(** * Python objects and the interpreter state                             *)
(* ===================================================================== *)

(** A pandas column.  [Float64] and [Int64] are the numeric dtypes,
    [Object] holds Python strings, [Categorical] is what [pd.cut] returns:
    a label per row, or no label (shown as NaN). *)
Inductive Series :=
| Float64 (v : list spec_float)
| Int64 (v : list Z)
| Object (v : list string)
| Categorical (v : list (option string)).

(** A data frame: the row labels and the columns in insertion order. *)
Record DataFrame := {
  index : list Z;
  columns : list (string * Series)
}.

(** The exceptions Python, pandas, numpy and DuckDB raise here; all of
    them are subclasses of [Exception]. *)
Inductive exn :=
| KeyError (key : string)
| TypeError (msg : string)
| ValueError (msg : string)
| OverflowError (msg : string)
| NameError (name : string)
| BinderException (msg : string)
| SystemError (msg : string).

(** [type(e).__name__] *)
Definition exn_class (e : exn) : string :=
  match e with
  | KeyError _ => "KeyError"
  | TypeError _ => "TypeError"
  | ValueError _ => "ValueError"
  | OverflowError _ => "OverflowError"
  | NameError _ => "NameError"
  | BinderException _ => "BinderException"
  | SystemError _ => "SystemError"
  end.

(** numpy's global generator, which the programs never seed.  What the
    statements need of it is that the values drawn depend on a state the
    program does not control and that drawing changes that state; it is
    seen as a stream of outcomes ([draw k] is the [k]-th one) and a
    position in the stream.  How many raw outcomes numpy spends on one
    value is not modelled, and no statement counts them. *)
Record RandomState := {
  draw : nat -> Z;
  consumed : nat
}.

(** DuckDB hands the groups of a GROUP BY to the sort in an order that
    depends on its hash tables and on the scheduling of its threads, and
    that changes from one execution to the next.  The engine is seen as the
    stream of these orders ([emission k] arranges the groups of the [k]-th
    grouped query, see [duckdb.arrange]) and the number of grouped queries
    executed so far. *)
Record Engine := {
  emission : nat -> list nat;
  executed : nat
}.

(** [st.session_state]: the two selections are initialised at import time,
    the other three attributes exist once the sidebar has run ([hasattr]). *)
Record SessionState := {
  selected_product_type : string;
  selected_location : string;
  revenue_range : option (spec_float * spec_float);
  lead_time_max : option Z;
  risk_levels : option (list string)
}.

(** A location of the heap. *)
Abbreviation loc := nat (only parsing).

Record World := {
  heap : list DataFrame;
  random : RandomState;
  session_state : SessionState;
  engine : Engine
}.

Inductive result (A : Type) :=
| Ok (a : A)
| Raise (e : exn).
Arguments Ok {A} a.
Arguments Raise {A} e.

(** Computations: read and update the world, return or raise.  What was
    written before an exception stays written. *)
Definition M (A : Type) : Type := World -> result A * World.

Definition ret {A} (a : A) : M A := fun w => (Ok a, w).
Definition raise {A} (e : exn) : M A := fun w => (Raise e, w).
Definition bind {A B} (c : M A) (k : A -> M B) : M B :=
  fun w =>
    match c w with
    | (Ok a, w') => k a w'
    | (Raise e, w') => (Raise e, w')
    end.
Definition lift {A} (r : result A) : M A := fun w => (r, w).

Declare Scope py_scope.
Delimit Scope py_scope with py.
Notation "x <- c ;; k" := (bind c (fun x => k))
  (at level 62, c at next level, right associativity) : py_scope.
Local Open Scope py_scope.

Definition rbind {A B} (r : result A) (k : A -> result B) : result B :=
  match r with
  | Ok a => k a
  | Raise e => Raise e
  end.

Definition set_heap (h : list DataFrame) (w : World) : World :=
  {| heap := h; random := random w; session_state := session_state w;
     engine := engine w |}.
Definition set_random (g : RandomState) (w : World) : World :=
  {| heap := heap w; random := g; session_state := session_state w;
     engine := engine w |}.
Definition set_engine (e : Engine) (w : World) : World :=
  {| heap := heap w; random := random w; session_state := session_state w;
     engine := e |}.

Definition get_heap : M (list DataFrame) := fun w => (Ok (heap w), w).
Definition put_heap (h : list DataFrame) : M unit := fun w => (Ok tt, set_heap h w).
Definition get_session : M SessionState := fun w => (Ok (session_state w), w).
Definition get_random : M RandomState := fun w => (Ok (random w), w).
Definition put_random (g : RandomState) : M unit := fun w => (Ok tt, set_random g w).
Definition get_engine : M Engine := fun w => (Ok (engine w), w).
Definition put_engine (e : Engine) : M unit := fun w => (Ok tt, set_engine e w).

(** [try: c except Exception as e: ...]: the outcome of [c], caught. *)
Definition try_except {A} (c : M A) : M (result A) :=
  fun w => let '(r, w') := c w in (Ok r, w').

(** Following a reference.  Python references never dangle; a location
    outside the heap only arises from an ill-formed initial world. *)
Definition deref (l : loc) : M DataFrame :=
  h <- get_heap ;;
  match h !! l with
  | Some df => ret df
  | None => raise (SystemError "dangling reference")
  end.

(** A new object. *)
Definition alloc (df : DataFrame) : M loc :=
  h <- get_heap ;;
  _ <- put_heap (h ++ [df]) ;;
  ret (length h).

(** In-place update of the object at [l]. *)
Definition store (l : loc) (df : DataFrame) : M unit :=
  h <- get_heap ;;
  put_heap (<[l := df]> h).

(* ===================================================================== *)
(** * pandas and numpy                                                     *)
(* ===================================================================== *)

Module pd.

(** [len(series)] *)
Definition Series_len (s : Series) : nat :=
  match s with
  | Float64 v => length v
  | Int64 v => length v
  | Object v => length v
  | Categorical v => length v
  end.

(** [len(df)] *)
Definition len (df : DataFrame) : nat := length (index df).

(** Lookup of a column by name. *)
Fixpoint assoc (c : string) (cols : list (string * Series)) : option Series :=
  match cols with
  | [] => None
  | (c', s) :: rest => if decide (c = c') then Some s else assoc c rest
  end.

(** [cols[c] = s]: replaces the column of that name where it stands, or
    appends a new one. *)
Fixpoint assign (c : string) (s : Series) (cols : list (string * Series))
  : list (string * Series) :=
  match cols with
  | [] => [(c, s)]
  | (c', s') :: rest =>
      if decide (c = c') then (c', s) :: rest else (c', s') :: assign c s rest
  end.

Definition column (c : string) (df : DataFrame) : option Series :=
  assoc c (columns df).

Definition with_column (c : string) (s : Series) (df : DataFrame) : DataFrame :=
  {| index := index df; columns := assign c s (columns df) |}.

(** The shape invariant of a frame: every column has one entry per row
    label. *)
Definition wf (df : DataFrame) : Prop :=
  Forall (fun cs => Series_len (snd cs) = len df) (columns df).

(** [df.copy()]: a new object with the same contents. *)
Definition copy (l : loc) : M loc :=
  df <- deref l ;;
  alloc df.

(** [df[c]] *)
Definition getitem (l : loc) (c : string) : M Series :=
  df <- deref l ;;
  match column c df with
  | Some s => ret s
  | None => raise (KeyError c)
  end.

(** [df[c] = s], for [s] a Series over the frame's own index or an
    ndarray (positional); a wrong length is refused. *)
Definition setitem (l : loc) (c : string) (s : Series) : M unit :=
  df <- deref l ;;
  if decide (Series_len s = len df)
  then store l (with_column c s df)
  else raise (ValueError "Length of values does not match length of index").

(** Numeric view of a column: [int64] entries are converted, strings and
    categories are refused by the arithmetic and comparison operators. *)
Definition to_float64 (s : Series) : result (list spec_float) :=
  match s with
  | Float64 v => Ok v
  | Int64 v => Ok (map B64.of_int v)
  | Object _ => Raise (TypeError "unsupported operand type(s): 'str'")
  | Categorical _ => Raise (TypeError "unsupported operand type(s): 'Categorical'")
  end.

(** Elementwise operators between two columns of one frame (same index,
    hence positional).  Two [int64] columns stay [int64] under [-] and
    [*]; everything else is computed in [float64]. *)
Definition float_op (f : spec_float -> spec_float -> spec_float) (a b : Series)
  : result Series :=
  rbind (to_float64 a) (fun x =>
  rbind (to_float64 b) (fun y =>
  Ok (Float64 (zip_with f x y)))).

Definition sub (a b : Series) : result Series :=
  match a, b with
  | Int64 x, Int64 y => Ok (Int64 (zip_with (fun i j => B64.wrap64 (i - j)) x y))
  | _, _ => float_op B64.sub a b
  end.

Definition mul (a b : Series) : result Series :=
  match a, b with
  | Int64 x, Int64 y => Ok (Int64 (zip_with (fun i j => B64.wrap64 (i * j)) x y))
  | _, _ => float_op B64.mul a b
  end.

Definition add (a b : Series) : result Series :=
  match a, b with
  | Int64 x, Int64 y => Ok (Int64 (zip_with (fun i j => B64.wrap64 (i + j)) x y))
  | _, _ => float_op B64.add a b
  end.

(** [a / b] is true division: always [float64]. *)
Definition truediv (a b : Series) : result Series := float_op B64.div a b.

(** Operators between a column and a scalar, all in [float64] here: the
    scalar is a float literal, an integer literal applied to a [float64]
    column, or the result of [max()]. *)
Definition scalar_op (f : spec_float -> spec_float) (a : Series) : result Series :=
  rbind (to_float64 a) (fun x => Ok (Float64 (map f x))).

Definition truediv_scalar (a : Series) (k : spec_float) : result Series :=
  scalar_op (fun x => B64.div x k) a.
Definition mul_scalar (a : Series) (k : spec_float) : result Series :=
  scalar_op (fun x => B64.mul x k) a.
Definition rsub_scalar (k : spec_float) (a : Series) : result Series :=
  scalar_op (fun x => B64.sub k x) a.

(** Comparison of a column with a number: a boolean mask.  numpy compares
    an [int64] column with a float after converting its entries to
    [float64]. *)
Definition cmp_scalar (f : spec_float -> spec_float -> bool) (a : Series)
    (k : spec_float) : result (list bool) :=
  rbind (to_float64 a) (fun x => Ok (map (fun v => f v k) x)).

Definition gt_scalar := cmp_scalar B64.gtb.
Definition ge_scalar := cmp_scalar B64.geb.
Definition le_scalar := cmp_scalar B64.leb.

(** [series == "text"]: elementwise; a non-string entry never equals a
    string. *)
Definition eq_str (a : Series) (k : string) : list bool :=
  match a with
  | Object v => map (fun s => bool_decide (s = k)) v
  | Categorical v => map (fun o => bool_decide (o = Some k)) v
  | Float64 v => map (fun _ => false) v
  | Int64 v => map (fun _ => false) v
  end.

(** [m1 & m2] *)
Definition mask_and (m1 m2 : list bool) : list bool := zip_with andb m1 m2.

(** Boolean indexing keeps the positions where the mask is [True]. *)
Fixpoint compress {A} (mask : list bool) (l : list A) : list A :=
  match mask, l with
  | b :: mask', x :: l' =>
      if b then x :: compress mask' l' else compress mask' l'
  | _, _ => []
  end.

Definition Series_compress (mask : list bool) (s : Series) : Series :=
  match s with
  | Float64 v => Float64 (compress mask v)
  | Int64 v => Int64 (compress mask v)
  | Object v => Object (compress mask v)
  | Categorical v => Categorical (compress mask v)
  end.

Definition take (mask : list bool) (df : DataFrame) : DataFrame :=
  {| index := compress mask (index df);
     columns := map (fun cs => (fst cs, Series_compress mask (snd cs))) (columns df) |}.

(** [df[mask]]: a new frame with the selected rows, labels kept. *)
Definition getitem_mask (l : loc) (mask : list bool) : M loc :=
  df <- deref l ;;
  if decide (length mask = len df)
  then alloc (take mask df)
  else raise (ValueError "Item wrong length").

(** [series.isin(values)] for a list of strings; a missing category is in
    no list. *)
Definition isin (a : Series) (values : list string) : list bool :=
  match a with
  | Object v => map (fun s => bool_decide (s ∈ values)) v
  | Categorical v =>
      map (fun o => match o with
                    | Some s => bool_decide (s ∈ values)
                    | None => false
                    end) v
  | Float64 v => map (fun _ => false) v
  | Int64 v => map (fun _ => false) v
  end.

(** Reductions skip NaN ([skipna=True]); over no value at all [max] and
    [mean] are NaN and [sum] is 0.  The sum is taken front to back, as
    DuckDB adds the values it reads in one piece and as numpy adds fewer
    than eight numbers; numpy adds a longer column pairwise, so that
    [series.sum()] of such a column can differ from this sum in its last
    bits.  The frames the statements are evaluated on have fewer than
    eight rows. *)
Definition nanmax (v : list spec_float) : spec_float :=
  match
    fold_left (fun acc x =>
                 if B64.is_nan x then acc
                 else match acc with
                      | None => Some x
                      | Some a => if B64.ltb a x then Some x else Some a
                      end) v None
  with
  | Some m => m
  | None => B64.nan
  end.

Definition nansum (v : list spec_float) : spec_float :=
  fold_left (fun acc x => if B64.is_nan x then acc else B64.add acc x) v B64.zero.

Definition count (v : list spec_float) : nat :=
  length (filter (fun x => negb (B64.is_nan x)) v).

Definition nanmean (v : list spec_float) : spec_float :=
  if decide (count v = 0%nat) then B64.nan
  else B64.div (nansum v) (B64.of_int (Z.of_nat (count v))).

(** [series.max()], as the number the column is then divided by: the
    maximum of an [int64] column enters the division as a double. *)
Definition max (s : Series) : result spec_float :=
  rbind (to_float64 s) (fun v => Ok (nanmax v)).

(** A numpy scalar: [np.float64] or [np.int64]. *)
Inductive scalar :=
| Float (x : spec_float)
| Int (n : Z).

(** [series.sum()]: an [int64] column sums in [int64]. *)
Definition sum (s : Series) : result scalar :=
  match s with
  | Int64 v => Ok (Int (fold_left (fun acc n => B64.wrap64 (acc + n)) v 0%Z))
  | _ => rbind (to_float64 s) (fun v => Ok (Float (nansum v)))
  end.

(** [series.mean()] is always a double. *)
Definition mean (s : Series) : result spec_float :=
  rbind (to_float64 s) (fun v => Ok (nanmean v)).

(** [float(x)] and [int(x)] of a numpy scalar. *)
Definition py_float (x : scalar) : spec_float :=
  match x with
  | Float v => v
  | Int n => B64.of_int n
  end.

Definition py_int (x : scalar) : result Z :=
  match x with
  | Int n => Ok n
  | Float v =>
      match B64.trunc v with
      | Some n => Ok n
      | None =>
          if B64.is_nan v
          then Raise (ValueError "cannot convert float NaN to integer")
          else Raise (OverflowError "cannot convert float infinity to integer")
      end
  end.

(** [bins.searchsorted(x, side="left")] on increasing edges: the number
    of edges strictly below [x]; a NaN sorts after every edge. *)
Fixpoint edges_below (bins : list spec_float) (x : spec_float) : nat :=
  match bins with
  | [] => 0
  | b :: rest => if B64.ltb b x then S (edges_below rest x) else 0
  end.

Definition searchsorted_left (bins : list spec_float) (x : spec_float) : nat :=
  if B64.is_nan x then length bins else edges_below bins x.

(** One value through [pd.cut(x, bins, labels=labels)] with the defaults
    [right=True], [include_lowest=False]: position [ids] among the edges,
    no label when [x] is NaN, at or below the first edge ([ids = 0]) or
    beyond the last ([ids = len(bins)]), label [ids - 1] otherwise. *)
Definition cut_value (bins : list spec_float) (labels : list string)
    (x : spec_float) : option string :=
  let ids := searchsorted_left bins x in
  if B64.is_nan x || (ids =? length bins)%nat || (ids =? 0)%nat
  then None
  else labels !! (ids - 1)%nat.

Definition cut (x : Series) (bins : list spec_float) (labels : list string)
  : result Series :=
  rbind (to_float64 x) (fun v => Ok (Categorical (map (cut_value bins labels) v))).

(** [df.empty]: no row, or no column. *)
Definition empty (df : DataFrame) : bool :=
  bool_decide (len df = 0%nat) || bool_decide (columns df = []).

(** ** Group-by

    [df.groupby(key)[c].sum().reset_index()], and the same with [mean()],
    under the defaults [sort=True] and [dropna=True]: one row per distinct
    key, the keys in ascending order, rows whose key is NaN left out; the
    result is a new frame with the two columns [key] and [c] and the labels
    0, 1, ... *)


(** The orders keys are sorted by: strings as Python compares them,
    character by character; numbers by value. *)
Definition str_le (a b : string) : Prop := Is_true (String.leb a b).
Definition float_le (x y : spec_float) : Prop := Is_true (B64.total_leb x y).

Global Instance str_le_dec a b : Decision (str_le a b).
Proof. unfold str_le. apply _. Defined.
Global Instance float_le_dec x y : Decision (float_le x y).
Proof. unfold float_le. apply _. Defined.









End pd.

Module np.

(** [np.where(cond, x, y)] for a boolean column, a numeric column and a
    number: a [float64] array. *)
Definition where_ (cond : list bool) (x : Series) (y : spec_float) : result Series :=
  rbind (pd.to_float64 x) (fun v =>
  Ok (Float64 (zip_with (fun (c : bool) xi => if c then xi else y) cond v))).

(** The next raw outcome of the global generator. *)
Definition next_raw : M Z :=
  g <- get_random ;;
  _ <- put_random {| draw := draw g; consumed := S (consumed g) |} ;;
  ret (draw g (consumed g)).

(** [np.random.choice(a)]: one element of [a], picked by one outcome. *)
Definition random_choice1 (a : list string) : M string :=
  r <- next_raw ;;
  match a !! Z.to_nat (r mod Z.of_nat (length a))%Z with
  | Some s => ret s
  | None => raise (ValueError "'a' cannot be empty unless no samples are taken")
  end.

(** [np.random.choice(a, size=n)] *)
Fixpoint random_choice (a : list string) (size : nat) : M (list string) :=
  match size with
  | O => ret []
  | S n =>
      x <- random_choice1 a ;;
      xs <- random_choice a n ;;
      ret (x :: xs)
  end.

(** A double in [0, 1): 53 random bits over [2^53]. *)
Definition random_double : M spec_float :=
  r <- next_raw ;;
  ret (B64.div (B64.of_int (r mod 2 ^ 53)%Z) (B64.of_int (2 ^ 53)%Z)).

(** [np.random.uniform(low, high, size=n)]: [low + (high - low) * u]. *)
Fixpoint random_uniform (low high : spec_float) (size : nat) : M (list spec_float) :=
  match size with
  | O => ret []
  | S n =>
      u <- random_double ;;
      xs <- random_uniform low high n ;;
      ret (B64.add low (B64.mul (B64.sub high low) u) :: xs)
  end.

End np.

(* ===================================================================== *)
(** * The SQL engine                                                       *)
(* ===================================================================== *)

(** The queries of the two programs all have the shape

      SELECT key, agg_1 AS a_1, ..., agg_n AS a_n
      FROM supply_data GROUP BY key ORDER BY a_i dir

    over the registered data frame.  DuckDB is an external engine; what is
    modelled is the meaning of such a query: one row per distinct key, the
    aggregates over the rows of that key (a NaN of a [float64] column is read
    as NULL and skipped), the rows sorted by the ORDER BY column, NULLs last.
    The queries name no second sort column: rows that tie on the ORDER BY
    column come out in the order in which the engine emitted their groups.
    Column names are matched as they are written (DuckDB itself ignores
    the case of letters, which only matters for a frame with two names that
    differ in case alone, or with the name in another case). *)
Module duckdb.

Inductive aggregate :=
| SUM (c : string)
| AVG (c : string)
| COUNT_STAR.

Inductive direction := ASC | DESC.

Record Query := {
  group_by : string;
  select : list (aggregate * string);   (* aggregate AS alias, in order *)
  order_by : string * direction
}.

(** The types of the result columns: AVG and the SUM of doubles are
    DOUBLE, COUNT is BIGINT, the SUM of a BIGINT column is HUGEINT (128
    bits, which no sum of 64-bit entries leaves). *)
Inductive value :=
| DOUBLE (x : spec_float)
| BIGINT (n : Z)
| HUGEINT (n : Z)
| NULL.

(** A result row: the group key and one cell per selected aggregate. *)
Record AggregateRow := {
  group_key : string;
  cells : list value
}.

(** Keys in order of first appearance. *)
Fixpoint distinct (seen : list string) (keys : list string) : list string :=
  match keys with
  | [] => []
  | k :: rest =>
      if decide (k ∈ seen) then distinct seen rest
      else k :: distinct (k :: seen) rest
  end.

Definition sum_double (v : list spec_float) : value :=
  if decide (pd.count v = 0%nat) then NULL else DOUBLE (pd.nansum v).

Definition avg_double (v : list spec_float) : value :=
  if decide (pd.count v = 0%nat) then NULL else DOUBLE (pd.nanmean v).

(** Over integers the sum is exact, and the average is the quotient of the
    exact sum by the count (taken by the engine in the [long double] of
    the platform, then stored as a double; here it is rounded once). *)
Definition sum_bigint (v : list Z) : value :=
  match v with
  | [] => NULL
  | _ => HUGEINT (fold_left Z.add v 0%Z)
  end.

Definition avg_bigint (v : list Z) : value :=
  match v with
  | [] => NULL
  | _ => DOUBLE (B64.ratio (fold_left Z.add v 0%Z) (Z.of_nat (length v)))
  end.

(** One aggregate over the rows selected by [mask]. *)
Definition eval_aggregate (df : DataFrame) (mask : list bool) (a : aggregate)
  : result value :=
  match a with
  | COUNT_STAR => Ok (BIGINT (Z.of_nat (length (filter (fun b : bool => b) mask))))
  | SUM c =>
      match pd.column c df with
      | None => Raise (BinderException c)
      | Some (Float64 v) => Ok (sum_double (pd.compress mask v))
      | Some (Int64 v) => Ok (sum_bigint (pd.compress mask v))
      | Some _ => Raise (BinderException "No function matches sum(VARCHAR)")
      end
  | AVG c =>
      match pd.column c df with
      | None => Raise (BinderException c)
      | Some (Float64 v) => Ok (avg_double (pd.compress mask v))
      | Some (Int64 v) => Ok (avg_bigint (pd.compress mask v))
      | Some _ => Raise (BinderException "No function matches avg(VARCHAR)")
      end
  end.

Fixpoint eval_aggregates (df : DataFrame) (mask : list bool)
    (sel : list (aggregate * string)) : result (list value) :=
  match sel with
  | [] => Ok []
  | (a, _) :: rest =>
      rbind (eval_aggregate df mask a) (fun v =>
      rbind (eval_aggregates df mask rest) (fun vs =>
      Ok (v :: vs)))
  end.

Fixpoint eval_groups (df : DataFrame) (keys : list string)
    (sel : list (aggregate * string)) (groups : list string)
  : result (list AggregateRow) :=
  match groups with
  | [] => Ok []
  | k :: rest =>
      rbind (eval_aggregates df (map (fun s => bool_decide (s = k)) keys) sel) (fun vs =>
      rbind (eval_groups df keys sel rest) (fun rows =>
      Ok ({| group_key := k; cells := vs |} :: rows)))
  end.

(** Position of an alias in the select list. *)
Fixpoint alias_index (alias : string) (sel : list (aggregate * string)) : option nat :=
  match sel with
  | [] => None
  | (_, a) :: rest =>
      if decide (alias = a) then Some 0%nat else S <$> alias_index alias rest
  end.

(** The value a row is sorted by: a double or an integer, or nothing for
    NULL. *)
Definition sort_key (i : nat) (r : AggregateRow) : option (spec_float + Z) :=
  match cells r !! i with
  | Some (DOUBLE x) => Some (inl x)
  | Some (BIGINT n) | Some (HUGEINT n) => Some (inr n)
  | Some NULL | None => None
  end.

(** Doubles are compared in their total order, integers exactly.  A
    column holds values of one type, so that the last two cases do not
    arise. *)
Definition value_leb (x y : spec_float + Z) : bool :=
  match x, y with
  | inl a, inl b => B64.total_leb a b
  | inr n, inr m => (n <=? m)%Z
  | inl _, inr _ => true
  | inr _, inl _ => false
  end.

(** [a] may stand before [b] under ORDER BY ... [d] (NULLS LAST). *)
Definition key_leb (d : direction) (a b : option (spec_float + Z)) : bool :=
  match a, b with
  | _, None => true
  | None, Some _ => false
  | Some x, Some y =>
      match d with
      | ASC => value_leb x y
      | DESC => value_leb y x
      end
  end.

Definition precedes (d : direction) (i : nat) (r1 r2 : AggregateRow) : Prop :=
  Is_true (key_leb d (sort_key i r1) (sort_key i r2)).

Global Instance precedes_dec d i r1 r2 : Decision (precedes d i r1 r2).
Proof. unfold precedes. apply _. Defined.

(** The groups in the order the engine emits them: [order] says, group
    after group from the last to the first, at which position the group
    enters the sequence of those after it.  Every order of the groups is
    the arrangement of some [order]; the empty one leaves them in order of
    first appearance. *)
Fixpoint arrange {A} (order : list nat) (l : list A) {struct l} : list A :=
  match l with
  | [] => []
  | x :: rest =>
      match order with
      | [] => x :: rest
      | k :: order' =>
          let rest' := arrange order' rest in
          take k rest' ++ x :: drop k rest'
      end
  end.

(** Running a query on a frame, the groups emitted in [order]: which of
    two tied rows comes first depends on that order. *)
Definition run (q : Query) (df : DataFrame) (order : list nat)
  : result (list AggregateRow) :=
  match pd.column (group_by q) df with
  | Some (Object keys) =>
      match alias_index (fst (order_by q)) (select q) with
      | Some i =>
          rbind (eval_groups df keys (select q) (distinct [] keys)) (fun rows =>
          Ok (merge_sort (precedes (snd (order_by q)) i) (arrange order rows)))
      | None => Raise (BinderException (fst (order_by q)))
      end
  | Some _ => Raise (BinderException "GROUP BY key is not a VARCHAR column")
  | None => Raise (BinderException (group_by q))
  end.

(** The engine after one more grouped query. *)
Definition advance (e : Engine) : Engine :=
  {| emission := emission e; executed := S (executed e) |}.

(** [connection.execute(q)] on the frame registered as [supply_data]:
    the frame is read when the query runs.  A query that fails to bind is
    not executed. *)
Definition execute (supply_data : loc) (q : Query) : M (list AggregateRow) :=
  df <- deref supply_data ;;
  e <- get_engine ;;
  rows <- lift (run q df (emission e (executed e))) ;;
  _ <- put_engine (advance e) ;;
  ret rows.

(** [.df()]: the result as a pandas frame, row by row.  A HUGEINT column
    becomes [float64] (exactly below [2^53]), a NULL of a DOUBLE column
    becomes NaN. *)
Definition to_pandas (v : value) : value :=
  match v with
  | HUGEINT n => DOUBLE (B64.of_int n)
  | NULL => DOUBLE B64.nan
  | v => v
  end.

Definition df (rows : list AggregateRow) : list AggregateRow :=
  map (fun r => {| group_key := group_key r; cells := map to_pandas (cells r) |}) rows.

(** [connection.execute(q).df()] *)
Definition execute_df (supply_data : loc) (q : Query) : M (list AggregateRow) :=
  rows <- execute supply_data q ;;
  ret (df rows).

End duckdb.

(** The ungrouped queries of [DataAnalyzer],

      SELECT agg(c) AS a FROM supply_data

    have one result row, the one [fetchone()] returns.  Its field is the
    aggregate over all the rows of the frame, NULL ([None] in Python) when
    no row contributes a value; the column is looked up when the query is
    bound, also on a frame without rows.  There is no group to order: the
    engine's emission order plays no part. *)
Module duckdb_scalar.

Definition eval (a : duckdb.aggregate) (df : DataFrame) : result duckdb.value :=
  match a with
  | duckdb.COUNT_STAR => Ok (duckdb.BIGINT (Z.of_nat (pd.len df)))
  | duckdb.SUM c =>
      match pd.column c df with
      | None => Raise (BinderException c)
      | Some (Float64 v) => Ok (duckdb.sum_double v)
      | Some (Int64 v) => Ok (duckdb.sum_bigint v)
      | Some _ => Raise (BinderException "No function matches sum(VARCHAR)")
      end
  | duckdb.AVG c =>
      match pd.column c df with
      | None => Raise (BinderException c)
      | Some (Float64 v) => Ok (duckdb.avg_double v)
      | Some (Int64 v) => Ok (duckdb.avg_bigint v)
      | Some _ => Raise (BinderException "No function matches avg(VARCHAR)")
      end
  end.

(** [connection.execute(q).fetchone()[0]] *)
Definition fetchone (supply_data : loc) (a : duckdb.aggregate) : M duckdb.value :=
  df <- deref supply_data ;;
  lift (eval a df).

(** The truth value of a field: [None], [0] and [0.0] are false, every
    other number, NaN included, is true. *)
Definition truth (v : duckdb.value) : bool :=
  match v with
  | duckdb.NULL => false
  | duckdb.BIGINT n | duckdb.HUGEINT n => negb (n =? 0)%Z
  | duckdb.DOUBLE x => negb (B64.eqb x B64.zero)
  end.

(** [float(v)] and [int(v)] of a field; a HUGEINT arrives as a Python
    [int]. *)
Definition py_float (v : duckdb.value) : result spec_float :=
  match v with
  | duckdb.DOUBLE x => Ok x
  | duckdb.BIGINT n | duckdb.HUGEINT n =>
      match B64.of_int n with
      | S754_infinity _ => Raise (OverflowError "int too large to convert to float")
      | x => Ok x
      end
  | duckdb.NULL => Raise (TypeError "float() argument must be a real number, not 'NoneType'")
  end.

Definition py_int (v : duckdb.value) : result Z :=
  match v with
  | duckdb.DOUBLE x => pd.py_int (pd.Float x)
  | duckdb.BIGINT n | duckdb.HUGEINT n => Ok n
  | duckdb.NULL => Raise (TypeError "int() argument must be a real number, not 'NoneType'")
  end.

End duckdb_scalar.

(* ===================================================================== *)
(** * enhanced_supply_chain_dashboard.py                                   *)
(* ===================================================================== *)

Module Enhanced.

(** [calculate_derived_metrics(df)]: the body the [st.cache_data]
    decorator wraps, i.e. what runs when the call is not answered from
    the cache. *)
Definition calculate_derived_metrics (df : loc) : M loc :=
  enhanced_df <- pd.copy df ;;
  (* Calculate profit margin *)
  a <- pd.getitem enhanced_df "Revenue generated" ;;
  b <- pd.getitem enhanced_df "Manufacturing costs" ;;
  v <- lift (pd.sub a b) ;;
  _ <- pd.setitem enhanced_df "Profit_Margin" v ;;
  (* Calculate total shipping costs *)
  a <- pd.getitem enhanced_df "Number of products sold" ;;
  b <- pd.getitem enhanced_df "Shipping costs" ;;
  v <- lift (pd.mul a b) ;;
  _ <- pd.setitem enhanced_df "Total_Shipping_Cost" v ;;
  (* Calculate efficiency ratio *)
  a <- pd.getitem enhanced_df "Revenue generated" ;;
  b <- pd.getitem enhanced_df "Manufacturing costs" ;;
  v <- lift (pd.truediv a b) ;;
  _ <- pd.setitem enhanced_df "Efficiency_Ratio" v ;;
  (* Calculate inventory turnover *)
  a <- pd.getitem enhanced_df "Number of products sold" ;;
  b <- pd.getitem enhanced_df "Stock levels" ;;
  v <- lift (pd.truediv a b) ;;
  _ <- pd.setitem enhanced_df "Inventory_Turnover" v ;;
  ret enhanced_df.

(** [DataAnalyzer]: [self.df] and the frame registered with DuckDB are
    one and the same object. *)
Record DataAnalyzer := { df : loc }.

Definition revenue_by_product_type_query : duckdb.Query :=
  {| duckdb.group_by := "Product type";
     duckdb.select := [ (duckdb.SUM "Revenue generated", "total_revenue");
                        (duckdb.COUNT_STAR, "product_count") ];
     duckdb.order_by := ("total_revenue", duckdb.DESC) |}.


Definition supplier_analysis_query : duckdb.Query :=
  {| duckdb.group_by := "Supplier name";
     duckdb.select := [ (duckdb.SUM "Manufacturing costs", "total_costs");
                        (duckdb.AVG "Defect rates", "avg_defect_rate");
                        (duckdb.COUNT_STAR, "product_count") ];
     duckdb.order_by := ("total_costs", duckdb.DESC) |}.


(** The three indicators: [float(result[0]) if result[0] else 0.0], and
    likewise with [int]. *)
Definition get_total_revenue (self : DataAnalyzer) : M spec_float :=
  field <- duckdb_scalar.fetchone (df self) (duckdb.SUM "Revenue generated") ;;
  if duckdb_scalar.truth field then lift (duckdb_scalar.py_float field) else ret B64.zero.

Definition get_total_orders (self : DataAnalyzer) : M Z :=
  field <- duckdb_scalar.fetchone (df self) (duckdb.SUM "Order quantities") ;;
  if duckdb_scalar.truth field then lift (duckdb_scalar.py_int field) else ret 0%Z.

Definition get_average_lead_time (self : DataAnalyzer) : M spec_float :=
  field <- duckdb_scalar.fetchone (df self) (duckdb.AVG "Lead times") ;;
  if duckdb_scalar.truth field then lift (duckdb_scalar.py_float field) else ret B64.zero.

(** The filters of [main()], for the selections the two select boxes of
    the sidebar returned: the frame the analyzer is then built on. *)
Definition main_filters (processed_data : loc)
    (selected_product_type selected_location : string) : M loc :=
  filtered_data <- pd.copy processed_data ;;
  filtered_data <-
    (if decide (selected_product_type = "All") then ret filtered_data
     else
       c <- pd.getitem filtered_data "Product type" ;;
       pd.getitem_mask filtered_data (pd.eq_str c selected_product_type)) ;;
  filtered_data <-
    (if decide (selected_location = "All") then ret filtered_data
     else
       c <- pd.getitem filtered_data "Location" ;;
       pd.getitem_mask filtered_data (pd.eq_str c selected_location)) ;;
  ret filtered_data.






End Enhanced.

(* ===================================================================== *)
(** * interactive_dashboard_enhanced.py                                    *)
(* ===================================================================== *)

Module Interactive.

Definition risk_bins : list spec_float :=
  [B64.zero; B64.f1; B64.f3; B64.f5; B64.inf].
Definition risk_labels : list string := ["Low"; "Medium"; "High"; "Critical"].

(** [calculate_advanced_metrics(df)]: the body the [st.cache_data]
    decorator wraps.  Operands are evaluated left to right, an assignment
    evaluates its right-hand side first. *)
Definition calculate_advanced_metrics (df : loc) : M loc :=
  enhanced_df <- pd.copy df ;;
  (* Basic derived metrics *)
  a <- pd.getitem enhanced_df "Revenue generated" ;;
  b <- pd.getitem enhanced_df "Manufacturing costs" ;;
  v <- lift (pd.sub a b) ;;
  _ <- pd.setitem enhanced_df "Profit_Margin" v ;;
  a <- pd.getitem enhanced_df "Number of products sold" ;;
  b <- pd.getitem enhanced_df "Shipping costs" ;;
  v <- lift (pd.mul a b) ;;
  _ <- pd.setitem enhanced_df "Total_Shipping_Cost" v ;;
  c <- pd.getitem enhanced_df "Manufacturing costs" ;;
  cond <- lift (pd.gt_scalar c B64.zero) ;;
  a <- pd.getitem enhanced_df "Revenue generated" ;;
  b <- pd.getitem enhanced_df "Manufacturing costs" ;;
  q <- lift (pd.truediv a b) ;;
  v <- lift (np.where_ cond q B64.zero) ;;
  _ <- pd.setitem enhanced_df "Efficiency_Ratio" v ;;
  (* Advanced metrics *)
  c <- pd.getitem enhanced_df "Stock levels" ;;
  cond <- lift (pd.gt_scalar c B64.zero) ;;
  a <- pd.getitem enhanced_df "Number of products sold" ;;
  b <- pd.getitem enhanced_df "Stock levels" ;;
  q <- lift (pd.truediv a b) ;;
  v <- lift (np.where_ cond q B64.zero) ;;
  _ <- pd.setitem enhanced_df "Inventory_Turnover" v ;;
  (* Performance scoring *)
  a <- pd.getitem enhanced_df "Revenue generated" ;;
  b <- pd.getitem enhanced_df "Revenue generated" ;;
  m <- lift (pd.max b) ;;
  q <- lift (pd.truediv_scalar a m) ;;
  t1 <- lift (pd.mul_scalar q B64.f0_4) ;;
  a <- pd.getitem enhanced_df "Lead times" ;;
  b <- pd.getitem enhanced_df "Lead times" ;;
  m <- lift (pd.max b) ;;
  q <- lift (pd.truediv_scalar a m) ;;
  r <- lift (pd.rsub_scalar B64.f1 q) ;;
  t2 <- lift (pd.mul_scalar r B64.f0_3) ;;
  s12 <- lift (pd.add t1 t2) ;;
  a <- pd.getitem enhanced_df "Defect rates" ;;
  b <- pd.getitem enhanced_df "Defect rates" ;;
  m <- lift (pd.max b) ;;
  q <- lift (pd.truediv_scalar a m) ;;
  r <- lift (pd.rsub_scalar B64.f1 q) ;;
  t3 <- lift (pd.mul_scalar r B64.f0_3) ;;
  s <- lift (pd.add s12 t3) ;;
  v <- lift (pd.mul_scalar s B64.f100) ;;
  _ <- pd.setitem enhanced_df "Performance_Score" v ;;
  (* Risk assessment *)
  x <- pd.getitem enhanced_df "Defect rates" ;;
  v <- lift (pd.cut x risk_bins risk_labels) ;;
  _ <- pd.setitem enhanced_df "Risk_Level" v ;;
  (* Trend indicators (simulated for demo) *)
  d <- deref enhanced_df ;;
  t <- np.random_choice ["Up"; "Down"; "Stable"] (pd.len d) ;;
  _ <- pd.setitem enhanced_df "Trend_Direction" (Object t) ;;
  d <- deref enhanced_df ;;
  u <- np.random_uniform B64.f0_1 B64.f1 (pd.len d) ;;
  _ <- pd.setitem enhanced_df "Trend_Strength" (Float64 u) ;;
  ret enhanced_df.

(** [EnhancedDataAnalyzer]: [self.df] is the frame registered with the
    engine. *)
Record EnhancedDataAnalyzer := { df : loc }.

(** The dictionary [get_performance_metrics] returns, a field per key. *)
Record Metrics := {
  total_revenue : spec_float;
  total_orders : Z;
  avg_lead_time : spec_float;
  total_availability : spec_float;
  avg_profit_margin : spec_float;
  efficiency_score : spec_float;
  performance_score : spec_float;
  revenue_trend : string;
  orders_trend : string;
  lead_time_trend : string
}.

Definition get_performance_metrics (self : EnhancedDataAnalyzer) : M Metrics :=
  (* Basic metrics *)
  c <- pd.getitem (df self) "Revenue generated" ;;
  x <- lift (pd.sum c) ;;
  let total_revenue := pd.py_float x in
  c <- pd.getitem (df self) "Order quantities" ;;
  x <- lift (pd.sum c) ;;
  total_orders <- lift (pd.py_int x) ;;
  c <- pd.getitem (df self) "Lead times" ;;
  avg_lead_time <- lift (pd.mean c) ;;
  c <- pd.getitem (df self) "Availability" ;;
  x <- lift (pd.sum c) ;;
  let total_availability := pd.py_float x in
  (* Advanced metrics *)
  c <- pd.getitem (df self) "Profit_Margin" ;;
  avg_profit_margin <- lift (pd.mean c) ;;
  c <- pd.getitem (df self) "Efficiency_Ratio" ;;
  efficiency_score <- lift (pd.mean c) ;;
  c <- pd.getitem (df self) "Performance_Score" ;;
  performance_score <- lift (pd.mean c) ;;
  (* Trend calculations (simulated) *)
  revenue_trend <- np.random_choice1 ["up"; "down"; "stable"] ;;
  orders_trend <- np.random_choice1 ["up"; "down"; "stable"] ;;
  lead_time_trend <- np.random_choice1 ["up"; "down"; "stable"] ;;
  ret {| total_revenue := total_revenue;
         total_orders := total_orders;
         avg_lead_time := avg_lead_time;
         total_availability := total_availability;
         avg_profit_margin := avg_profit_margin;
         efficiency_score := efficiency_score;
         performance_score := performance_score;
         revenue_trend := revenue_trend;
         orders_trend := orders_trend;
         lead_time_trend := lead_time_trend |}.

Definition product_performance_query : duckdb.Query :=
  {| duckdb.group_by := "Product type";
     duckdb.select := [ (duckdb.SUM "Revenue generated", "total_revenue");
                        (duckdb.AVG "Performance_Score", "avg_performance");
                        (duckdb.COUNT_STAR, "product_count");
                        (duckdb.AVG "Defect rates", "avg_defect_rate") ];
     duckdb.order_by := ("total_revenue", duckdb.DESC) |}.

Definition location_efficiency_query : duckdb.Query :=
  {| duckdb.group_by := "Location";
     duckdb.select := [ (duckdb.SUM "Revenue generated", "total_revenue");
                        (duckdb.AVG "Lead times", "avg_lead_time");
                        (duckdb.AVG "Efficiency_Ratio", "avg_efficiency");
                        (duckdb.SUM "Manufacturing costs", "total_costs") ];
     duckdb.order_by := ("avg_efficiency", duckdb.DESC) |}.

Definition supplier_risk_query : duckdb.Query :=
  {| duckdb.group_by := "Supplier name";
     duckdb.select := [ (duckdb.AVG "Defect rates", "avg_defect_rate");
                        (duckdb.SUM "Manufacturing costs", "total_costs");
                        (duckdb.COUNT_STAR, "product_count");
                        (duckdb.AVG "Lead times", "avg_lead_time") ];
     duckdb.order_by := ("avg_defect_rate", duckdb.DESC) |}.

Definition transportation_analysis_query : duckdb.Query :=
  {| duckdb.group_by := "Transportation modes";
     duckdb.select := [ (duckdb.AVG "Shipping costs", "avg_shipping_cost");
                        (duckdb.AVG "Lead times", "avg_lead_time");
                        (duckdb.SUM "Order quantities", "total_orders");
                        (duckdb.COUNT_STAR, "usage_count") ];
     duckdb.order_by := ("avg_shipping_cost", duckdb.ASC) |}.

(** The dictionary [get_advanced_analytics] returns. *)
Record Analytics := {
  product_performance : list duckdb.AggregateRow;
  location_efficiency : list duckdb.AggregateRow;
  supplier_risk : list duckdb.AggregateRow;
  transportation_analysis : list duckdb.AggregateRow
}.

Definition get_advanced_analytics (self : EnhancedDataAnalyzer) : M Analytics :=
  r1 <- duckdb.execute_df (df self) product_performance_query ;;
  r2 <- duckdb.execute_df (df self) location_efficiency_query ;;
  r3 <- duckdb.execute_df (df self) supplier_risk_query ;;
  r4 <- duckdb.execute_df (df self) transportation_analysis_query ;;
  ret {| product_performance := r1;
         location_efficiency := r2;
         supplier_risk := r3;
         transportation_analysis := r4 |}.

(** [apply_filters(data)]: every filter that is active rebinds
    [filtered_data] to a new frame holding the selected rows. *)
Definition apply_filters (data : loc) : M loc :=
  filtered_data <- pd.copy data ;;
  st <- get_session ;;
  (* Product type filter *)
  filtered_data <-
    (if decide (selected_product_type st = "All") then ret filtered_data
     else
       c <- pd.getitem filtered_data "Product type" ;;
       pd.getitem_mask filtered_data (pd.eq_str c (selected_product_type st))) ;;
  (* Location filter *)
  filtered_data <-
    (if decide (selected_location st = "All") then ret filtered_data
     else
       c <- pd.getitem filtered_data "Location" ;;
       pd.getitem_mask filtered_data (pd.eq_str c (selected_location st))) ;;
  (* Revenue range filter *)
  filtered_data <-
    match revenue_range st with
    | Some (min_rev, max_rev) =>
        c <- pd.getitem filtered_data "Revenue generated" ;;
        m1 <- lift (pd.ge_scalar c min_rev) ;;
        c <- pd.getitem filtered_data "Revenue generated" ;;
        m2 <- lift (pd.le_scalar c max_rev) ;;
        pd.getitem_mask filtered_data (pd.mask_and m1 m2)
    | None => ret filtered_data
    end ;;
  (* Lead time filter (the bound is an integer; it is compared as a
     double, which makes no difference below 2^53) *)
  filtered_data <-
    match lead_time_max st with
    | Some k =>
        c <- pd.getitem filtered_data "Lead times" ;;
        m <- lift (pd.le_scalar c (B64.of_int k)) ;;
        pd.getitem_mask filtered_data m
    | None => ret filtered_data
    end ;;
  (* Risk level filter *)
  filtered_data <-
    match risk_levels st with
    | Some (level :: levels) =>
        c <- pd.getitem filtered_data "Risk_Level" ;;
        pd.getitem_mask filtered_data (pd.isin c (level :: levels))
    | Some [] | None => ret filtered_data
    end ;;
  ret filtered_data.

(** The names bound in the module when [main()] runs: its imports, its
    constants, its functions and classes. *)
Definition module_names : list string :=
  ["st"; "go"; "px"; "pd"; "np"; "duckdb"; "time"; "json";
   "Dict"; "List"; "Tuple"; "Any"; "Optional"; "datetime";
   "ENHANCED_CSS"; "INTERACTIVE_JS";
   "load_supply_chain_data"; "calculate_advanced_metrics";
   "AdvancedChartFactory"; "EnhancedDataAnalyzer"; "main";
   "create_interactive_sidebar"; "apply_filters";
   "create_dynamic_insights_section"; "create_interactive_dashboard_layout"].

(** Evaluating a global name. *)
Definition load_global (name : string) : M unit :=
  if decide (name ∈ module_names) then ret tt
  else raise (NameError ("name '" ++ name ++ "' is not defined")).

(** The body of the [try] block of [main()], for the frame
    [load_supply_chain_data] returned and calls not answered from the cache
    of [st.cache_data]: nothing to process if the frame is empty, else the
    enrichment, the analyzer on the enriched frame and the chart factory
    on the theme that [create_plotly_theme()] is called for. *)
Definition initialize_dashboard (raw_data : loc) : M (option loc) :=
  raw <- deref raw_data ;;
  if pd.empty raw then ret None
  else
    processed_data <- calculate_advanced_metrics raw_data ;;
    _ <- load_global "create_plotly_theme" ;;
    ret (Some processed_data).

(** [main()]: [except Exception] reports the error of the block and
    returns, and so does the block itself on an empty frame.  What follows
    the block (the sidebar, [apply_filters], the two sections that call the
    analyzer) is [dashboard], given the enriched frame. *)
Definition main (raw_data : loc) (dashboard : loc -> M unit) : M unit :=
  r <- try_except (initialize_dashboard raw_data) ;;
  match r with
  | Ok (Some processed_data) => dashboard processed_data
  | Ok None => ret tt
  | Raise _ => ret tt
  end.

End Interactive.

(* ===================================================================== *)
(** * Vocabulary of the statements                                         *)
(* ===================================================================== *)

(** The columns the two enrichment functions read, in the order in which
    they are first read. *)
Definition derived_inputs : list string :=
  ["Revenue generated"; "Manufacturing costs"; "Number of products sold";
   "Shipping costs"; "Stock levels"].

Definition advanced_inputs : list string :=
  derived_inputs ++ ["Lead times"; "Defect rates"].

(** The columns they write. *)
Definition derived_outputs : list string :=
  ["Profit_Margin"; "Total_Shipping_Cost"; "Efficiency_Ratio"; "Inventory_Turnover"].

Definition advanced_outputs : list string :=
  derived_outputs ++ ["Performance_Score"; "Risk_Level"; "Trend_Direction"; "Trend_Strength"].

Definition numeric (s : Series) : Prop :=
  match s with
  | Float64 _ | Int64 _ => True
  | Object _ | Categorical _ => False
  end.

(** Column [c] is there and holds numbers. *)
Definition has_numeric (df : DataFrame) (c : string) : Prop :=
  exists s, pd.column c df = Some s /\ numeric s.

(** The numbers of column [c], [[]] if there is no such numeric column. *)
Definition numbers (c : string) (df : DataFrame) : list spec_float :=
  match pd.column c df with
  | Some s => match pd.to_float64 s with Ok v => v | Raise _ => [] end
  | None => []
  end.

(** The first required column that is absent. *)
Definition first_missing (required : list string) (df : DataFrame) : option string :=
  List.find (fun c => match pd.column c df with None => true | Some _ => false end) required.

(** The generator after one more outcome, and after [n] more. *)
Definition next (g : RandomState) : RandomState :=
  {| draw := draw g; consumed := S (consumed g) |}.

Definition pick (a : list string) (r : Z) : string :=
  default "" (a !! Z.to_nat (r mod Z.of_nat (length a))%Z).

Fixpoint choices (a : list string) (g : RandomState) (n : nat) : list string :=
  match n with
  | O => []
  | S n' => pick a (draw g (consumed g)) :: choices a (next g) n'
  end.

Definition unit_double (r : Z) : spec_float :=
  B64.div (B64.of_int (r mod 2 ^ 53)%Z) (B64.of_int (2 ^ 53)%Z).

Fixpoint uniforms (low high : spec_float) (g : RandomState) (n : nat) : list spec_float :=
  match n with
  | O => []
  | S n' =>
      B64.add low (B64.mul (B64.sub high low) (unit_double (draw g (consumed g))))
        :: uniforms low high (next g) n'
  end.

(** The derived columns as functions of the numbers they are computed
    from, column by column as the assignments compute them. *)
Definition guarded_ratio (num den : list spec_float) : list spec_float :=
  zip_with (fun (c : bool) q => if c then q else B64.zero)
    (map (fun v => B64.gtb v B64.zero) den)
    (zip_with B64.div num den).

Definition share_of_max (v : list spec_float) : list spec_float :=
  map (fun x => B64.div x (pd.nanmax v)) v.

Definition revenue_term (rev : list spec_float) : list spec_float :=
  map (fun x => B64.mul x B64.f0_4) (share_of_max rev).

Definition penalty_term (v : list spec_float) : list spec_float :=
  map (fun x => B64.mul x B64.f0_3) (map (fun x => B64.sub B64.f1 x) (share_of_max v)).

Definition performance_scores (rev lt dr : list spec_float) : list spec_float :=
  map (fun x => B64.mul x B64.f100)
    (zip_with B64.add
       (zip_with B64.add (revenue_term rev) (penalty_term lt))
       (penalty_term dr)).

Definition risk_level (x : spec_float) : option string :=
  pd.cut_value Interactive.risk_bins Interactive.risk_labels x.

(** One row's score, from the three column maxima and the row's values. *)
Definition score (mrev mlt mdr : spec_float) (rev lt dr : spec_float) : spec_float :=
  B64.mul
    (B64.add
       (B64.add (B64.mul (B64.div rev mrev) B64.f0_4)
                (B64.mul (B64.sub B64.f1 (B64.div lt mlt)) B64.f0_3))
       (B64.mul (B64.sub B64.f1 (B64.div dr mdr)) B64.f0_3))
    B64.f100.

(** The frame [calculate_derived_metrics] builds from [d]. *)
Definition derived_frame (d : DataFrame) (pm tsc : Series) : DataFrame :=
  pd.with_column "Inventory_Turnover"
    (Float64 (zip_with B64.div (numbers "Number of products sold" d) (numbers "Stock levels" d)))
  (pd.with_column "Efficiency_Ratio"
    (Float64 (zip_with B64.div (numbers "Revenue generated" d) (numbers "Manufacturing costs" d)))
  (pd.with_column "Total_Shipping_Cost" tsc
  (pd.with_column "Profit_Margin" pm d))).

(** The frame [calculate_advanced_metrics] builds from [d], up to the two
    simulated trend columns, and with them for a generator [g]. *)
Definition scored_frame (d : DataFrame) (pm tsc : Series) : DataFrame :=
  pd.with_column "Risk_Level" (Categorical (map risk_level (numbers "Defect rates" d)))
  (pd.with_column "Performance_Score"
    (Float64 (performance_scores (numbers "Revenue generated" d)
                (numbers "Lead times" d) (numbers "Defect rates" d)))
  (pd.with_column "Inventory_Turnover"
    (Float64 (guarded_ratio (numbers "Number of products sold" d) (numbers "Stock levels" d)))
  (pd.with_column "Efficiency_Ratio"
    (Float64 (guarded_ratio (numbers "Revenue generated" d) (numbers "Manufacturing costs" d)))
  (pd.with_column "Total_Shipping_Cost" tsc
  (pd.with_column "Profit_Margin" pm d))))).

Definition advanced_frame (d : DataFrame) (pm tsc : Series) (g : RandomState) : DataFrame :=
  pd.with_column "Trend_Strength"
    (Float64 (uniforms B64.f0_1 B64.f1 (Nat.iter (pd.len d) next g) (pd.len d)))
  (pd.with_column "Trend_Direction"
    (Object (choices ["Up"; "Down"; "Stable"] g (pd.len d)))
  (scored_frame d pm tsc)).

(** Column [c] of the frame a run returned. *)
Definition result_column (c : string) (r : result loc * World) : option Series :=
  match r with
  | (Ok l, w) => match heap w !! l with
                 | Some d => pd.column c d
                 | None => None
                 end
  | (Raise _, _) => None
  end.

(** ** Sample data *)

(** A frame with the columns of the CSV file the computations read. *)
Definition sample_frame (product location supplier transport : list string)
    (rev mc nps sc sl lt dr oq av : list spec_float) : DataFrame :=
  {| index := map Z.of_nat (seq 0 (length rev));
     columns := [ ("Product type", Object product);
                  ("Location", Object location);
                  ("Supplier name", Object supplier);
                  ("Transportation modes", Object transport);
                  ("Revenue generated", Float64 rev);
                  ("Manufacturing costs", Float64 mc);
                  ("Number of products sold", Float64 nps);
                  ("Shipping costs", Float64 sc);
                  ("Stock levels", Float64 sl);
                  ("Lead times", Float64 lt);
                  ("Defect rates", Float64 dr);
                  ("Order quantities", Float64 oq);
                  ("Availability", Float64 av) ] |}.

(** The session as the module leaves it at import time. *)
Definition initial_session : SessionState :=
  {| selected_product_type := "All";
     selected_location := "All";
     revenue_range := None;
     lead_time_max := None;
     risk_levels := None |}.

(** A generator whose [k]-th outcome is [k]. *)
Definition counting : RandomState := {| draw := fun k => Z.of_nat k; consumed := 0 |}.

(** An engine that emits the groups of every query in order of first
    appearance, and one that emits the first group of every query after
    the second. *)
Definition idle : Engine := {| emission := fun _ => []; executed := 0 |}.
Definition swapping : Engine := {| emission := fun _ => [1]; executed := 0 |}.

(** A world holding one frame, at location 0. *)
Definition world_of (d : DataFrame) : World :=
  {| heap := [d]; random := counting; session_state := initial_session; engine := idle |}.

Definition ones (n : nat) : list spec_float := replicate n B64.f1.

(** Seven rows whose defect rates are 0.999, 1.0, 2.999, 3.0, 4.999, 5.0
    and 5.001. *)
Definition boundary_frame : DataFrame :=
  sample_frame (replicate 7 "A") (replicate 7 "X") (replicate 7 "S") (replicate 7 "Road")
    (ones 7) (ones 7) (ones 7) (ones 7) (ones 7) (ones 7)
    [B64.dec 999 1000; B64.f1; B64.dec 2999 1000; B64.f3;
     B64.dec 4999 1000; B64.f5; B64.dec 5001 1000]
    (ones 7) (ones 7).

(** Two rows: revenue 100 at manufacturing cost 0 and 3 units sold out of
    an empty stock; then a row of zeros. *)
Definition zero_cost_frame : DataFrame :=
  sample_frame ["A"; "B"] ["X"; "Y"] ["S"; "T"] ["Road"; "Air"]
    [B64.f100; B64.zero] [B64.zero; B64.zero] [B64.f3; B64.zero] (ones 2)
    [B64.zero; B64.zero] (ones 2) (ones 2) (ones 2) (ones 2).

(** Two rows without any defect: revenues 100 and 5, lead times 1 and 3,
    all costs and stocks 1. *)
Definition flawless_frame : DataFrame :=
  sample_frame ["A"; "B"] ["X"; "Y"] ["S"; "T"] ["Road"; "Air"]
    [B64.f100; B64.f5] (ones 2) (ones 2) (ones 2) (ones 2)
    [B64.f1; B64.f3] [B64.zero; B64.zero] (ones 2) (ones 2).

(** The exception a run ended with, if any. *)
Definition result_exn {A} (r : result A * World) : option exn :=
  match r with
  | (Raise e, _) => Some e
  | (Ok _, _) => None
  end.

(** A frame without its column [c]. *)
Definition drop_column (c : string) (d : DataFrame) : DataFrame :=
  {| index := index d;
     columns := filter (fun cs => fst cs <> c) (columns d) |}.

(** Three rows: locations X, Y, X and transport by Road, Air, Road;
    revenues 100, 5, 3 at manufacturing costs 100, 1, 3; shipping costs 1,
    3, 1; lead times 1, 3, 5; defect rates 1, 3 and 0. *)
Definition trade_frame : DataFrame :=
  sample_frame ["A"; "A"; "B"] ["X"; "Y"; "X"] ["S"; "T"; "S"] ["Road"; "Air"; "Road"]
    [B64.f100; B64.f5; B64.f3] [B64.f100; B64.f1; B64.f3] (ones 3)
    [B64.f1; B64.f3; B64.f1] (ones 3)
    [B64.f1; B64.f3; B64.f5] [B64.f1; B64.f3; B64.zero] (ones 3) (ones 3).

(** The session once the sidebar has run on [trade_frame] with its
    defaults: no selection, the full revenue and lead time ranges, all four
    risk levels. *)
Definition sidebar_session : SessionState :=
  {| selected_product_type := "All";
     selected_location := "All";
     revenue_range := Some (B64.f3, B64.f100);
     lead_time_max := Some 5%Z;
     risk_levels := Some ["Low"; "Medium"; "High"; "Critical"] |}.

Definition trade_world : World :=
  {| heap := [trade_frame]; random := counting; session_state := sidebar_session;
     engine := idle |}.

(** The value a run returned. *)
Definition result_value {A} (r : result A * World) : option A :=
  match r with
  | (Ok a, _) => Some a
  | (Raise _, _) => None
  end.

(** The column an aggregate reads holds numbers. *)
Definition aggregate_ready (d : DataFrame) (a : duckdb.aggregate) : Prop :=
  match a with
  | duckdb.SUM c | duckdb.AVG c => has_numeric d c
  | duckdb.COUNT_STAR => True
  end.

(** The frame has what query [q] reads: a text column to group by and
    numbers to aggregate. *)
Definition query_ready (d : DataFrame) (q : duckdb.Query) : Prop :=
  (exists keys, pd.column (duckdb.group_by q) d = Some (Object keys)) /\
  Forall (aggregate_ready d) (map fst (duckdb.select q)).

(** Every row stands before all the rows after it, in direction [dir] of
    the [i]-th reduction. *)
Definition ordered (dir : duckdb.direction) (i : nat) (rows : list duckdb.AggregateRow) : Prop :=
  StronglySorted (duckdb.precedes dir i) rows.

(** The world after one more grouped query: the engine has moved on,
    nothing else has changed. *)
Definition queried (w : World) : World := set_engine (duckdb.advance (engine w)) w.

(** ** Agreement up to the simulated trends *)

Definition trend_columns : list string := ["Trend_Direction"; "Trend_Strength"].

(** Two frames with the same rows that differ at most in their trend
    columns. *)
Definition frame_agree (d1 d2 : DataFrame) : Prop :=
  index d1 = index d2 /\
  forall c, ~ In c trend_columns -> pd.column c d1 = pd.column c d2.

(** Two worlds whose objects agree pairwise and whose sessions are equal;
    the generators are unrelated. *)
Definition world_agree (w1 w2 : World) : Prop :=
  Forall2 frame_agree (heap w1) (heap w2) /\ session_state w1 = session_state w2.

(** Two computations that, from worlds that agree, both return, related
    values, or both raise, the same exception, and leave worlds that
    agree. *)
Definition agree {A} (R : A -> A -> Prop) (c1 c2 : M A) : Prop :=
  forall w1 w2, world_agree w1 w2 ->
    match c1 w1, c2 w2 with
    | (Ok a1, w1'), (Ok a2, w2') => R a1 a2 /\ world_agree w1' w2'
    | (Raise e1, w1'), (Raise e2, w2') => e1 = e2 /\ world_agree w1' w2'
    | _, _ => False
    end.

(** The columns a query reads. *)
Definition aggregate_column (a : duckdb.aggregate) : list string :=
  match a with
  | duckdb.SUM c | duckdb.AVG c => [c]
  | duckdb.COUNT_STAR => []
  end.

Definition trend_free (q : duckdb.Query) : Prop :=
  ~ In (duckdb.group_by q) trend_columns /\
  Forall (fun a => forall c, In c (aggregate_column a) -> ~ In c trend_columns)
         (map fst (duckdb.select q)).

(** The entries of the metrics that are computed from the data. *)
Definition computed (m : Interactive.Metrics)
  : spec_float * Z * spec_float * spec_float * spec_float * spec_float * spec_float :=
  (Interactive.total_revenue m, Interactive.total_orders m, Interactive.avg_lead_time m,
   Interactive.total_availability m, Interactive.avg_profit_margin m,
   Interactive.efficiency_score m, Interactive.performance_score m).

(** Enrichment followed by the aggregations of the analyzer built on the
    enriched frame: its metrics and its four grouped summaries. *)
Definition enrich_then_aggregate (raw : loc)
  : M (Interactive.Metrics * Interactive.Analytics) :=
  processed_data <- Interactive.calculate_advanced_metrics raw ;;
  let analyzer := {| Interactive.df := processed_data |} in
  metrics <- Interactive.get_performance_metrics analyzer ;;
  analytics <- Interactive.get_advanced_analytics analyzer ;;
  ret (metrics, analytics).

(** No two rows tie on the [i]-th reduction. *)
Definition tie_free (dir : duckdb.direction) (i : nat) (rows : list duckdb.AggregateRow)
  : Prop :=
  forall r r', r ∈ rows -> r' ∈ rows ->
    duckdb.precedes dir i r r' -> duckdb.precedes dir i r' r -> r = r'.

(** Two results of one query: the frames of two tables with the same
    rows, each in the order of the query; one and the same frame when no
    two rows tie. *)
Definition same_summary (dir : duckdb.direction) (i : nat)
    (r1 r2 : list duckdb.AggregateRow) : Prop :=
  exists t1 t2,
    r1 = duckdb.df t1 /\ r2 = duckdb.df t2 /\
    t1 ≡ₚ t2 /\ ordered dir i t1 /\ ordered dir i t2 /\
    (tie_free dir i t1 -> r1 = r2).

(** Two tables of one query: the same rows, both in its order. *)
Definition same_table (q : duckdb.Query) (t1 t2 : list duckdb.AggregateRow) : Prop :=
  t1 ≡ₚ t2 /\
  forall i, duckdb.alias_index (fst (duckdb.order_by q)) (duckdb.select q) = Some i ->
    ordered (snd (duckdb.order_by q)) i t1 /\ ordered (snd (duckdb.order_by q)) i t2.

Definition same_analytics (a1 a2 : Interactive.Analytics) : Prop :=
  same_summary duckdb.DESC 0
    (Interactive.product_performance a1) (Interactive.product_performance a2) /\
  same_summary duckdb.DESC 2
    (Interactive.location_efficiency a1) (Interactive.location_efficiency a2) /\
  same_summary duckdb.DESC 0
    (Interactive.supplier_risk a1) (Interactive.supplier_risk a2) /\
  same_summary duckdb.ASC 0
    (Interactive.transportation_analysis a1) (Interactive.transportation_analysis a2).

(** The outputs of two runs of the pipeline are the same but for the
    simulated trends and the order of tied groups. *)
Definition same_but_trends_and_ties
    (o1 o2 : Interactive.Metrics * Interactive.Analytics) : Prop :=
  computed o1.1 = computed o2.1 /\ same_analytics o1.2 o2.2.

(** A generator whose [k]-th outcome is [k / 2]. *)
Definition halving : RandomState := {| draw := fun k => Z.of_nat (k / 2); consumed := 0 |}.

(** ** Rescaling a column *)

(** The frame [d] with [f] applied to every number of its column [c]. *)
Definition rescale (f : spec_float -> spec_float) (c : string) (d : DataFrame) : DataFrame :=
  pd.with_column c (Float64 (map f (numbers c d))) d.

(** The columns the performance score is relative to. *)
Definition score_inputs : list string := ["Revenue generated"; "Lead times"; "Defect rates"].

(** [x * c] is computed without rounding: both are valid data and, for a
    finite non-zero [x], the product is finite and its value is the
    product of the two values. *)
Definition exact_product (c x : spec_float) : Prop :=
  B64.valid x = true /\ B64.valid (B64.mul x c) = true /\
  match x with
  | S754_finite _ _ _ =>
      match B64.mul x c with
      | S754_finite _ _ _ =>
          (B64.units (B64.mul x c) * 2 ^ 1074 = B64.units x * B64.units c)%Z
      | _ => False
      end
  | _ => True
  end.

(** The double [2^k], for [k] in the range of normal numbers. *)
Definition pow2 (k : Z) : spec_float := S754_finite false 4503599627370496 (k - 52).

(** [x] times [2^k] is exact with nothing to round: [x] is a zero, an
    infinity, a NaN, or a normal number (53 significant bits) whose exponent
    stays in the range of normal numbers when [k] is added. *)
Definition scales_exactly (k : Z) (x : spec_float) : Prop :=
  match x with
  | S754_finite _ m e =>
      Z.pos (SpecFloat.digits2_pos m) = 53%Z /\
      (-1074 <= e <= 971)%Z /\ (-1074 <= e + k <= 971)%Z
  | _ => True
  end.

(** Two rows with revenues 3 and 5, everything else 1. *)
Definition small_frame : DataFrame :=
  sample_frame ["A"; "B"] ["X"; "Y"] ["S"; "T"] ["Road"; "Air"]
    [B64.f3; B64.f5] (ones 2) (ones 2) (ones 2) (ones 2) (ones 2) (ones 2) (ones 2) (ones 2).

(** Two rows with revenues [2^1023] and 1, everything else 1. *)
Definition steep_frame : DataFrame :=
  sample_frame ["A"; "B"] ["X"; "Y"] ["S"; "T"] ["Road"; "Air"]
    [pow2 1023; B64.f1] (ones 2) (ones 2) (ones 2) (ones 2) (ones 2) (ones 2) (ones 2) (ones 2).

(** Selecting with [m2] among the rows selected by [m1] is selecting with
    one mask over the original rows. *)
Fixpoint mask_compose (m1 m2 : list bool) : list bool :=
  match m1 with
  | [] => []
  | true :: m1' =>
      match m2 with
      | b :: m2' => b :: mask_compose m1' m2'
      | [] => false :: mask_compose m1' []
      end
  | false :: m1' => false :: mask_compose m1' m2
  end.

(** What [apply_filters] needs of a frame: the five columns it tests, of
    the right kind, and the risk labels being the buckets of the defect
    rates of their rows. *)
Definition filterable (d : DataFrame) : Prop :=
  pd.wf d /\
  (exists s, pd.column "Product type" d = Some s) /\
  (exists s, pd.column "Location" d = Some s) /\
  has_numeric d "Revenue generated" /\
  has_numeric d "Lead times" /\
  has_numeric d "Defect rates" /\
  exists levels, pd.column "Risk_Level" d = Some (Categorical levels) /\
                 levels = map risk_level (numbers "Defect rates" d).

(** In world [w], [l] holds a selection of the rows of [d1], and the
    session is [st]. *)
Definition selected (d1 : DataFrame) (st : SessionState) (w : World) (l : loc) : Prop :=
  session_state w = st /\
  exists mask, length mask = pd.len d1 /\ heap w !! l = Some (pd.take mask d1).

(** What a run of [apply_filters] on a frame [d1] comes to: a new frame
    with some of the rows of [d1]; if the risk filter is active, none of
    them has a defect rate of 0. *)
Definition filters_post (d1 : DataFrame) (st : SessionState)
    (r : result loc * World) : Prop :=
  exists l' w' mask,
    r = (Ok l', w') /\
    length mask = pd.len d1 /\
    heap w' !! l' = Some (pd.take mask d1) /\
    (forall level levels, risk_levels st = Some (level :: levels) ->
       forall x, In x (numbers "Defect rates" (pd.take mask d1)) ->
                 B64.eqb x B64.zero = false).

(** ** What a call leaves alone *)

(** Every object of [w] is in [w'] what it was, and so is the session. *)
Definition untouched (w w' : World) : Prop :=
  session_state w' = session_state w /\
  forall l d, heap w !! l = Some d -> heap w' !! l = Some d.

(** A computation that leaves the first [n] objects of the heap and the
    session alone, whether it returns or raises, and whose value, when it
    returns one, satisfies [Q]. *)
Definition keeps {A} (n : nat) (Q : A -> Prop) (c : M A) : Prop :=
  forall w, n <= length (heap w) ->
    session_state (c w).2 = session_state w /\
    n <= length (heap (c w).2) /\
    (forall l, l < n -> heap (c w).2 !! l = heap w !! l) /\
    (forall a, (c w).1 = Ok a -> Q a).

(** ** The two columns both enrichment functions compute alike *)

Definition profit_margin (d : DataFrame) : Series :=
  match pd.column "Revenue generated" d, pd.column "Manufacturing costs" d with
  | Some a, Some b => match pd.sub a b with Ok r => r | Raise _ => Float64 [] end
  | _, _ => Float64 []
  end.

Definition total_shipping_cost (d : DataFrame) : Series :=
  match pd.column "Number of products sold" d, pd.column "Shipping costs" d with
  | Some a, Some b => match pd.mul a b with Ok r => r | Raise _ => Float64 [] end
  | _, _ => Float64 []
  end.

(** ** The copy when a column is missing *)

(** The copy as [calculate_derived_metrics] leaves it when its read of
    column [c] fails: the derived columns assigned before that read. *)
Definition derived_partial (c : string) (d : DataFrame) : DataFrame :=
  if decide (c ∈ ["Revenue generated"; "Manufacturing costs"]) then d
  else if decide (c ∈ ["Number of products sold"; "Shipping costs"])
  then pd.with_column "Profit_Margin" (profit_margin d) d
  else
    pd.with_column "Efficiency_Ratio"
      (Float64 (zip_with B64.div (numbers "Revenue generated" d)
                  (numbers "Manufacturing costs" d)))
    (pd.with_column "Total_Shipping_Cost" (total_shipping_cost d)
    (pd.with_column "Profit_Margin" (profit_margin d) d)).

(** The same for [calculate_advanced_metrics]. *)
Definition advanced_partial (c : string) (d : DataFrame) : DataFrame :=
  if decide (c ∈ ["Revenue generated"; "Manufacturing costs"]) then d
  else if decide (c ∈ ["Number of products sold"; "Shipping costs"])
  then pd.with_column "Profit_Margin" (profit_margin d) d
  else
    let costed :=
      pd.with_column "Efficiency_Ratio"
        (Float64 (guarded_ratio (numbers "Revenue generated" d)
                    (numbers "Manufacturing costs" d)))
      (pd.with_column "Total_Shipping_Cost" (total_shipping_cost d)
      (pd.with_column "Profit_Margin" (profit_margin d) d)) in
    if decide (c = "Stock levels") then costed
    else
      pd.with_column "Inventory_Turnover"
        (Float64 (guarded_ratio (numbers "Number of products sold" d)
                    (numbers "Stock levels" d)))
        costed.


(** ** Summaries without a stated order *)




(** ** The tests of the filters, row by row *)

(** The mask that keeps every row. *)
Definition all_rows (d : DataFrame) : list bool := replicate (pd.len d) true.

(** [d[c] == k], every row if there is no column [c]. *)
Definition text_mask (c k : string) (d : DataFrame) : list bool :=
  match pd.column c d with
  | Some s => pd.eq_str s k
  | None => all_rows d
  end.

(** The test of a selection: none when the selection is "All". *)
Definition selection_mask (c k : string) (d : DataFrame) : list bool :=
  if decide (k = "All") then all_rows d else text_mask c k d.

Definition revenue_mask (st : SessionState) (d : DataFrame) : list bool :=
  match revenue_range st with
  | Some (min_rev, max_rev) =>
      pd.mask_and (map (fun v => B64.geb v min_rev) (numbers "Revenue generated" d))
                  (map (fun v => B64.leb v max_rev) (numbers "Revenue generated" d))
  | None => all_rows d
  end.

Definition lead_time_mask (st : SessionState) (d : DataFrame) : list bool :=
  match lead_time_max st with
  | Some k => map (fun v => B64.leb v (B64.of_int k)) (numbers "Lead times" d)
  | None => all_rows d
  end.

Definition risk_mask (st : SessionState) (d : DataFrame) : list bool :=
  match risk_levels st with
  | Some (level :: levels) =>
      match pd.column "Risk_Level" d with
      | Some s => pd.isin s (level :: levels)
      | None => all_rows d
      end
  | Some [] | None => all_rows d
  end.

(** The five tests of [apply_filters], in its order, each on the rows of
    [d] itself. *)
Definition filter_masks (st : SessionState) (d : DataFrame) : list (list bool) :=
  [ selection_mask "Product type" (selected_product_type st) d;
    selection_mask "Location" (selected_location st) d;
    revenue_mask st d;
    lead_time_mask st d;
    risk_mask st d ].

(** The rows that pass all of them. *)
Definition filter_mask (st : SessionState) (d : DataFrame) : list bool :=
  fold_left pd.mask_and (filter_masks st d) (all_rows d).

(** The frame has the columns the active filters of session [st] test. *)
Definition filters_ready (st : SessionState) (d : DataFrame) : Prop :=
  pd.wf d /\
  (selected_product_type st <> "All" -> exists s, pd.column "Product type" d = Some s) /\
  (selected_location st <> "All" -> exists s, pd.column "Location" d = Some s) /\
  (revenue_range st <> None -> has_numeric d "Revenue generated") /\
  (lead_time_max st <> None -> has_numeric d "Lead times") /\
  (forall level levels, risk_levels st = Some (level :: levels) ->
     exists s, pd.column "Risk_Level" d = Some s).

(** In world [w], [l] holds the rows of [d] that [mask] keeps. *)
Definition holds_rows (d : DataFrame) (mask : list bool) (w : World) (l : loc) : Prop :=
  heap w !! l = Some (pd.take mask d) /\ length mask = pd.len d.

(** A session with the two selections only, as before the sidebar has
    run. *)
Definition selections (product_type location : string) : SessionState :=
  {| selected_product_type := product_type;
     selected_location := location;
     revenue_range := None;
     lead_time_max := None;
     risk_levels := None |}.

(** A session that selects product type A, revenues from 5 to 100 and lead
    times up to 1 day, and the world holding [trade_frame] under it. *)
Definition narrow_session : SessionState :=
  {| selected_product_type := "A";
     selected_location := "All";
     revenue_range := Some (B64.f5, B64.f100);
     lead_time_max := Some 1%Z;
     risk_levels := None |}.

Definition narrow_world : World :=
  {| heap := [trade_frame]; random := counting; session_state := narrow_session;
     engine := idle |}.

(** ** Frames the second dashboard can work on *)

Definition text_columns : list string :=
  ["Product type"; "Location"; "Supplier name"; "Transportation modes"].

(** The columns of the data file the second dashboard reads: four text
    columns to group by, numbers to compute with, whole numbers of
    orders. *)
Definition data_file_frame (d : DataFrame) : Prop :=
  pd.wf d /\
  Forall (fun c => exists keys, pd.column c d = Some (Object keys)) text_columns /\
  Forall (has_numeric d) (advanced_inputs ++ ["Availability"]) /\
  exists v, pd.column "Order quantities" d = Some (Int64 v).

(** The numeric columns the analyzer reads, the order quantities apart. *)
Definition analyzed_columns : list string :=
  ["Revenue generated"; "Lead times"; "Availability"; "Profit_Margin"; "Efficiency_Ratio";
   "Performance_Score"; "Defect rates"; "Manufacturing costs"; "Shipping costs"].

(** What the filters and the analyzer need of an enriched frame. *)
Definition analyzable (d : DataFrame) : Prop :=
  pd.wf d /\
  Forall (fun c => exists keys, pd.column c d = Some (Object keys)) text_columns /\
  Forall (has_numeric d) analyzed_columns /\
  (exists v, pd.column "Order quantities" d = Some (Int64 v)) /\
  exists s, pd.column "Risk_Level" d = Some s.

(** [trade_frame] with whole order quantities 1, 2 and 3. *)
Definition trade_orders_frame : DataFrame :=
  pd.with_column "Order quantities" (Int64 [1; 2; 3]%Z) trade_frame.

(** The same, enriched. *)
Definition trade_orders_enriched : DataFrame :=
  advanced_frame trade_orders_frame (profit_margin trade_orders_frame)
    (total_shipping_cost trade_orders_frame) counting.

(** ** Risk levels in order *)

Definition severity (level : option string) : nat :=
  match level with
  | None => 0
  | Some s =>
      if decide (s = "Low") then 1
      else if decide (s = "Medium") then 2
      else if decide (s = "High") then 3
      else 4
  end.

(** ** Groups *)

(** The number of rows whose key is [k]. *)
Definition occurrences (k : string) (keys : list string) : nat :=
  length (filter (fun s => s = k) keys).

(** The grouped queries that count their rows, with the position of
    COUNT( * ) among their reductions. *)
Definition counting_queries : list (duckdb.Query * nat) :=
  [ (Enhanced.revenue_by_product_type_query, 1);
    (Enhanced.supplier_analysis_query, 2);
    (Interactive.product_performance_query, 2);
    (Interactive.supplier_risk_query, 2);
    (Interactive.transportation_analysis_query, 3) ].

(** The count a result row holds at position [j]. *)
Definition count_at (j : nat) (r : duckdb.AggregateRow) : nat :=
  match duckdb.cells r !! j with
  | Some (duckdb.BIGINT n) => Z.to_nat n
  | _ => 0
  end.

(** ** Metrics *)

(** The columns [get_performance_metrics] reads that come with the data,
    and those the enrichment adds. *)
Definition metrics_inputs : list string :=
  ["Revenue generated"; "Order quantities"; "Lead times"; "Availability"].

Definition metrics_derived : list string :=
  ["Profit_Margin"; "Efficiency_Ratio"; "Performance_Score"].

(** A frame with columns but no row. *)
Definition no_rows (d : DataFrame) : Prop := pd.wf d /\ pd.len d = 0.

(** The sample frame without any row. *)
Definition empty_frame : DataFrame :=
  sample_frame [] [] [] [] [] [] [] [] [] [] [] [] [].

(** The same, enriched. *)
Definition empty_enriched : DataFrame :=
  advanced_frame empty_frame (Float64 []) (Float64 []) counting.

(* ===================================================================== *)
(** * Running the monad                                                    *)
(* ===================================================================== *)

Section Running.

Context {A B : Type}.

Lemma bind_ok (c : M A) (k : A -> M B) w a w' :
  c w = (Ok a, w') -> bind c k w = k a w'.
Proof. intros H. unfold bind. now rewrite H. Qed.

Lemma bind_raise (c : M A) (k : A -> M B) w e w' :
  c w = (Raise e, w') -> bind c k w = (Raise e, w').
Proof. intros H. unfold bind. now rewrite H. Qed.

Lemma bind_lift_ok (r : result A) (k : A -> M B) w a :
  r = Ok a -> bind (lift r) k w = k a w.
Proof. intros ->. reflexivity. Qed.

Lemma bind_lift_raise (r : result A) (k : A -> M B) w e :
  r = Raise e -> bind (lift r) k w = (Raise e, w).
Proof. intros ->. reflexivity. Qed.

End Running.

Lemma deref_ok l w d : heap w !! l = Some d -> deref l w = (Ok d, w).
Proof. intros H. unfold deref, bind, get_heap. now rewrite H. Qed.

Lemma copy_ok l w d :
  heap w !! l = Some d ->
  pd.copy l w = (Ok (length (heap w)), set_heap (heap w ++ [d]) w).
Proof. intros H. unfold pd.copy. erewrite bind_ok by (apply deref_ok; eassumption). reflexivity. Qed.

(** Reading and writing the newest object of the heap. *)
Lemma lookup_top (h : list DataFrame) d : (h ++ [d]) !! length h = Some d.
Proof. rewrite lookup_app_r by lia. now rewrite Nat.sub_diag. Qed.

Lemma insert_top (h : list DataFrame) d d' : <[length h := d']> (h ++ [d]) = h ++ [d'].
Proof. rewrite insert_app_r_alt by lia. now rewrite Nat.sub_diag. Qed.

Lemma getitem_top h d w c s :
  heap w = h ++ [d] -> pd.column c d = Some s ->
  pd.getitem (length h) c w = (Ok s, w).
Proof.
  intros Hh Hc. unfold pd.getitem.
  erewrite bind_ok by (apply deref_ok; rewrite Hh; apply lookup_top).
  now rewrite Hc.
Qed.

Lemma getitem_top_missing h d w c :
  heap w = h ++ [d] -> pd.column c d = None ->
  pd.getitem (length h) c w = (Raise (KeyError c), w).
Proof.
  intros Hh Hc. unfold pd.getitem.
  erewrite bind_ok by (apply deref_ok; rewrite Hh; apply lookup_top).
  now rewrite Hc.
Qed.

Lemma setitem_top h d w c s :
  heap w = h ++ [d] -> pd.Series_len s = pd.len d ->
  pd.setitem (length h) c s w = (Ok tt, set_heap (h ++ [pd.with_column c s d]) w).
Proof.
  intros Hh Hs. unfold pd.setitem.
  erewrite bind_ok by (apply deref_ok; rewrite Hh; apply lookup_top).
  rewrite decide_True by done.
  unfold store, bind, get_heap, put_heap. rewrite Hh, insert_top. reflexivity.
Qed.

(* ===================================================================== *)
(** * Columns of a frame                                                   *)
(* ===================================================================== *)

Lemma assoc_assign_eq c s cols : pd.assoc c (pd.assign c s cols) = Some s.
Proof.
  induction cols as [|[c' s'] cols IH]; simpl.
  - now rewrite decide_True.
  - destruct (decide (c = c')) as [->|Hne]; simpl.
    + now rewrite decide_True.
    + now rewrite decide_False.
Qed.

Lemma assoc_assign_ne c c' s cols :
  c <> c' -> pd.assoc c (pd.assign c' s cols) = pd.assoc c cols.
Proof.
  intros Hne. induction cols as [|[c0 s0] cols IH]; simpl.
  - now rewrite decide_False.
  - destruct (decide (c' = c0)) as [->|Hne']; simpl.
    + now rewrite !decide_False.
    + destruct (decide (c = c0)); auto.
Qed.

Lemma column_with_column_eq c s d : pd.column c (pd.with_column c s d) = Some s.
Proof. apply assoc_assign_eq. Qed.

Lemma column_with_column_ne c c' s d :
  c <> c' -> pd.column c (pd.with_column c' s d) = pd.column c d.
Proof. apply assoc_assign_ne. Qed.

Lemma wf_with_column c s d :
  pd.wf d -> pd.Series_len s = pd.len d -> pd.wf (pd.with_column c s d).
Proof.
  unfold pd.wf, pd.with_column, pd.len. simpl. intros Hwf Hs.
  induction (columns d) as [|[c' s'] cols IH]; simpl.
  - repeat constructor. exact Hs.
  - inversion Hwf as [|? ? Hhd Htl]; subst.
    destruct (decide (c = c')); constructor; auto.
Qed.

Lemma wf_column c s d : pd.wf d -> pd.column c d = Some s -> pd.Series_len s = pd.len d.
Proof.
  unfold pd.wf, pd.column. intros Hwf.
  induction Hwf as [|[c' s'] cols Hhd _ IH]; simpl; [discriminate|].
  destruct (decide (c = c')); [intros [= <-]; exact Hhd | exact IH].
Qed.

Lemma to_float64_length s v : pd.to_float64 s = Ok v -> length v = pd.Series_len s.
Proof. destruct s; simpl; intros [= <-]; auto using length_map. Qed.

Lemma numeric_to_float64 s : numeric s -> exists v, pd.to_float64 s = Ok v.
Proof. destruct s; simpl; intros []; eauto. Qed.

Lemma to_float64_numeric s v : pd.to_float64 s = Ok v -> numeric s.
Proof. destruct s; simpl; intros [=]; exact I. Qed.

Lemma numbers_spec c d s :
  pd.column c d = Some s -> numeric s -> pd.to_float64 s = Ok (numbers c d).
Proof.
  intros Hc Hn. unfold numbers. rewrite Hc.
  destruct (numeric_to_float64 s Hn) as [v ->]. reflexivity.
Qed.

Lemma numbers_length c d :
  pd.wf d -> has_numeric d c -> length (numbers c d) = pd.len d.
Proof.
  intros Hwf (s & Hc & Hn).
  rewrite (to_float64_length s) by (eapply numbers_spec; eauto).
  eapply wf_column; eauto.
Qed.

(** Operators on numeric columns never raise. *)
Lemma float_op_ok f a b x y :
  pd.to_float64 a = Ok x -> pd.to_float64 b = Ok y ->
  pd.float_op f a b = Ok (Float64 (zip_with f x y)).
Proof. intros Ha Hb. unfold pd.float_op. now rewrite Ha, Hb. Qed.

Lemma sub_ok a b x y :
  pd.to_float64 a = Ok x -> pd.to_float64 b = Ok y ->
  exists r, pd.sub a b = Ok r /\ pd.Series_len r = min (length x) (length y).
Proof.
  intros Ha Hb.
  destruct a as [va|va|va|va], b as [vb|vb|vb|vb]; simpl in Ha, Hb; try discriminate;
    injection Ha as <-; injection Hb as <-; eexists; (split; [reflexivity|]);
    simpl; rewrite ?length_zip_with, ?length_map; reflexivity.
Qed.

Lemma mul_ok a b x y :
  pd.to_float64 a = Ok x -> pd.to_float64 b = Ok y ->
  exists r, pd.mul a b = Ok r /\ pd.Series_len r = min (length x) (length y).
Proof.
  intros Ha Hb.
  destruct a as [va|va|va|va], b as [vb|vb|vb|vb]; simpl in Ha, Hb; try discriminate;
    injection Ha as <-; injection Hb as <-; eexists; (split; [reflexivity|]);
    simpl; rewrite ?length_zip_with, ?length_map; reflexivity.
Qed.

Lemma truediv_ok a b x y :
  pd.to_float64 a = Ok x -> pd.to_float64 b = Ok y ->
  pd.truediv a b = Ok (Float64 (zip_with B64.div x y)).
Proof. apply float_op_ok. Qed.

Lemma gt_scalar_ok a x k :
  pd.to_float64 a = Ok x -> pd.gt_scalar a k = Ok (map (fun v => B64.gtb v k) x).
Proof. intros Ha. unfold pd.gt_scalar, pd.cmp_scalar. now rewrite Ha. Qed.

Lemma max_ok a x : pd.to_float64 a = Ok x -> pd.max a = Ok (pd.nanmax x).
Proof. intros Ha. unfold pd.max. now rewrite Ha. Qed.

Lemma truediv_scalar_ok a x k :
  pd.to_float64 a = Ok x ->
  pd.truediv_scalar a k = Ok (Float64 (map (fun v => B64.div v k) x)).
Proof. intros Ha. unfold pd.truediv_scalar, pd.scalar_op. now rewrite Ha. Qed.

Lemma cut_ok a x bins labels :
  pd.to_float64 a = Ok x ->
  pd.cut a bins labels = Ok (Categorical (map (pd.cut_value bins labels) x)).
Proof. intros Ha. unfold pd.cut. now rewrite Ha. Qed.

(* ===================================================================== *)
(** * The random generator                                                 *)
(* ===================================================================== *)

Lemma set_random_same w : set_random (random w) w = w.
Proof. now destruct w. Qed.

Lemma pick_lookup a r :
  a <> [] -> a !! Z.to_nat (r mod Z.of_nat (length a))%Z = Some (pick a r).
Proof.
  intros Ha. unfold pick.
  destruct (lookup_lt_is_Some_2 a (Z.to_nat (r mod Z.of_nat (length a))%Z)) as [s Hs].
  - destruct a; [congruence|]. simpl length.
    pose proof (Z.mod_pos_bound r (Z.of_nat (S (length a)))). lia.
  - now rewrite Hs.
Qed.

Lemma random_choice1_run a w :
  a <> [] ->
  np.random_choice1 a w
  = (Ok (pick a (draw (random w) (consumed (random w)))), set_random (next (random w)) w).
Proof.
  intros Ha. unfold np.random_choice1, np.next_raw, bind, get_random, put_random. simpl.
  now rewrite pick_lookup.
Qed.

Lemma random_choice_run a n :
  a <> [] -> forall w,
  np.random_choice a n w
  = (Ok (choices a (random w) n), set_random (Nat.iter n next (random w)) w).
Proof.
  intros Ha. induction n as [|n IH]; intros w; simpl.
  - unfold ret. now rewrite set_random_same.
  - erewrite bind_ok by (now apply random_choice1_run).
    erewrite bind_ok by apply IH.
    unfold ret. simpl. rewrite <- Nat.iter_succ, Nat.iter_succ_r. reflexivity.
Qed.

Lemma random_uniform_run low high n : forall w,
  np.random_uniform low high n w
  = (Ok (uniforms low high (random w) n), set_random (Nat.iter n next (random w)) w).
Proof.
  induction n as [|n IH]; intros w; simpl.
  - unfold ret. now rewrite set_random_same.
  - unfold np.random_double.
    unfold bind at 1. unfold bind at 1. unfold np.next_raw, bind, get_random, put_random, ret.
    simpl. rewrite IH. simpl.
    rewrite <- Nat.iter_succ, Nat.iter_succ_r. reflexivity.
Qed.

Lemma choices_length a g n : length (choices a g n) = n.
Proof. revert g. induction n; intros g; simpl; auto. Qed.

Lemma uniforms_length low high g n : length (uniforms low high g n) = n.
Proof. revert g. induction n; intros g; simpl; auto. Qed.

(* ===================================================================== *)
(** * Symbolic runs of the two enrichment functions                        *)
(* ===================================================================== *)

Lemma input_column d inputs c :
  Forall (has_numeric d) inputs -> In c inputs -> has_numeric d c.
Proof. rewrite Forall_forall. intros H Hc. apply H. now apply list_elem_of_In. Qed.

(** Everything known about a numeric input column. *)
Lemma input_facts d c :
  pd.wf d -> has_numeric d c ->
  exists s, pd.column c d = Some s
            /\ pd.to_float64 s = Ok (numbers c d)
            /\ length (numbers c d) = pd.len d.
Proof.
  intros Hwf Hc. pose proof (numbers_length c d Hwf Hc) as Hlen.
  destruct Hc as (s & Hc & Hn). exists s. eauto using numbers_spec.
Qed.

Ltac solve_column :=
  repeat (rewrite column_with_column_ne by (intros [=]));
  first [ eassumption | apply column_with_column_eq ].

Lemma len_with_column c s d : pd.len (pd.with_column c s d) = pd.len d.
Proof. reflexivity. Qed.

Ltac solve_length :=
  rewrite ?len_with_column; cbn [pd.Series_len];
  unfold guarded_ratio, performance_scores, revenue_term, penalty_term, share_of_max;
  rewrite ?length_map, ?length_zip_with, ?length_map, ?choices_length, ?uniforms_length;
  unfold pd.len in *; lia.

Ltac step_get :=
  erewrite bind_ok by (eapply getitem_top; [reflexivity | solve_column]).
Ltac step_set :=
  erewrite bind_ok by (eapply setitem_top; [reflexivity | solve_length]).
Ltac step_lift lem :=
  erewrite bind_lift_ok by (eapply lem; eassumption).

Section DerivedRun.

Variables (w : World) (l : loc) (d : DataFrame).
Hypothesis Hl : heap w !! l = Some d.
Hypothesis Hwf : pd.wf d.
Hypothesis Hin : Forall (has_numeric d) derived_inputs.

Lemma derived_run :
  exists pm tsc,
    pd.Series_len pm = pd.len d /\ pd.Series_len tsc = pd.len d /\
    Enhanced.calculate_derived_metrics l w
    = (Ok (length (heap w)), set_heap (heap w ++ [derived_frame d pm tsc]) w).
Proof.
  destruct (input_facts d "Revenue generated" Hwf) as (srev & Hrev & Frev & Lrev);
    [eapply input_column; [exact Hin | simpl; tauto]|].
  destruct (input_facts d "Manufacturing costs" Hwf) as (smc & Hmc & Fmc & Lmc);
    [eapply input_column; [exact Hin | simpl; tauto]|].
  destruct (input_facts d "Number of products sold" Hwf) as (snps & Hnps & Fnps & Lnps);
    [eapply input_column; [exact Hin | simpl; tauto]|].
  destruct (input_facts d "Shipping costs" Hwf) as (ssc & Hsc & Fsc & Lsc);
    [eapply input_column; [exact Hin | simpl; tauto]|].
  destruct (input_facts d "Stock levels" Hwf) as (ssl & Hsl & Fsl & Lsl);
    [eapply input_column; [exact Hin | simpl; tauto]|].
  destruct (sub_ok _ _ _ _ Frev Fmc) as (pm & Hpm & Lpm).
  destruct (mul_ok _ _ _ _ Fnps Fsc) as (tsc & Htsc & Ltsc).
  exists pm, tsc. split; [lia|]. split; [lia|].
  unfold Enhanced.calculate_derived_metrics.
  erewrite bind_ok by (apply copy_ok; exact Hl).
  step_get. step_get. erewrite bind_lift_ok by exact Hpm. step_set.
  step_get. step_get. erewrite bind_lift_ok by exact Htsc. step_set.
  step_get. step_get. step_lift truediv_ok. step_set.
  step_get. step_get. step_lift truediv_ok. step_set.
  reflexivity.
Qed.

End DerivedRun.

Section AdvancedRun.

Variables (w : World) (l : loc) (d : DataFrame).
Hypothesis Hl : heap w !! l = Some d.
Hypothesis Hwf : pd.wf d.
Hypothesis Hin : Forall (has_numeric d) advanced_inputs.

Lemma advanced_run :
  exists pm tsc,
    pd.Series_len pm = pd.len d /\ pd.Series_len tsc = pd.len d /\
    Interactive.calculate_advanced_metrics l w
    = (Ok (length (heap w)),
       set_random (Nat.iter (pd.len d) next (Nat.iter (pd.len d) next (random w)))
         (set_heap (heap w ++ [advanced_frame d pm tsc (random w)]) w)).
Proof.
  destruct (input_facts d "Revenue generated" Hwf) as (srev & Hrev & Frev & Lrev);
    [eapply input_column; [exact Hin | simpl; tauto]|].
  destruct (input_facts d "Manufacturing costs" Hwf) as (smc & Hmc & Fmc & Lmc);
    [eapply input_column; [exact Hin | simpl; tauto]|].
  destruct (input_facts d "Number of products sold" Hwf) as (snps & Hnps & Fnps & Lnps);
    [eapply input_column; [exact Hin | simpl; tauto]|].
  destruct (input_facts d "Shipping costs" Hwf) as (ssc & Hsc & Fsc & Lsc);
    [eapply input_column; [exact Hin | simpl; tauto]|].
  destruct (input_facts d "Stock levels" Hwf) as (ssl & Hsl & Fsl & Lsl);
    [eapply input_column; [exact Hin | simpl; tauto]|].
  destruct (input_facts d "Lead times" Hwf) as (slt & Hlt & Flt & Llt);
    [eapply input_column; [exact Hin | simpl; tauto]|].
  destruct (input_facts d "Defect rates" Hwf) as (sdr & Hdr & Fdr & Ldr);
    [eapply input_column; [exact Hin | simpl; tauto]|].
  destruct (sub_ok _ _ _ _ Frev Fmc) as (pm & Hpm & Lpm).
  destruct (mul_ok _ _ _ _ Fnps Fsc) as (tsc & Htsc & Ltsc).
  exists pm, tsc. split; [lia|]. split; [lia|].
  unfold Interactive.calculate_advanced_metrics.
  erewrite bind_ok by (apply copy_ok; exact Hl).
  (* Profit_Margin, Total_Shipping_Cost *)
  step_get. step_get. erewrite bind_lift_ok by exact Hpm. step_set.
  step_get. step_get. erewrite bind_lift_ok by exact Htsc. step_set.
  (* Efficiency_Ratio, Inventory_Turnover *)
  step_get. step_lift gt_scalar_ok. step_get. step_get. step_lift truediv_ok.
  erewrite bind_lift_ok by reflexivity. step_set.
  step_get. step_lift gt_scalar_ok. step_get. step_get. step_lift truediv_ok.
  erewrite bind_lift_ok by reflexivity. step_set.
  (* Performance_Score *)
  step_get. step_get. step_lift max_ok. step_lift truediv_scalar_ok.
  erewrite bind_lift_ok by reflexivity.
  step_get. step_get. step_lift max_ok. step_lift truediv_scalar_ok.
  erewrite bind_lift_ok by reflexivity. erewrite bind_lift_ok by reflexivity.
  erewrite bind_lift_ok by reflexivity.
  step_get. step_get. step_lift max_ok. step_lift truediv_scalar_ok.
  erewrite bind_lift_ok by reflexivity. erewrite bind_lift_ok by reflexivity.
  erewrite bind_lift_ok by reflexivity. erewrite bind_lift_ok by reflexivity.
  step_set.
  (* Risk_Level *)
  step_get. step_lift cut_ok. step_set.
  (* Trend_Direction, Trend_Strength *)
  erewrite bind_ok by (apply deref_ok; apply lookup_top).
  erewrite bind_ok by (apply random_choice_run; discriminate).
  step_set.
  erewrite bind_ok by (apply deref_ok; apply lookup_top).
  erewrite bind_ok by apply random_uniform_run.
  step_set.
  reflexivity.
Qed.

End AdvancedRun.

(* ===================================================================== *)
(** * The order of binary64 values                                         *)
(* ===================================================================== *)

(** The literals are the doubles nearest to the decimals of the source
    text, and well-formed binary64 data. *)
Lemma literals_correctly_rounded :
  B64.f0_4 = B64.dec 4 10 /\ B64.f0_3 = B64.dec 3 10 /\ B64.f0_1 = B64.dec 1 10 /\
  B64.f1 = B64.of_int 1 /\ B64.f3 = B64.of_int 3 /\ B64.f5 = B64.of_int 5 /\
  B64.f100 = B64.of_int 100 /\
  forallb B64.valid [B64.f0_4; B64.f0_3; B64.f0_1; B64.f1; B64.f3; B64.f5; B64.f100] = true.
Proof. repeat split; vm_compute; reflexivity. Qed.

(** [SFcompare] is the lexicographic comparison of the keys, as soon as no
    NaN is involved. *)
Lemma compare_key x y :
  B64.is_nan x = false -> B64.is_nan y = false ->
  SFcompare x y = Some (B64.lex_compare (B64.key x) (B64.key y)).
Proof.
  destruct x as [sx|sx| |sx mx ex], y as [sy|sy| |sy my ey]; try discriminate; intros _ _;
    try (destruct sx); try (destruct sy); try reflexivity;
    cbv [SFcompare B64.key B64.lex_compare]; rewrite Z.compare_refl.
  rewrite !Z.compare_opp, (Z.compare_antisym ex ey).
  destruct (ex ?= ey)%Z; try reflexivity. simpl.
  change (Z.pos my ?= Z.pos mx)%Z with (Pos.compare_cont Eq my mx).
  now rewrite Pos.compare_cont_antisym.
Qed.

Lemma lex_compare_lt a b : B64.lex_compare a b = Lt <-> B64.lt3 a b.
Proof.
  destruct a as [[a1 a2] a3], b as [[b1 b2] b3]. unfold B64.lt3, B64.lex_compare. simpl.
  destruct (Z.compare_spec a1 b1), (Z.compare_spec a2 b2), (Z.compare_spec a3 b3);
    split; intros; try discriminate; try reflexivity; lia.
Qed.

Lemma lex_compare_gt a b : B64.lex_compare a b = Gt <-> B64.lt3 b a.
Proof.
  destruct a as [[a1 a2] a3], b as [[b1 b2] b3]. unfold B64.lt3, B64.lex_compare. simpl.
  destruct (Z.compare_spec a1 b1), (Z.compare_spec a2 b2), (Z.compare_spec a3 b3);
    split; intros; try discriminate; try reflexivity; lia.
Qed.

Lemma ltb_true x y :
  B64.ltb x y = true <->
  B64.is_nan x = false /\ B64.is_nan y = false /\ B64.lt3 (B64.key x) (B64.key y).
Proof.
  unfold B64.ltb, SFltb. split.
  - intros H.
    assert (B64.is_nan x = false) as Hx by (destruct x; try reflexivity; discriminate).
    assert (B64.is_nan y = false) as Hy by (destruct x, y; try reflexivity; discriminate).
    rewrite (compare_key x y Hx Hy) in H. repeat split; auto.
    apply lex_compare_lt. destruct (B64.lex_compare _ _); congruence.
  - intros (Hx & Hy & H). rewrite (compare_key x y Hx Hy).
    apply lex_compare_lt in H. now rewrite H.
Qed.

Lemma leb_true x y :
  B64.leb x y = true <->
  B64.is_nan x = false /\ B64.is_nan y = false /\ ~ B64.lt3 (B64.key y) (B64.key x).
Proof.
  unfold B64.leb, SFleb. split.
  - intros H.
    assert (B64.is_nan x = false) as Hx by (destruct x; try reflexivity; discriminate).
    assert (B64.is_nan y = false) as Hy by (destruct x, y; try reflexivity; discriminate).
    rewrite (compare_key x y Hx Hy) in H. repeat split; auto.
    rewrite <- lex_compare_gt. destruct (B64.lex_compare _ _); congruence.
  - intros (Hx & Hy & H). rewrite (compare_key x y Hx Hy).
    rewrite <- lex_compare_gt in H. destruct (B64.lex_compare _ _); congruence.
Qed.

Lemma ltb_false x y :
  B64.ltb x y = false <->
  B64.is_nan x = true \/ B64.is_nan y = true \/ ~ B64.lt3 (B64.key x) (B64.key y).
Proof.
  destruct (B64.ltb x y) eqn:E.
  - apply ltb_true in E as (Hx & Hy & H). split; [discriminate|].
    intros [?|[?|?]]; congruence || tauto.
  - split; [intros _|reflexivity].
    destruct (B64.is_nan x) eqn:Hx; [tauto|].
    destruct (B64.is_nan y) eqn:Hy; [tauto|].
    right; right. intros H. assert (B64.ltb x y = true) by (apply ltb_true; auto). congruence.
Qed.

Lemma key_below_inf x : B64.is_nan x = false -> ~ B64.lt3 (B64.key B64.inf) (B64.key x).
Proof.
  destruct x as [s|s| |s m e]; try discriminate; intros _;
    try (destruct s); unfold B64.lt3; simpl; lia.
Qed.

(* ===================================================================== *)
(** * Risk buckets                                                         *)
(* ===================================================================== *)

(** Where a value lies among the five edges decides its label. *)
Lemma risk_level_edges x (b0 b1 b3 b5 : bool) :
  B64.is_nan x = false ->
  B64.ltb B64.zero x = b0 -> B64.ltb B64.f1 x = b1 ->
  B64.ltb B64.f3 x = b3 -> B64.ltb B64.f5 x = b5 ->
  risk_level x =
    if b0 then
      if b1 then
        if b3 then
          if b5 then Some "Critical" else Some "High"
        else Some "Medium"
      else Some "Low"
    else None.
Proof.
  intros Hn H0 H1 H3 H5.
  assert (B64.ltb B64.inf x = false) as Hinf.
  { apply ltb_false. right; right. now apply key_below_inf. }
  unfold risk_level, pd.cut_value, pd.searchsorted_left, Interactive.risk_bins.
  rewrite Hn. cbn [pd.edges_below]. rewrite H0, H1, H3, H5, Hinf.
  destruct b0, b1, b3, b5; reflexivity.
Qed.

Ltac key_facts :=
  repeat match goal with
         | H : B64.ltb _ _ = true |- _ => apply ltb_true in H as (? & ? & H)
         | H : B64.leb _ _ = true |- _ => apply leb_true in H as (? & ? & H)
         end.

Ltac key_goal x :=
  first [ apply ltb_true; split; [reflexivity|split; [assumption|]]
        | apply ltb_false; right; right ];
  unfold B64.lt3 in *; destruct (B64.key x) as [[? ?] ?]; simpl in *; lia.

Lemma risk_level_intervals x :
  (B64.ltb B64.zero x = true -> B64.leb x B64.f1 = true -> risk_level x = Some "Low") /\
  (B64.ltb B64.f1 x = true -> B64.leb x B64.f3 = true -> risk_level x = Some "Medium") /\
  (B64.ltb B64.f3 x = true -> B64.leb x B64.f5 = true -> risk_level x = Some "High") /\
  (B64.ltb B64.f5 x = true -> risk_level x = Some "Critical").
Proof.
  repeat split; intros; key_facts.
  - rewrite (risk_level_edges x true false false false); auto; key_goal x.
  - rewrite (risk_level_edges x true true false false); auto; key_goal x.
  - rewrite (risk_level_edges x true true true false); auto; key_goal x.
  - rewrite (risk_level_edges x true true true true); auto; key_goal x.
Qed.

Lemma risk_level_column d pm tsc g :
  pd.column "Risk_Level" (advanced_frame d pm tsc g)
  = Some (Categorical (map risk_level (numbers "Defect rates" d))).
Proof. unfold advanced_frame, scored_frame. solve_column. Qed.

(** C1 (as amended).  On every well-formed frame with numeric inputs,
    [calculate_advanced_metrics] returns a frame whose [Risk_Level] column
    labels each row by the left-open, right-closed bucket of its defect
    rate: (0,1] is Low, (1,3] is Medium, (3,5] is High, above 5 is
    Critical.  A boundary value belongs to the bucket it closes. *)
Theorem risk_level_right_closed_buckets w l d :
  heap w !! l = Some d -> pd.wf d -> Forall (has_numeric d) advanced_inputs ->
  exists l' w' d' levels,
    Interactive.calculate_advanced_metrics l w = (Ok l', w') /\
    heap w' !! l' = Some d' /\
    pd.column "Risk_Level" d' = Some (Categorical levels) /\
    length levels = pd.len d /\
    forall i x, numbers "Defect rates" d !! i = Some x ->
      (B64.ltb B64.zero x = true -> B64.leb x B64.f1 = true ->
         levels !! i = Some (Some "Low")) /\
      (B64.ltb B64.f1 x = true -> B64.leb x B64.f3 = true ->
         levels !! i = Some (Some "Medium")) /\
      (B64.ltb B64.f3 x = true -> B64.leb x B64.f5 = true ->
         levels !! i = Some (Some "High")) /\
      (B64.ltb B64.f5 x = true -> levels !! i = Some (Some "Critical")).
Proof.
  intros Hl Hwf Hin.
  destruct (advanced_run w l d Hl Hwf Hin) as (pm & tsc & _ & _ & Hrun).
  eexists _, _, _, _. split; [exact Hrun|].
  split; [apply lookup_top|]. split; [apply risk_level_column|]. split.
  - rewrite length_map. apply numbers_length; [exact Hwf|].
    eapply input_column; [exact Hin | simpl; tauto].
  - intros i x Hx. rewrite list_lookup_fmap, Hx. simpl.
    destruct (risk_level_intervals x) as (HL & HM & HH & HC).
    repeat split; intros; f_equal; auto.
Qed.

Ltac ready :=
  first [ reflexivity
        | repeat constructor; eexists; (split; [reflexivity | exact I]) ].

Lemma risk_level_right_closed_buckets_witness :
  exists l' w' d' levels,
    Interactive.calculate_advanced_metrics 0%nat (world_of boundary_frame) = (Ok l', w') /\
    heap w' !! l' = Some d' /\
    pd.column "Risk_Level" d' = Some (Categorical levels) /\
    levels !! 1%nat = Some (Some "Low").
Proof.
  destruct (risk_level_right_closed_buckets (world_of boundary_frame) 0%nat boundary_frame)
    as (l' & w' & d' & levels & Hrun & Hd' & Hcol & _ & Hrows); [ready | ready | ready |].
  exists l', w', d', levels. repeat split; try assumption.
  apply (Hrows 1%nat B64.f1); reflexivity.
Defined.

(** C1 as stated fails: defect rates 1.0, 3.0 and 5.0 are labelled Low,
    Medium and High, not Medium, High and Critical. *)
Lemma risk_level_boundary_counterexample :
  result_column "Risk_Level"
    (Interactive.calculate_advanced_metrics 0%nat (world_of boundary_frame))
  = Some (Categorical [Some "Low"; Some "Low"; Some "Medium"; Some "Medium";
                       Some "High"; Some "High"; Some "Critical"])
  /\ risk_level B64.f1 <> Some "Medium"
  /\ risk_level B64.f3 <> Some "High"
  /\ risk_level B64.f5 <> Some "Critical".
Proof. repeat split; try (vm_compute; reflexivity); vm_compute; discriminate. Qed.

(* ===================================================================== *)
(** * Division by zero                                                     *)
(* ===================================================================== *)

Lemma efficiency_ratio_column d pm tsc g :
  pd.column "Efficiency_Ratio" (advanced_frame d pm tsc g)
  = Some (Float64 (guarded_ratio (numbers "Revenue generated" d)
                                 (numbers "Manufacturing costs" d))).
Proof. unfold advanced_frame, scored_frame. solve_column. Qed.

Lemma inventory_turnover_column d pm tsc g :
  pd.column "Inventory_Turnover" (advanced_frame d pm tsc g)
  = Some (Float64 (guarded_ratio (numbers "Number of products sold" d)
                                 (numbers "Stock levels" d))).
Proof. unfold advanced_frame, scored_frame. solve_column. Qed.

(** A value that compares equal to 0 is one of the two zeros. *)
Lemma eqb_zero_inv m : B64.eqb m B64.zero = true -> exists s, m = S754_zero s.
Proof.
  destruct m as [s|s| |s mm e]; try (destruct s); try discriminate; eauto.
Qed.

(** Row by row, the guarded ratio is 0 where the denominator is 0,
    whatever the other rows hold. *)
Lemma guarded_ratio_zero num den i m :
  length num = length den ->
  den !! i = Some m -> B64.eqb m B64.zero = true ->
  guarded_ratio num den !! i = Some B64.zero.
Proof.
  intros Hlen Hm Hz. destruct (eqb_zero_inv m Hz) as [s ->].
  destruct (lookup_lt_is_Some_2 num i) as [n Hn].
  { rewrite Hlen. eapply lookup_lt_Some; eauto. }
  unfold guarded_ratio.
  rewrite lookup_zip_with, list_lookup_fmap, Hm. simpl.
  rewrite lookup_zip_with, Hn. simpl. rewrite Hm. simpl. now destruct s.
Qed.

(** The guard of [calculate_advanced_metrics]: both ratios are 0 on every
    row whose denominator is 0. *)
Lemma advanced_metrics_guarded_division w l d :
  heap w !! l = Some d -> pd.wf d -> Forall (has_numeric d) advanced_inputs ->
  exists l' w' d' eff inv,
    Interactive.calculate_advanced_metrics l w = (Ok l', w') /\
    heap w' !! l' = Some d' /\
    pd.column "Efficiency_Ratio" d' = Some (Float64 eff) /\
    pd.column "Inventory_Turnover" d' = Some (Float64 inv) /\
    (forall i m, numbers "Manufacturing costs" d !! i = Some m ->
                 B64.eqb m B64.zero = true -> eff !! i = Some B64.zero) /\
    (forall i m, numbers "Stock levels" d !! i = Some m ->
                 B64.eqb m B64.zero = true -> inv !! i = Some B64.zero).
Proof.
  intros Hl Hwf Hin.
  destruct (advanced_run w l d Hl Hwf Hin) as (pm & tsc & _ & _ & Hrun).
  eexists _, _, _, _, _. split; [exact Hrun|].
  split; [apply lookup_top|].
  split; [apply efficiency_ratio_column|]. split; [apply inventory_turnover_column|].
  split; intros i m Hm Hz; (eapply guarded_ratio_zero; [|exact Hm|exact Hz]);
    rewrite !numbers_length; auto; (eapply input_column; [exact Hin | simpl; tauto]).
Qed.

(** C2, the failing input.  [calculate_derived_metrics] divides without a
    guard: revenue 100 at manufacturing cost 0 gives an infinite
    efficiency ratio, 0 over 0 gives NaN, and likewise for the inventory
    turnover over an empty stock. *)
Theorem derived_metrics_unguarded_division :
  result_column "Efficiency_Ratio"
    (Enhanced.calculate_derived_metrics 0%nat (world_of zero_cost_frame))
  = Some (Float64 [B64.inf; B64.nan])
  /\ result_column "Inventory_Turnover"
       (Enhanced.calculate_derived_metrics 0%nat (world_of zero_cost_frame))
     = Some (Float64 [B64.inf; B64.nan])
  /\ result_column "Efficiency_Ratio"
       (Interactive.calculate_advanced_metrics 0%nat (world_of zero_cost_frame))
     = Some (Float64 [B64.zero; B64.zero]).
Proof. repeat split; vm_compute; reflexivity. Qed.

(** C4, the failing input.  With no defect at all the maximum defect rate
    is 0, every row divides 0 by 0 and the whole score is NaN: no term is
    replaced by 0. *)
Theorem performance_score_zero_maximum :
  pd.nanmax (numbers "Defect rates" flawless_frame) = B64.zero
  /\ result_column "Performance_Score"
       (Interactive.calculate_advanced_metrics 0%nat (world_of flawless_frame))
     = Some (Float64 [B64.nan; B64.nan]).
Proof. split; vm_compute; reflexivity. Qed.

(* ===================================================================== *)
(** * Shape and frame of the enrichment                                    *)
(* ===================================================================== *)


Lemma assoc_app_fresh c cols c' s :
  c <> c' -> pd.assoc c cols = None -> pd.assoc c (cols ++ [(c', s)]) = None.
Proof.
  intros Hne. induction cols as [|[c0 s0] cols IH]; simpl.
  - now rewrite decide_False.
  - destruct (decide (c = c0)); [discriminate|]. exact IH.
Qed.


Lemma derived_frame_wf d pm tsc :
  pd.wf d -> Forall (has_numeric d) derived_inputs ->
  pd.Series_len pm = pd.len d -> pd.Series_len tsc = pd.len d ->
  pd.wf (derived_frame d pm tsc).
Proof.
  intros Hwf Hin Hpm Htsc.
  assert (forall c, In c derived_inputs -> length (numbers c d) = pd.len d) as Hlen
    by (intros; apply numbers_length; eauto using input_column).
  pose proof (Hlen "Revenue generated" ltac:(simpl; tauto)) as L1. pose proof (Hlen "Manufacturing costs" ltac:(simpl; tauto)) as L2.
  pose proof (Hlen "Number of products sold" ltac:(simpl; tauto)) as L3. pose proof (Hlen "Stock levels" ltac:(simpl; tauto)) as L4.
  unfold derived_frame. repeat (apply wf_with_column); auto; solve_length.
Qed.

Lemma advanced_frame_wf d pm tsc g :
  pd.wf d -> Forall (has_numeric d) advanced_inputs ->
  pd.Series_len pm = pd.len d -> pd.Series_len tsc = pd.len d ->
  pd.wf (advanced_frame d pm tsc g).
Proof.
  intros Hwf Hin Hpm Htsc.
  assert (forall c, In c advanced_inputs -> length (numbers c d) = pd.len d) as Hlen
    by (intros; apply numbers_length; eauto using input_column).
  pose proof (Hlen "Revenue generated" ltac:(simpl; tauto)) as L1. pose proof (Hlen "Manufacturing costs" ltac:(simpl; tauto)) as L2.
  pose proof (Hlen "Number of products sold" ltac:(simpl; tauto)) as L3. pose proof (Hlen "Stock levels" ltac:(simpl; tauto)) as L4.
  pose proof (Hlen "Lead times" ltac:(simpl; tauto)) as L5. pose proof (Hlen "Defect rates" ltac:(simpl; tauto)) as L6.
  unfold advanced_frame, scored_frame. repeat (apply wf_with_column); auto; solve_length.
Qed.

Lemma derived_frame_column c d pm tsc :
  ~ In c derived_outputs ->
  pd.column c (derived_frame d pm tsc) = pd.column c d.
Proof.
  intros Hc. unfold derived_frame.
  repeat (rewrite column_with_column_ne by (intros ->; apply Hc; simpl; tauto)).
  reflexivity.
Qed.

Lemma advanced_frame_column c d pm tsc g :
  ~ In c advanced_outputs ->
  pd.column c (advanced_frame d pm tsc g) = pd.column c d.
Proof.
  intros Hc. unfold advanced_frame, scored_frame.
  repeat (rewrite column_with_column_ne by (intros ->; apply Hc; simpl; tauto)).
  reflexivity.
Qed.

(** C8.  Both enrichment functions return a frame with the row labels of
    the input, in the same order; every column of the result, derived ones
    included, has exactly one entry per input row, and every column that is
    not a derived one is the input column, position by position. *)
Theorem enrichment_preserves_rows w l d :
  heap w !! l = Some d -> pd.wf d ->
  (Forall (has_numeric d) derived_inputs ->
   exists l' w' d',
     Enhanced.calculate_derived_metrics l w = (Ok l', w') /\
     heap w' !! l' = Some d' /\
     index d' = index d /\ pd.len d' = pd.len d /\ pd.wf d' /\
     forall c, ~ In c derived_outputs -> pd.column c d' = pd.column c d) /\
  (Forall (has_numeric d) advanced_inputs ->
   exists l' w' d',
     Interactive.calculate_advanced_metrics l w = (Ok l', w') /\
     heap w' !! l' = Some d' /\
     index d' = index d /\ pd.len d' = pd.len d /\ pd.wf d' /\
     forall c, ~ In c advanced_outputs -> pd.column c d' = pd.column c d).
Proof.
  intros Hl Hwf. split; intros Hin.
  - destruct (derived_run w l d Hl Hwf Hin) as (pm & tsc & Hpm & Htsc & Hrun).
    eexists _, _, _. split; [exact Hrun|]. split; [apply lookup_top|].
    split; [reflexivity|]. split; [reflexivity|].
    split; [now apply derived_frame_wf|]. intros c; apply derived_frame_column.
  - destruct (advanced_run w l d Hl Hwf Hin) as (pm & tsc & Hpm & Htsc & Hrun).
    eexists _, _, _. split; [exact Hrun|]. split; [apply lookup_top|].
    split; [reflexivity|]. split; [reflexivity|].
    split; [now apply advanced_frame_wf|]. intros c; apply advanced_frame_column.
Qed.

Lemma enrichment_preserves_rows_witness :
  exists l' w' d',
    Interactive.calculate_advanced_metrics 0%nat (world_of boundary_frame) = (Ok l', w') /\
    heap w' !! l' = Some d' /\
    index d' = [0; 1; 2; 3; 4; 5; 6]%Z /\ pd.len d' = 7%nat.
Proof.
  destruct (enrichment_preserves_rows (world_of boundary_frame) 0%nat boundary_frame)
    as [_ H]; [ready | ready |].
  destruct H as (l' & w' & d' & Hrun & Hd' & Hi & Hn & _); [ready|].
  exists l', w', d'. repeat split; assumption.
Defined.







(* ===================================================================== *)
(** * A missing column                                                     *)
(* ===================================================================== *)

Lemma profit_margin_eq d a b r :
  pd.column "Revenue generated" d = Some a -> pd.column "Manufacturing costs" d = Some b ->
  pd.sub a b = Ok r -> profit_margin d = r.
Proof. intros Ha Hb Hr. unfold profit_margin. now rewrite Ha, Hb, Hr. Qed.

Lemma total_shipping_cost_eq d a b r :
  pd.column "Number of products sold" d = Some a -> pd.column "Shipping costs" d = Some b ->
  pd.mul a b = Ok r -> total_shipping_cost d = r.
Proof. intros Ha Hb Hr. unfold total_shipping_cost. now rewrite Ha, Hb, Hr. Qed.

(** A read of the copy: the column is there, with its numbers, or the
    run ends here, the copy as it stands. *)
Ltac split_on c d Hwf Hnum :=
  let E := fresh "E" in
  destruct (pd.column c d) eqn:E;
  [ destruct (input_facts d c Hwf (Hnum c ltac:(simpl; tauto) ltac:(congruence)))
      as (? & ? & ? & ?)
  | intros [= <-];
    erewrite bind_raise by (eapply getitem_top_missing; [reflexivity | solve_column]);
    reflexivity ].

Section MissingColumn.

Variables (w : World) (l : loc) (d : DataFrame) (c : string).
Hypothesis Hl : heap w !! l = Some d.
Hypothesis Hwf : pd.wf d.

Lemma derived_missing :
  (forall c', In c' derived_inputs -> pd.column c' d <> None -> has_numeric d c') ->
  first_missing derived_inputs d = Some c ->
  Enhanced.calculate_derived_metrics l w
  = (Raise (KeyError c), set_heap (heap w ++ [derived_partial c d]) w).
Proof.
  intros Hnum. unfold first_missing, derived_inputs. cbn [List.find].
  unfold Enhanced.calculate_derived_metrics.
  erewrite bind_ok by (apply copy_ok; exact Hl).
  split_on "Revenue generated" d Hwf Hnum. step_get.
  split_on "Manufacturing costs" d Hwf Hnum. step_get.
  match goal with
  | F1 : pd.to_float64 _ = Ok (numbers "Revenue generated" d),
    F2 : pd.to_float64 _ = Ok (numbers "Manufacturing costs" d) |- _ =>
      destruct (sub_ok _ _ _ _ F1 F2) as (pm & Hpm & Lpm)
  end.
  match goal with
  | Ha : pd.column "Revenue generated" d = Some ?a,
    Hb : pd.column "Manufacturing costs" d = Some ?b |- _ =>
      pose proof (profit_margin_eq d a b pm Ha Hb Hpm) as Epm
  end.
  subst pm.
  erewrite bind_lift_ok by exact Hpm. step_set.
  split_on "Number of products sold" d Hwf Hnum. step_get.
  split_on "Shipping costs" d Hwf Hnum. step_get.
  match goal with
  | F1 : pd.to_float64 _ = Ok (numbers "Number of products sold" d),
    F2 : pd.to_float64 _ = Ok (numbers "Shipping costs" d) |- _ =>
      destruct (mul_ok _ _ _ _ F1 F2) as (tsc & Htsc & Ltsc)
  end.
  match goal with
  | Ha : pd.column "Number of products sold" d = Some ?a,
    Hb : pd.column "Shipping costs" d = Some ?b |- _ =>
      pose proof (total_shipping_cost_eq d a b tsc Ha Hb Htsc) as Etsc
  end.
  subst tsc.
  erewrite bind_lift_ok by exact Htsc. step_set.
  step_get. step_get. step_lift truediv_ok. step_set.
  step_get.
  split_on "Stock levels" d Hwf Hnum.
  discriminate.
Qed.

Lemma advanced_missing :
  (forall c', In c' advanced_inputs -> pd.column c' d <> None -> has_numeric d c') ->
  first_missing advanced_inputs d = Some c ->
  Interactive.calculate_advanced_metrics l w
  = (Raise (KeyError c), set_heap (heap w ++ [advanced_partial c d]) w).
Proof.
  intros Hnum. unfold first_missing, advanced_inputs, derived_inputs. cbn [List.find app].
  unfold Interactive.calculate_advanced_metrics.
  erewrite bind_ok by (apply copy_ok; exact Hl).
  split_on "Revenue generated" d Hwf Hnum. step_get.
  split_on "Manufacturing costs" d Hwf Hnum. step_get.
  match goal with
  | F1 : pd.to_float64 _ = Ok (numbers "Revenue generated" d),
    F2 : pd.to_float64 _ = Ok (numbers "Manufacturing costs" d) |- _ =>
      destruct (sub_ok _ _ _ _ F1 F2) as (pm & Hpm & Lpm)
  end.
  match goal with
  | Ha : pd.column "Revenue generated" d = Some ?a,
    Hb : pd.column "Manufacturing costs" d = Some ?b |- _ =>
      pose proof (profit_margin_eq d a b pm Ha Hb Hpm) as Epm
  end.
  subst pm.
  erewrite bind_lift_ok by exact Hpm. step_set.
  split_on "Number of products sold" d Hwf Hnum. step_get.
  split_on "Shipping costs" d Hwf Hnum. step_get.
  match goal with
  | F1 : pd.to_float64 _ = Ok (numbers "Number of products sold" d),
    F2 : pd.to_float64 _ = Ok (numbers "Shipping costs" d) |- _ =>
      destruct (mul_ok _ _ _ _ F1 F2) as (tsc & Htsc & Ltsc)
  end.
  match goal with
  | Ha : pd.column "Number of products sold" d = Some ?a,
    Hb : pd.column "Shipping costs" d = Some ?b |- _ =>
      pose proof (total_shipping_cost_eq d a b tsc Ha Hb Htsc) as Etsc
  end.
  subst tsc.
  erewrite bind_lift_ok by exact Htsc. step_set.
  step_get. step_lift gt_scalar_ok. step_get. step_get. step_lift truediv_ok.
  erewrite bind_lift_ok by reflexivity. step_set.
  split_on "Stock levels" d Hwf Hnum. step_get.
  step_lift gt_scalar_ok. step_get. step_get. step_lift truediv_ok.
  erewrite bind_lift_ok by reflexivity. step_set.
  step_get. step_get. step_lift max_ok. step_lift truediv_scalar_ok.
  erewrite bind_lift_ok by reflexivity.
  split_on "Lead times" d Hwf Hnum. step_get.
  step_get. step_lift max_ok. step_lift truediv_scalar_ok.
  erewrite bind_lift_ok by reflexivity. erewrite bind_lift_ok by reflexivity.
  erewrite bind_lift_ok by reflexivity.
  split_on "Defect rates" d Hwf Hnum.
  discriminate.
Qed.

End MissingColumn.

Lemma first_missing_exists required d c0 :
  In c0 required -> pd.column c0 d = None ->
  exists c, first_missing required d = Some c /\ In c required /\ pd.column c d = None.
Proof.
  intros Hin Hc0. unfold first_missing.
  destruct (List.find _ required) as [c|] eqn:E.
  - apply List.find_some in E as [Hc Hnone]. exists c. repeat split; auto.
    destruct (pd.column c d); [discriminate | reflexivity].
  - apply List.find_none with (x := c0) in E; [|exact Hin]. now rewrite Hc0 in E.
Qed.

(** C6 (as amended).  When a column the enrichment reads is absent from the
    frame (and those present hold numbers), the call raises the [KeyError]
    of pandas for the first absent column in reading order; there is no
    [SchemaError].  Nothing is checked up front: when the exception leaves
    the function, the copy holds the derived columns that were assigned
    before the failing read, and it is the only thing that has changed (the
    input frame, the session and the random generator are as they were). *)
Theorem missing_column_raises_KeyError w l d c0 :
  heap w !! l = Some d -> pd.wf d ->
  (In c0 derived_inputs -> pd.column c0 d = None ->
   (forall c', In c' derived_inputs -> pd.column c' d <> None -> has_numeric d c') ->
   exists c,
     first_missing derived_inputs d = Some c /\ pd.column c d = None /\
     Enhanced.calculate_derived_metrics l w
     = (Raise (KeyError c), set_heap (heap w ++ [derived_partial c d]) w) /\
     exn_class (KeyError c) = "KeyError") /\
  (In c0 advanced_inputs -> pd.column c0 d = None ->
   (forall c', In c' advanced_inputs -> pd.column c' d <> None -> has_numeric d c') ->
   exists c,
     first_missing advanced_inputs d = Some c /\ pd.column c d = None /\
     Interactive.calculate_advanced_metrics l w
     = (Raise (KeyError c), set_heap (heap w ++ [advanced_partial c d]) w) /\
     exn_class (KeyError c) = "KeyError").
Proof.
  intros Hl Hwf. split; intros Hin Hc0 Hnum.
  - destruct (first_missing_exists _ d c0 Hin Hc0) as (c & Hfm & _ & Hc).
    exists c. repeat split; auto. now apply derived_missing.
  - destruct (first_missing_exists _ d c0 Hin Hc0) as (c & Hfm & _ & Hc).
    exists c. repeat split; auto. now apply advanced_missing.
Qed.

Ltac present_numeric :=
  let c' := fresh in let Hin := fresh in let Hc := fresh in
  intros c' Hin Hc; simpl in Hin;
  repeat (destruct Hin as [<-|Hin];
          [first [ eexists; (split; [reflexivity | exact I])
                 | exfalso; apply Hc; reflexivity ]|]);
  destruct Hin.

Lemma missing_column_raises_KeyError_witness :
  Interactive.calculate_advanced_metrics 0%nat
    (world_of (drop_column "Stock levels" boundary_frame))
  = (Raise (KeyError "Stock levels"),
     set_heap [drop_column "Stock levels" boundary_frame;
               advanced_partial "Stock levels" (drop_column "Stock levels" boundary_frame)]
       (world_of (drop_column "Stock levels" boundary_frame))).
Proof.
  destruct (missing_column_raises_KeyError
              (world_of (drop_column "Stock levels" boundary_frame)) 0%nat
              (drop_column "Stock levels" boundary_frame) "Stock levels")
    as [_ H]; [reflexivity | repeat constructor |].
  destruct H as (c & Hfm & _ & Hrun & _);
    [simpl; tauto | reflexivity | present_numeric |].
  injection Hfm as <-. exact Hrun.
Defined.

(** C6 as stated fails: without its stock levels the frame makes
    [calculate_advanced_metrics] raise [KeyError], not [SchemaError], and
    that after three derived columns have been computed on the copy. *)
Lemma missing_column_counterexample :
  let r := Interactive.calculate_advanced_metrics 0%nat
             (world_of (drop_column "Stock levels" boundary_frame)) in
  result_exn r = Some (KeyError "Stock levels")
  /\ exn_class (KeyError "Stock levels") <> "SchemaError"
  /\ (exists d', heap (snd r) !! 1%nat = Some d'
                 /\ map fst (columns d')
                    = map fst (columns (drop_column "Stock levels" boundary_frame))
                      ++ ["Profit_Margin"; "Total_Shipping_Cost"; "Efficiency_Ratio"]).
Proof.
  split; [vm_compute; reflexivity|]. split; [discriminate|].
  eexists. split; vm_compute; reflexivity.
Qed.

(* ===================================================================== *)
(** * Row selection                                                        *)
(* ===================================================================== *)

Section Compress.

Context {A B : Type}.

Lemma compress_nil_r (mask : list bool) : pd.compress mask (@nil A) = [].
Proof. now destruct mask. Qed.

Lemma compress_map (f : A -> B) mask l :
  pd.compress mask (map f l) = map f (pd.compress mask l).
Proof.
  revert l. induction mask as [|b mask IH]; intros [|x l]; simpl; auto.
  destruct b; simpl; now rewrite IH.
Qed.

Lemma compress_length mask (l : list A) (l' : list B) :
  length l = length l' -> length (pd.compress mask l) = length (pd.compress mask l').
Proof.
  revert l l'. induction mask as [|b mask IH]; intros [|x l] [|y l']; simpl; auto;
    try discriminate.
  intros [= H]. destruct b; simpl; auto.
Qed.

Lemma compress_In mask (l : list A) x : In x (pd.compress mask l) -> In x l.
Proof.
  revert l. induction mask as [|b mask IH]; intros [|y l]; simpl; try tauto.
  destruct b; simpl; intuition.
Qed.

Lemma compress_compose m1 m2 (l : list A) :
  pd.compress m2 (pd.compress m1 l) = pd.compress (mask_compose m1 m2) l.
Proof.
  revert m2 l. induction m1 as [|b m1 IH]; intros m2 l; simpl.
  - now rewrite compress_nil_r.
  - destruct l as [|x l].
    + rewrite compress_nil_r. destruct b; [destruct m2|]; reflexivity.
    + destruct b; [destruct m2 as [|b2 m2]|]; simpl; rewrite ?IH; auto.
      rewrite <- IH. now destruct (pd.compress m1 l).
Qed.

End Compress.

Lemma mask_compose_length m1 m2 : length (mask_compose m1 m2) = length m1.
Proof.
  revert m2. induction m1 as [|b m1 IH]; intros m2; simpl; auto.
  destruct b; [destruct m2|]; simpl; now rewrite IH.
Qed.

Lemma Series_compress_len mask s (l : list Z) :
  pd.Series_len s = length l ->
  pd.Series_len (pd.Series_compress mask s) = length (pd.compress mask l).
Proof. destruct s; simpl; apply compress_length. Qed.

Lemma Series_compress_compose m1 m2 s :
  pd.Series_compress m2 (pd.Series_compress m1 s) = pd.Series_compress (mask_compose m1 m2) s.
Proof. destruct s; simpl; now rewrite compress_compose. Qed.

Lemma take_compose m1 m2 d : pd.take m2 (pd.take m1 d) = pd.take (mask_compose m1 m2) d.
Proof.
  unfold pd.take. simpl. rewrite compress_compose. f_equal.
  rewrite map_map. apply map_ext. intros [c s]. simpl. now rewrite Series_compress_compose.
Qed.

Lemma take_all d : pd.wf d -> pd.take (replicate (pd.len d) true) d = d.
Proof.
  assert (forall (A : Type) (l : list A) n, length l = n -> pd.compress (replicate n true) l = l)
    as Hid.
  { intros A l. induction l as [|x l IH]; intros n <-; simpl; [reflexivity|]. now rewrite IH. }
  intros Hwf. destruct d as [idx cols]. unfold pd.take, pd.wf, pd.len in *. simpl in *.
  f_equal; [now apply Hid|].
  induction Hwf as [|[c s] cols Hs _ IH]; simpl; [reflexivity|]. rewrite IH. f_equal. f_equal.
  simpl in Hs. destruct s; simpl in *; now rewrite Hid.
Qed.

Lemma column_take c mask d :
  pd.column c (pd.take mask d) = pd.Series_compress mask <$> pd.column c d.
Proof.
  unfold pd.column, pd.take. simpl.
  induction (columns d) as [|[c' s] cols IH]; simpl; [reflexivity|].
  destruct (decide (c = c')); [reflexivity | exact IH].
Qed.

Lemma wf_take mask d : pd.wf d -> pd.wf (pd.take mask d).
Proof.
  unfold pd.wf, pd.take, pd.len. simpl. intros Hwf.
  induction Hwf as [|[c s] cols Hs _ IH]; simpl; constructor; auto.
  simpl in *. now apply Series_compress_len.
Qed.

Lemma numeric_compress mask s : numeric s -> numeric (pd.Series_compress mask s).
Proof. now destruct s. Qed.

Lemma has_numeric_take c mask d : has_numeric d c -> has_numeric (pd.take mask d) c.
Proof.
  intros (s & Hc & Hn). exists (pd.Series_compress mask s).
  rewrite column_take, Hc. auto using numeric_compress.
Qed.

Lemma numbers_take c mask d :
  numbers c (pd.take mask d) = pd.compress mask (numbers c d).
Proof.
  unfold numbers. rewrite column_take.
  destruct (pd.column c d) as [s|]; simpl; [|now rewrite compress_nil_r].
  destruct s; simpl; rewrite ?compress_map, ?compress_nil_r; reflexivity.
Qed.

Lemma filterable_take mask d : filterable d -> filterable (pd.take mask d).
Proof.
  intros (Hwf & (s1 & H1) & (s2 & H2) & H3 & H4 & H5 & levels & H6 & H7).
  split; [now apply wf_take|].
  split; [eexists; rewrite column_take, H1; reflexivity|].
  split; [eexists; rewrite column_take, H2; reflexivity|].
  repeat (split; [now apply has_numeric_take|]).
  exists (pd.compress mask levels). split.
  - rewrite column_take, H6. reflexivity.
  - rewrite numbers_take, H7. now rewrite compress_map.
Qed.

(* ===================================================================== *)
(** * Filters                                                              *)
(* ===================================================================== *)

Lemma getitem_ok l w d c s :
  heap w !! l = Some d -> pd.column c d = Some s -> pd.getitem l c w = (Ok s, w).
Proof.
  intros Hl Hc. unfold pd.getitem.
  erewrite bind_ok by (apply deref_ok; eassumption). now rewrite Hc.
Qed.

Lemma getitem_mask_ok l w d m :
  heap w !! l = Some d -> length m = pd.len d ->
  pd.getitem_mask l m w = (Ok (length (heap w)), set_heap (heap w ++ [pd.take m d]) w).
Proof.
  intros Hl Hm. unfold pd.getitem_mask.
  erewrite bind_ok by (apply deref_ok; eassumption). rewrite decide_True by done. reflexivity.
Qed.

(** Selecting rows of a selection gives a selection. *)
Lemma select_selected d1 st w l mask m :
  session_state w = st -> length mask = pd.len d1 ->
  heap w !! l = Some (pd.take mask d1) ->
  length m = pd.len (pd.take mask d1) ->
  exists l' w',
    pd.getitem_mask l m w = (Ok l', w') /\ selected d1 st w' l' /\
    heap w' !! l' = Some (pd.take m (pd.take mask d1)).
Proof.
  intros Hst Hmask Hl Hm. eexists _, _.
  split; [eapply getitem_mask_ok; eassumption|]. simpl. split; [|apply lookup_top].
  split; [exact Hst|]. exists (mask_compose mask m).
  rewrite mask_compose_length, <- take_compose. split; [exact Hmask | apply lookup_top].
Qed.

Lemma eq_str_length s k : length (pd.eq_str s k) = pd.Series_len s.
Proof. destruct s; simpl; now rewrite length_map. Qed.

Lemma isin_length s names : length (pd.isin s names) = pd.Series_len s.
Proof. destruct s; simpl; now rewrite length_map. Qed.

(** A row the risk filter keeps has a label. *)
Lemma isin_keeps_labelled levels names o :
  In o (pd.compress (pd.isin (Categorical levels) names) levels) -> o <> None.
Proof.
  simpl. induction levels as [|o' levels IH]; simpl; [tauto|].
  destruct o' as [s|]; [|exact IH].
  destruct (bool_decide (s ∈ names)); simpl; [|exact IH].
  intros [<-|H]; [discriminate | auto].
Qed.

Lemma risk_level_zero x : B64.eqb x B64.zero = true -> risk_level x = None.
Proof. intros H. destruct (eqb_zero_inv x H) as [s ->]. now destruct s. Qed.

Lemma cmp_scalar_ok f a x k :
  pd.to_float64 a = Ok x -> pd.cmp_scalar f a k = Ok (map (fun v => f v k) x).
Proof. intros Ha. unfold pd.cmp_scalar. now rewrite Ha. Qed.

Ltac stage d1 st a w' Hs :=
  lazymatch goal with
  | |- filters_post _ _ (bind ?c ?k ?w) =>
      let Hr := fresh "Hrun" in
      assert (exists a0 w0, c w = (Ok a0, w0) /\ selected d1 st w0 a0) as (a & w' & Hr & Hs);
      [ | rewrite (bind_ok c k w a w' Hr); clear Hr ]
  end.

Ltac open_selection Hsel Hf :=
  let Hst := fresh "Hst" in
  let mask := fresh "mask" in
  let Hlen := fresh "Hlen" in
  let Hheap := fresh "Hheap" in
  destruct Hsel as (Hst & mask & Hlen & Hheap);
  let H := fresh in
  pose proof (filterable_take mask _ Hf) as H;
  destruct H as (? & (? & ?) & (? & ?) & ? & ? & ? & ? & ? & ?).

Lemma apply_filters_run w l d1 :
  heap w !! l = Some d1 -> filterable d1 ->
  filters_post d1 (session_state w) (Interactive.apply_filters l w).
Proof.
  intros Hl Hf. set (st := session_state w).
  unfold Interactive.apply_filters.
  erewrite bind_ok by (apply copy_ok; exact Hl).
  erewrite bind_ok by reflexivity. cbn [session_state set_heap]. fold st.
  assert (selected d1 st (set_heap (heap w ++ [d1]) w) (length (heap w))) as Hsel0.
  { split; [reflexivity|]. exists (replicate (pd.len d1) true).
    rewrite length_replicate, take_all by apply Hf. split; [reflexivity | apply lookup_top]. }
  (* Product type *)
  stage d1 st l1 w1 Hsel1.
  { destruct (decide (selected_product_type st = "All")).
    - eexists _, _. split; [reflexivity | exact Hsel0].
    - open_selection Hsel0 Hf.
      erewrite bind_ok by (eapply getitem_ok; eassumption).
      edestruct select_selected as (l' & w' & Hr & Hs & _); [..|eauto]; eauto.
      rewrite eq_str_length. eapply wf_column; eauto. }
  (* Location *)
  stage d1 st l2 w2 Hsel2.
  { destruct (decide (selected_location st = "All")).
    - eexists _, _. split; [reflexivity | exact Hsel1].
    - open_selection Hsel1 Hf.
      erewrite bind_ok by (eapply getitem_ok; eassumption).
      edestruct select_selected as (l' & w' & Hr & Hs & _); [..|eauto]; eauto.
      rewrite eq_str_length. eapply wf_column; eauto. }
  (* Revenue range *)
  stage d1 st l3 w3 Hsel3.
  { destruct (revenue_range st) as [[min_rev max_rev]|].
    - open_selection Hsel2 Hf.
      match goal with
      | H : has_numeric _ "Revenue generated" |- _ =>
          destruct (input_facts _ _ ltac:(eassumption) H) as (s & Hc & Hn & Hlen')
      end.
      erewrite bind_ok by (eapply getitem_ok; eassumption).
      erewrite bind_lift_ok by (eapply cmp_scalar_ok; eassumption).
      erewrite bind_ok by (eapply getitem_ok; eassumption).
      erewrite bind_lift_ok by (eapply cmp_scalar_ok; eassumption).
      edestruct select_selected as (l' & w' & Hr & Hs & _); [..|eauto]; eauto.
      unfold pd.mask_and. rewrite length_zip_with, !length_map. lia.
    - eexists _, _. split; [reflexivity | exact Hsel2]. }
  (* Lead time *)
  stage d1 st l4 w4 Hsel4.
  { destruct (lead_time_max st) as [k|].
    - open_selection Hsel3 Hf.
      match goal with
      | H : has_numeric _ "Lead times" |- _ =>
          destruct (input_facts _ _ ltac:(eassumption) H) as (s & Hc & Hn & Hlen')
      end.
      erewrite bind_ok by (eapply getitem_ok; eassumption).
      erewrite bind_lift_ok by (eapply cmp_scalar_ok; eassumption).
      edestruct select_selected as (l' & w' & Hr & Hs & _); [..|eauto]; eauto.
      now rewrite length_map.
    - eexists _, _. split; [reflexivity | exact Hsel3]. }
  (* Risk level *)
  destruct Hsel4 as (Hst & mask & Hlen & Hheap).
  destruct (risk_levels st) as [[|level levels]|] eqn:Hrisk.
  - exists l4, w4, mask. split; [reflexivity|]. split; [exact Hlen|].
    split; [exact Hheap|]. intros ? ? E. congruence.
  - destruct (filterable_take mask _ Hf) as (Hwf & _ & _ & _ & _ & _ & lv & Hlv & Hrl).
    edestruct (select_selected d1 st w4 l4 mask (pd.isin (Categorical lv) (level :: levels)))
      as (l' & w' & Hr & _ & Hh); eauto.
    { rewrite isin_length. eapply wf_column; eauto. }
    erewrite bind_ok
      by (erewrite bind_ok by (eapply getitem_ok; eassumption); exact Hr).
    rewrite take_compose in Hh.
    exists l', w', (mask_compose mask (pd.isin (Categorical lv) (level :: levels))).
    split; [reflexivity|]. split; [now rewrite mask_compose_length|]. split; [exact Hh|].
    intros _ _ _ x Hx. rewrite <- take_compose, numbers_take in Hx.
    destruct (B64.eqb x B64.zero) eqn:Hz; [exfalso | reflexivity].
    apply (in_map risk_level) in Hx. rewrite <- compress_map, <- Hrl in Hx.
    apply isin_keeps_labelled in Hx. apply Hx. now apply risk_level_zero.
  - exists l4, w4, mask. split; [reflexivity|]. split; [exact Hlen|].
    split; [exact Hheap|]. intros ? ? E. congruence.
Qed.

Lemma numbers_advanced_frame c d pm tsc g :
  ~ In c advanced_outputs -> numbers c (advanced_frame d pm tsc g) = numbers c d.
Proof. intros Hc. unfold numbers. now rewrite advanced_frame_column. Qed.

Lemma has_numeric_advanced_frame c d pm tsc g :
  ~ In c advanced_outputs -> has_numeric d c -> has_numeric (advanced_frame d pm tsc g) c.
Proof. intros Hc (s & H & Hn). exists s. now rewrite advanced_frame_column. Qed.

Ltac not_an_output := simpl; intros H; repeat (destruct H as [H|H]; [discriminate H|]); exact H.

Lemma advanced_frame_filterable d pm tsc g :
  pd.wf d -> Forall (has_numeric d) advanced_inputs ->
  pd.Series_len pm = pd.len d -> pd.Series_len tsc = pd.len d ->
  (exists s, pd.column "Product type" d = Some s) ->
  (exists s, pd.column "Location" d = Some s) ->
  filterable (advanced_frame d pm tsc g).
Proof.
  intros Hwf Hin Hpm Htsc (s1 & H1) (s2 & H2).
  split; [now apply advanced_frame_wf|].
  split; [exists s1; rewrite advanced_frame_column; [exact H1 | not_an_output]|].
  split; [exists s2; rewrite advanced_frame_column; [exact H2 | not_an_output]|].
  repeat (split; [apply has_numeric_advanced_frame;
                  [not_an_output | eapply input_column; [exact Hin | simpl; tauto]]|]).
  eexists. split; [apply risk_level_column|].
  rewrite numbers_advanced_frame; [reflexivity | not_an_output].
Qed.

(** C10.  A row whose defect rate is 0 gets no risk level from
    [calculate_advanced_metrics]; and once the risk filter of
    [apply_filters] is active (the sidebar's default lists all four
    names), the filtered frame, a selection of the rows of the enriched
    one, holds no row with a defect rate of 0. *)
Theorem zero_defect_rows_unlabelled_and_dropped w l d level levels0 :
  heap w !! l = Some d -> pd.wf d -> Forall (has_numeric d) advanced_inputs ->
  (exists s, pd.column "Product type" d = Some s) ->
  (exists s, pd.column "Location" d = Some s) ->
  risk_levels (session_state w) = Some (level :: levels0) ->
  exists l1 w1 d1 levels l2 w2 mask,
    Interactive.calculate_advanced_metrics l w = (Ok l1, w1) /\
    heap w1 !! l1 = Some d1 /\
    pd.column "Risk_Level" d1 = Some (Categorical levels) /\
    (forall i x, numbers "Defect rates" d !! i = Some x ->
                 B64.eqb x B64.zero = true -> levels !! i = Some None) /\
    Interactive.apply_filters l1 w1 = (Ok l2, w2) /\
    length mask = pd.len d1 /\
    heap w2 !! l2 = Some (pd.take mask d1) /\
    (forall x, In x (numbers "Defect rates" (pd.take mask d1)) ->
               B64.eqb x B64.zero = false).
Proof.
  intros Hl Hwf Hin Hpt Hloc Hrisk.
  destruct (advanced_run w l d Hl Hwf Hin) as (pm & tsc & Hpm & Htsc & Hrun).
  set (w1 := set_random _ _) in Hrun.
  set (d1 := advanced_frame d pm tsc (random w)) in *.
  assert (heap w1 !! length (heap w) = Some d1) as Hd1 by apply lookup_top.
  assert (filterable d1) as Hf by now apply advanced_frame_filterable.
  destruct (apply_filters_run w1 _ d1 Hd1 Hf) as (l2 & w2 & mask & Hrun2 & Hlen & Hh & Hzero).
  exists (length (heap w)), w1, d1, (map risk_level (numbers "Defect rates" d)), l2, w2, mask.
  split; [exact Hrun|]. split; [exact Hd1|]. split; [apply risk_level_column|].
  split.
  { intros i x Hx Hz. rewrite list_lookup_fmap, Hx. simpl. now rewrite risk_level_zero. }
  split; [exact Hrun2|]. split; [exact Hlen|]. split; [exact Hh|].
  exact (Hzero level levels0 Hrisk).
Qed.

Lemma zero_defect_rows_unlabelled_and_dropped_witness :
  exists l1 w1 d1 levels l2 w2 mask,
    Interactive.calculate_advanced_metrics 0%nat trade_world = (Ok l1, w1) /\
    heap w1 !! l1 = Some d1 /\
    pd.column "Risk_Level" d1 = Some (Categorical levels) /\
    levels !! 2%nat = Some None /\
    Interactive.apply_filters l1 w1 = (Ok l2, w2) /\
    heap w2 !! l2 = Some (pd.take mask d1) /\
    (forall x, In x (numbers "Defect rates" (pd.take mask d1)) ->
               B64.eqb x B64.zero = false).
Proof.
  destruct (zero_defect_rows_unlabelled_and_dropped trade_world 0%nat trade_frame
              "Low" ["Medium"; "High"; "Critical"])
    as (l1 & w1 & d1 & levels & l2 & w2 & mask & H1 & H2 & H3 & H4 & H5 & _ & H6 & H7);
    [ ready | ready | ready | eexists; reflexivity | eexists; reflexivity | reflexivity | ].
  exists l1, w1, d1, levels, l2, w2, mask. repeat split; try assumption.
  apply (H4 2%nat B64.zero); reflexivity.
Defined.

(** The run the witness speaks of, evaluated: the third row has no risk
    level and is the one missing from the filtered frame. *)
Example trade_world_filtered :
  result_column "Risk_Level" (Interactive.calculate_advanced_metrics 0%nat trade_world)
  = Some (Categorical [Some "Low"; Some "Medium"; None])
  /\ (let r := bind (Interactive.calculate_advanced_metrics 0%nat)
                    Interactive.apply_filters trade_world in
      result_column "Defect rates" r = Some (Float64 [B64.f1; B64.f3])
      /\ result_column "Risk_Level" r = Some (Categorical [Some "Low"; Some "Medium"])).
Proof. repeat split; vm_compute; reflexivity. Qed.

(* ===================================================================== *)
(** * Grouped summaries                                                    *)
(* ===================================================================== *)

Lemma total_leb_true x y :
  B64.total_leb x y = true <-> ~ B64.lt3 (B64.key y) (B64.key x).
Proof.
  unfold B64.total_leb. rewrite <- lex_compare_gt.
  destruct (B64.lex_compare _ _); split; intros; congruence.
Qed.

Lemma lt3_cases a b : B64.lt3 a b \/ a = b \/ B64.lt3 b a.
Proof.
  destruct a as [[a1 a2] a3], b as [[b1 b2] b3]. unfold B64.lt3. simpl.
  destruct (Z.lt_trichotomy a1 b1) as [?|[?|?]];
    destruct (Z.lt_trichotomy a2 b2) as [?|[?|?]];
    destruct (Z.lt_trichotomy a3 b3) as [?|[?|?]]; subst; auto; lia.
Qed.

Lemma lt3_trans a b c : B64.lt3 a b -> B64.lt3 b c -> B64.lt3 a c.
Proof.
  destruct a as [[a1 a2] a3], b as [[b1 b2] b3], c as [[c1 c2] c3].
  unfold B64.lt3. simpl. lia.
Qed.

Lemma lt3_irrefl a : ~ B64.lt3 a a.
Proof. destruct a as [[a1 a2] a3]. unfold B64.lt3. simpl. lia. Qed.

Lemma total_leb_total x y : B64.total_leb x y = true \/ B64.total_leb y x = true.
Proof.
  rewrite !total_leb_true.
  destruct (lt3_cases (B64.key x) (B64.key y)) as [H|[H|H]].
  - left. intros H'. eapply lt3_irrefl, lt3_trans; eauto.
  - left. rewrite H. apply lt3_irrefl.
  - right. intros H'. eapply lt3_irrefl, lt3_trans; eauto.
Qed.

Lemma total_leb_trans x y z :
  B64.total_leb x y = true -> B64.total_leb y z = true -> B64.total_leb x z = true.
Proof.
  rewrite !total_leb_true. intros Hxy Hyz Hzx.
  destruct (lt3_cases (B64.key x) (B64.key y)) as [H|[H|H]]; [| |tauto].
  - apply Hyz. eapply lt3_trans; eauto.
  - apply Hyz. now rewrite <- H.
Qed.

Lemma value_leb_total x y : duckdb.value_leb x y = true \/ duckdb.value_leb y x = true.
Proof.
  destruct x as [a|n], y as [b|m]; simpl; auto using total_leb_total.
  destruct (Z.leb_spec n m), (Z.leb_spec m n); auto; lia.
Qed.

Lemma value_leb_trans x y z :
  duckdb.value_leb x y = true -> duckdb.value_leb y z = true -> duckdb.value_leb x z = true.
Proof.
  destruct x as [a|n], y as [b|m], z as [c|k]; simpl; try discriminate; auto.
  - apply total_leb_trans.
  - rewrite !Z.leb_le. lia.
Qed.

Global Instance precedes_total dir i : Total (duckdb.precedes dir i).
Proof.
  intros r1 r2. unfold duckdb.precedes, duckdb.key_leb.
  destruct (duckdb.sort_key i r1) as [x|], (duckdb.sort_key i r2) as [y|]; simpl; auto.
  destruct dir.
  - destruct (value_leb_total x y) as [->| ->]; simpl; auto.
  - destruct (value_leb_total x y) as [->| ->]; simpl; auto.
Qed.

Global Instance precedes_trans dir i : Transitive (duckdb.precedes dir i).
Proof.
  intros r1 r2 r3. unfold duckdb.precedes, duckdb.key_leb.
  destruct (duckdb.sort_key i r1) as [x|], (duckdb.sort_key i r2) as [y|],
    (duckdb.sort_key i r3) as [z|]; simpl; auto; try tauto.
  destruct dir; rewrite !Is_true_true; eauto using value_leb_trans.
Qed.

Lemma eval_aggregate_ok d mask a :
  aggregate_ready d a -> exists v, duckdb.eval_aggregate d mask a = Ok v.
Proof.
  destruct a as [c|c|]; simpl; [| |eauto].
  - intros (s & -> & Hn). destruct s; try (destruct Hn); eauto.
  - intros (s & -> & Hn). destruct s; try (destruct Hn); eauto.
Qed.

Lemma eval_aggregates_ok d mask sel :
  Forall (aggregate_ready d) (map fst sel) ->
  exists vs, duckdb.eval_aggregates d mask sel = Ok vs.
Proof.
  induction sel as [|[a alias] sel IH]; simpl; intros H; [eauto|].
  inversion H as [|? ? Ha Hsel]; subst.
  destruct (eval_aggregate_ok d mask a Ha) as [v ->].
  destruct (IH Hsel) as [vs ->]. simpl. eauto.
Qed.

Lemma eval_groups_ok d keys sel groups :
  Forall (aggregate_ready d) (map fst sel) ->
  exists rows, duckdb.eval_groups d keys sel groups = Ok rows.
Proof.
  intros H. induction groups as [|k groups [rows IH]]; simpl; [eauto|].
  destruct (eval_aggregates_ok d (map (fun s => bool_decide (s = k)) keys) sel H) as [vs ->].
  rewrite IH. simpl. eauto.
Qed.

(** Whatever the order of emission, the engine sorts the same rows. *)
Lemma arrange_Permutation {A} order (l : list A) : duckdb.arrange order l ≡ₚ l.
Proof.
  revert order. induction l as [|x l IH]; intros order; [reflexivity|].
  destruct order as [|k order]; simpl; [reflexivity|].
  rewrite <- Permutation_middle, take_drop. now rewrite IH.
Qed.

(** A query on a frame that has what it reads returns its rows sorted by
    its ORDER BY column, in whatever order its groups were emitted. *)
Lemma run_sorted q d i order :
  query_ready d q ->
  duckdb.alias_index (fst (duckdb.order_by q)) (duckdb.select q) = Some i ->
  exists rows, duckdb.run q d order = Ok rows /\ ordered (snd (duckdb.order_by q)) i rows.
Proof.
  intros [(keys & Hk) Hsel] Hi. unfold duckdb.run. rewrite Hk, Hi.
  destruct (eval_groups_ok d keys (duckdb.select q) (duckdb.distinct [] keys) Hsel) as [rows ->].
  simpl. eexists. split; [reflexivity|]. apply (StronglySorted_merge_sort _).
Qed.

Lemma execute_ok w l d q rows :
  heap w !! l = Some d ->
  duckdb.run q d (emission (engine w) (executed (engine w))) = Ok rows ->
  duckdb.execute l q w = (Ok rows, queried w).
Proof.
  intros Hl Hrun. unfold duckdb.execute.
  erewrite bind_ok by (apply deref_ok; exact Hl).
  unfold bind at 1. unfold get_engine. unfold bind at 1, lift. rewrite Hrun. reflexivity.
Qed.

Lemma execute_raise w l d q e :
  heap w !! l = Some d ->
  duckdb.run q d (emission (engine w) (executed (engine w))) = Raise e ->
  duckdb.execute l q w = (Raise e, w).
Proof.
  intros Hl Hrun. unfold duckdb.execute.
  erewrite bind_ok by (apply deref_ok; exact Hl).
  unfold bind at 1. unfold get_engine. unfold bind at 1, lift. rewrite Hrun. reflexivity.
Qed.

Lemma execute_df_ok w l d q rows :
  heap w !! l = Some d ->
  duckdb.run q d (emission (engine w) (executed (engine w))) = Ok rows ->
  duckdb.execute_df l q w = (Ok (duckdb.df rows), queried w).
Proof.
  intros Hl Hrun. unfold duckdb.execute_df.
  now rewrite (bind_ok _ _ _ _ _ (execute_ok _ _ _ _ _ Hl Hrun)).
Qed.

Lemma execute_df_sorted w l d q i :
  heap w !! l = Some d -> query_ready d q ->
  duckdb.alias_index (fst (duckdb.order_by q)) (duckdb.select q) = Some i ->
  exists table, duckdb.execute_df l q w = (Ok (duckdb.df table), queried w)
                /\ ordered (snd (duckdb.order_by q)) i table.
Proof.
  intros Hl Hq Hi.
  destruct (run_sorted q d i (emission (engine w) (executed (engine w))) Hq Hi)
    as (rows & Hrun & Hs).
  exists rows. split; [|exact Hs]. now apply (execute_df_ok w l d).
Qed.

Lemma heap_queried w : heap (queried w) = heap w.
Proof. reflexivity. Qed.

(** ** The order of the keys of a pandas summary *)

Lemma str_leb_trans a b c :
  String.leb a b = true -> String.leb b c = true -> String.leb a c = true.
Proof.
  unfold String.leb.
  destruct (String.compare a b) eqn:E1; try discriminate;
    destruct (String.compare b c) eqn:E2; try discriminate; intros _ _.
  - apply String_as_OT.cmp_eq in E1 as ->. now rewrite E2.
  - apply String_as_OT.cmp_eq in E1 as ->. now rewrite E2.
  - apply String_as_OT.cmp_eq in E2 as <-. now rewrite E1.
  - apply String_as_OT.cmp_lt in E1, E2.
    pose proof (String_as_OT.lt_trans _ _ _ E1 E2) as H.
    apply String_as_OT.cmp_lt in H. unfold String_as_OT.cmp in H. now rewrite H.
Qed.

Global Instance str_le_total : Total pd.str_le.
Proof.
  intros a b. unfold pd.str_le.
  destruct (String.leb_total a b) as [->| ->]; simpl; auto.
Qed.

Global Instance str_le_trans : Transitive pd.str_le.
Proof.
  intros a b c. unfold pd.str_le. rewrite !Is_true_true. apply str_leb_trans.
Qed.

Global Instance float_le_total : Total pd.float_le.
Proof.
  intros a b. unfold pd.float_le.
  destruct (total_leb_total a b) as [->| ->]; simpl; auto.
Qed.

Global Instance float_le_trans : Transitive pd.float_le.
Proof.
  intros a b c. unfold pd.float_le. rewrite !Is_true_true. apply total_leb_trans.
Qed.





Ltac query_ready :=
  repeat constructor;
  first [ eexists; reflexivity
        | eexists; (split; [reflexivity | exact I]) ].




(* ===================================================================== *)
(** * Independence from the random generator                               *)
(* ===================================================================== *)

Lemma frame_agree_refl d : frame_agree d d.
Proof. split; auto. Qed.

Lemma world_agree_refl w1 w2 :
  heap w1 = heap w2 -> session_state w1 = session_state w2 -> world_agree w1 w2.
Proof.
  intros Hh Hs. split; [|exact Hs]. rewrite Hh.
  apply Forall2_same_length_lookup. split; [reflexivity|].
  intros i x y H1 H2. assert (x = y) as -> by congruence. apply frame_agree_refl.
Qed.

Section Agree.

Context {A B : Type}.

Lemma agree_ret (R : A -> A -> Prop) a1 a2 : R a1 a2 -> agree R (ret a1) (ret a2).
Proof. intros H w1 w2 Hw. simpl. auto. Qed.

Lemma agree_raise (R : A -> A -> Prop) e : agree R (raise e) (raise e).
Proof. intros w1 w2 Hw. simpl. auto. Qed.

Lemma agree_lift (r : result A) : agree eq (lift r) (lift r).
Proof. intros w1 w2 Hw. unfold lift. destruct r; auto. Qed.

Lemma agree_bind (R : A -> A -> Prop) (S : B -> B -> Prop) c1 c2 k1 k2 :
  agree R c1 c2 ->
  (forall a1 a2, R a1 a2 -> agree S (k1 a1) (k2 a2)) ->
  agree S (bind c1 k1) (bind c2 k2).
Proof.
  intros Hc Hk w1 w2 Hw. unfold bind. specialize (Hc w1 w2 Hw).
  destruct (c1 w1) as [[a1|e1] w1'], (c2 w2) as [[a2|e2] w2']; try tauto.
  destruct Hc as [Ha Hw']. exact (Hk a1 a2 Ha w1' w2' Hw').
Qed.

Lemma agree_weaken (R R' : A -> A -> Prop) c1 c2 :
  (forall a1 a2, R a1 a2 -> R' a1 a2) -> agree R c1 c2 -> agree R' c1 c2.
Proof.
  intros HR Hc w1 w2 Hw. specialize (Hc w1 w2 Hw).
  destruct (c1 w1) as [[a1|e1] w1'], (c2 w2) as [[a2|e2] w2']; try tauto.
  destruct Hc; auto.
Qed.

End Agree.

Lemma agree_get_session : agree eq get_session get_session.
Proof. intros w1 w2 Hw. simpl. split; [apply Hw | exact Hw]. Qed.

Lemma agree_deref l : agree frame_agree (deref l) (deref l).
Proof.
  intros w1 w2 Hw. unfold deref, bind, get_heap.
  destruct Hw as [Hh Hs].
  destruct (heap w1 !! l) as [d1|] eqn:E1.
  - destruct (Forall2_lookup_l _ _ _ _ _ Hh E1) as (d2 & E2 & Hd).
    rewrite E2. simpl. split; [exact Hd | split; assumption].
  - assert (heap w2 !! l = None) as E2.
    { apply lookup_ge_None. apply lookup_ge_None in E1.
      now rewrite <- (Forall2_length _ _ _ Hh). }
    rewrite E2. simpl. split; [reflexivity | split; assumption].
Qed.

Lemma agree_alloc d1 d2 : frame_agree d1 d2 -> agree eq (alloc d1) (alloc d2).
Proof.
  intros Hd w1 w2 [Hh Hs]. unfold alloc, bind, get_heap, put_heap, ret. simpl.
  split; [apply (Forall2_length _ _ _ Hh)|]. split; [|exact Hs]. simpl.
  apply Forall2_app; auto.
Qed.

Lemma agree_store l d1 d2 : frame_agree d1 d2 -> agree eq (store l d1) (store l d2).
Proof.
  intros Hd w1 w2 [Hh Hs]. unfold store, bind, get_heap, put_heap. simpl.
  split; [reflexivity|]. split; [|exact Hs]. simpl. now apply Forall2_insert.
Qed.

Lemma agree_copy l : agree eq (pd.copy l) (pd.copy l).
Proof.
  unfold pd.copy. eapply agree_bind; [apply agree_deref|].
  intros d1 d2 Hd. now apply agree_alloc.
Qed.

Lemma agree_getitem l c :
  ~ In c trend_columns -> agree eq (pd.getitem l c) (pd.getitem l c).
Proof.
  intros Hc. unfold pd.getitem. eapply agree_bind; [apply agree_deref|].
  intros d1 d2 [_ Hd]. rewrite (Hd c Hc).
  destruct (pd.column c d2); [now apply agree_ret | apply agree_raise].
Qed.

Lemma frame_agree_with_column c s1 s2 d1 d2 :
  frame_agree d1 d2 -> s1 = s2 \/ In c trend_columns ->
  frame_agree (pd.with_column c s1 d1) (pd.with_column c s2 d2).
Proof.
  intros [Hi Hd] Hs. split; [exact Hi|]. intros c' Hc'.
  destruct (decide (c' = c)) as [->|Hne].
  - destruct Hs as [->|Hs]; [|tauto]. now rewrite !column_with_column_eq.
  - rewrite !column_with_column_ne by exact Hne. auto.
Qed.

Lemma agree_setitem l c s1 s2 :
  pd.Series_len s1 = pd.Series_len s2 -> s1 = s2 \/ In c trend_columns ->
  agree eq (pd.setitem l c s1) (pd.setitem l c s2).
Proof.
  intros Hlen Hs. unfold pd.setitem. eapply agree_bind; [apply agree_deref|].
  intros d1 d2 Hd. unfold pd.len. rewrite Hlen, (proj1 Hd).
  destruct (decide _); [|apply agree_raise].
  apply agree_store. now apply frame_agree_with_column.
Qed.

Lemma frame_agree_take m d1 d2 : frame_agree d1 d2 -> frame_agree (pd.take m d1) (pd.take m d2).
Proof.
  intros [Hi Hd]. split; [simpl; now rewrite Hi|].
  intros c Hc. rewrite !column_take. now rewrite (Hd c Hc).
Qed.

Lemma agree_getitem_mask l m : agree eq (pd.getitem_mask l m) (pd.getitem_mask l m).
Proof.
  unfold pd.getitem_mask. eapply agree_bind; [apply agree_deref|].
  intros d1 d2 Hd. unfold pd.len. rewrite (proj1 Hd).
  destruct (decide _); [|apply agree_raise].
  apply agree_alloc. now apply frame_agree_take.
Qed.

Lemma world_agree_set_random g1 g2 w1 w2 :
  world_agree w1 w2 -> world_agree (set_random g1 w1) (set_random g2 w2).
Proof. intros H. exact H. Qed.

Lemma agree_random_choice1 a :
  agree (fun _ _ => True) (np.random_choice1 a) (np.random_choice1 a).
Proof.
  intros w1 w2 Hw. destruct (decide (a = [])) as [->|Ha].
  - unfold np.random_choice1, np.next_raw, bind, get_random, put_random. simpl.
    split; [reflexivity | exact Hw].
  - rewrite !random_choice1_run by exact Ha. split; [exact I | exact Hw].
Qed.

Lemma agree_random_choice a n :
  agree (fun x y => length x = length y) (np.random_choice a n) (np.random_choice a n).
Proof.
  induction n as [|n IH]; simpl.
  - now apply agree_ret.
  - eapply agree_bind; [apply agree_random_choice1|]. intros x1 x2 _.
    eapply agree_bind; [apply IH|]. intros y1 y2 Hy.
    apply agree_ret. simpl. now rewrite Hy.
Qed.

Lemma agree_random_uniform low high n :
  agree (fun x y => length x = length y)
        (np.random_uniform low high n) (np.random_uniform low high n).
Proof.
  intros w1 w2 Hw. rewrite !random_uniform_run.
  split; [now rewrite !uniforms_length | exact Hw].
Qed.

Lemma eval_aggregate_agree d1 d2 mask a :
  frame_agree d1 d2 ->
  (forall c, In c (aggregate_column a) -> ~ In c trend_columns) ->
  duckdb.eval_aggregate d1 mask a = duckdb.eval_aggregate d2 mask a.
Proof.
  intros [_ Hd] Ha. destruct a as [c|c|]; simpl; [| |reflexivity];
    rewrite (Hd c) by (apply Ha; simpl; tauto); reflexivity.
Qed.

Lemma eval_aggregates_agree d1 d2 mask sel :
  frame_agree d1 d2 ->
  Forall (fun a => forall c, In c (aggregate_column a) -> ~ In c trend_columns) (map fst sel) ->
  duckdb.eval_aggregates d1 mask sel = duckdb.eval_aggregates d2 mask sel.
Proof.
  intros Hd. induction sel as [|[a alias] sel IH]; simpl; intros H; [reflexivity|].
  inversion H as [|? ? Ha Hsel]; subst.
  now rewrite (eval_aggregate_agree d1 d2 mask a Hd Ha), (IH Hsel).
Qed.

(** Two tables in the order of a query that hold the same rows are one
    table when no two rows tie. *)
Lemma ordered_unique dir i t1 t2 :
  t1 ≡ₚ t2 -> ordered dir i t1 -> ordered dir i t2 -> tie_free dir i t1 -> t1 = t2.
Proof.
  unfold ordered. revert t2. induction t1 as [|x t1 IH]; intros t2 Hp H1 H2 Hfree.
  - now apply Permutation_nil_l in Hp.
  - destruct t2 as [|y t2]; [now apply Permutation_nil_r in Hp|].
    apply StronglySorted_inv in H1 as [S1 F1]. apply StronglySorted_inv in H2 as [S2 F2].
    rewrite Forall_forall in F1, F2.
    assert (x = y) as <-.
    { assert (y ∈ x :: t1) as Hy by (rewrite Hp; left).
      assert (x ∈ y :: t2) as Hx by (rewrite <- Hp; left).
      apply elem_of_cons in Hy as [->|Hy]; [reflexivity|].
      apply elem_of_cons in Hx as [->|Hx]; [reflexivity|].
      apply Hfree; [left | now right | now apply F1 | now apply F2]. }
    f_equal. apply IH; auto.
    + now apply Permutation_cons_inv in Hp.
    + intros r r' Hr Hr'. apply Hfree; now right.
Qed.

Lemma eval_groups_agree q d1 d2 keys groups :
  frame_agree d1 d2 -> trend_free q ->
  duckdb.eval_groups d1 keys (duckdb.select q) groups
  = duckdb.eval_groups d2 keys (duckdb.select q) groups.
Proof.
  intros Hd [_ Hsel]. induction groups as [|k groups IH]; simpl; [reflexivity|].
  now rewrite (eval_aggregates_agree d1 d2 _ _ Hd Hsel), IH.
Qed.

Lemma run_agree q d1 d2 o1 o2 :
  frame_agree d1 d2 -> trend_free q ->
  match duckdb.run q d1 o1, duckdb.run q d2 o2 with
  | Ok t1, Ok t2 => same_table q t1 t2
  | Raise e1, Raise e2 => e1 = e2
  | _, _ => False
  end.
Proof.
  intros Hd Hq. unfold duckdb.run. rewrite (proj2 Hd _ (proj1 Hq)).
  destruct (pd.column (duckdb.group_by q) d2) as [[| |keys|]|]; try reflexivity.
  destruct (duckdb.alias_index _ _) as [i|] eqn:Hi; [|reflexivity].
  rewrite (eval_groups_agree q d1 d2 keys _ Hd Hq).
  destruct (duckdb.eval_groups d2 keys (duckdb.select q) (duckdb.distinct [] keys))
    as [rows|e]; simpl; [|reflexivity].
  split.
  - now rewrite !merge_sort_Permutation, !arrange_Permutation.
  - intros i' E. assert (i' = i) as -> by congruence.
    split; apply (StronglySorted_merge_sort _).
Qed.

Lemma agree_execute l q :
  trend_free q -> agree (same_table q) (duckdb.execute l q) (duckdb.execute l q).
Proof.
  intros Hq. unfold duckdb.execute. eapply agree_bind; [apply agree_deref|].
  intros d1 d2 Hd w1 w2 Hw. unfold bind, get_engine, lift, put_engine, ret.
  pose proof (run_agree q d1 d2 (emission (engine w1) (executed (engine w1)))
                (emission (engine w2) (executed (engine w2))) Hd Hq) as H.
  destruct (duckdb.run q d1 _) as [t1|e1], (duckdb.run q d2 _) as [t2|e2];
    try contradiction; split; auto.
Qed.

Lemma df_Permutation t1 t2 : t1 ≡ₚ t2 -> duckdb.df t1 ≡ₚ duckdb.df t2.
Proof. intros H. unfold duckdb.df. now rewrite H. Qed.

Lemma agree_execute_df l q i :
  trend_free q ->
  duckdb.alias_index (fst (duckdb.order_by q)) (duckdb.select q) = Some i ->
  agree (same_summary (snd (duckdb.order_by q)) i)
        (duckdb.execute_df l q) (duckdb.execute_df l q).
Proof.
  intros Hq Hi. unfold duckdb.execute_df.
  eapply agree_bind; [apply agree_execute; exact Hq|].
  intros t1 t2 [Hp Ho]. destruct (Ho i Hi) as [O1 O2].
  apply agree_ret. exists t1, t2. repeat split; auto.
  intros Hfree. now rewrite (ordered_unique _ _ t1 t2 Hp O1 O2 Hfree).
Qed.

Ltac trend_free_query :=
  split;
  [ not_an_output
  | simpl;
    repeat (apply List.Forall_cons;
            [ let Hc := fresh in
              simpl; intros ? Hc;
              first [ destruct Hc as [<-|[]]; not_an_output | destruct Hc ] | ]);
    apply List.Forall_nil ].

Ltac agree_prim :=
  first [ apply agree_copy
        | apply agree_getitem; not_an_output
        | apply agree_lift
        | apply agree_get_session
        | apply agree_getitem_mask
        | apply agree_setitem; [reflexivity | left; reflexivity] ].

Ltac agree_step :=
  eapply agree_bind; [agree_prim | intros ? ? ?; subst].

Lemma agree_calculate_advanced_metrics l :
  agree eq (Interactive.calculate_advanced_metrics l) (Interactive.calculate_advanced_metrics l).
Proof.
  unfold Interactive.calculate_advanced_metrics.
  repeat agree_step.
  eapply agree_bind; [apply agree_deref|]. intros d1 d2 Hd.
  unfold pd.len. rewrite (proj1 Hd).
  eapply agree_bind; [apply agree_random_choice|]. intros t1 t2 Ht.
  eapply agree_bind; [apply agree_setitem; [exact Ht | right; simpl; tauto]|]. intros _ _ _.
  eapply agree_bind; [apply agree_deref|]. intros d1' d2' Hd'.
  unfold pd.len. rewrite (proj1 Hd').
  eapply agree_bind; [apply agree_random_uniform|]. intros u1 u2 Hu.
  eapply agree_bind; [apply agree_setitem; [exact Hu | right; simpl; tauto]|]. intros _ _ _.
  now apply agree_ret.
Qed.

Lemma agree_get_performance_metrics self :
  agree (fun m1 m2 => computed m1 = computed m2)
        (Interactive.get_performance_metrics self)
        (Interactive.get_performance_metrics self).
Proof.
  unfold Interactive.get_performance_metrics.
  repeat agree_step.
  eapply agree_bind; [apply agree_random_choice1|]. intros r1 r2 _.
  eapply agree_bind; [apply agree_random_choice1|]. intros o1 o2 _.
  eapply agree_bind; [apply agree_random_choice1|]. intros t1 t2 _.
  now apply agree_ret.
Qed.

Lemma agree_get_advanced_analytics self :
  agree same_analytics
        (Interactive.get_advanced_analytics self) (Interactive.get_advanced_analytics self).
Proof.
  unfold Interactive.get_advanced_analytics.
  eapply agree_bind;
    [apply (agree_execute_df _ Interactive.product_performance_query 0);
       [trend_free_query | reflexivity]|].
  intros p1 p2 H1.
  eapply agree_bind;
    [apply (agree_execute_df _ Interactive.location_efficiency_query 2);
       [trend_free_query | reflexivity]|].
  intros q1 q2 H2.
  eapply agree_bind;
    [apply (agree_execute_df _ Interactive.supplier_risk_query 0);
       [trend_free_query | reflexivity]|].
  intros r1 r2 H3.
  eapply agree_bind;
    [apply (agree_execute_df _ Interactive.transportation_analysis_query 0);
       [trend_free_query | reflexivity]|].
  intros s1 s2 H4.
  apply agree_ret. repeat split; assumption.
Qed.

Lemma agree_enrich_then_aggregate raw :
  agree same_but_trends_and_ties (enrich_then_aggregate raw) (enrich_then_aggregate raw).
Proof.
  unfold enrich_then_aggregate.
  eapply agree_bind; [apply agree_calculate_advanced_metrics|]. intros ? ? ->.
  eapply agree_bind; [apply agree_get_performance_metrics|]. intros m1 m2 Hm.
  eapply agree_bind; [apply agree_get_advanced_analytics|]. intros x1 x2 Ha.
  apply agree_ret. split; assumption.
Qed.

(** C3 (as amended).  Two runs of the pipeline on the same heap and the
    same session, whatever the states of the random generator and of the
    engine, end the same way: either both raise the same exception, or both
    return, the same computed metrics and, summary by summary, the same
    groups with the same values in the order of the query.  The simulated
    trends may differ, and so may the order of groups that tie on the
    ORDER BY column: a summary without ties is the same in both runs. *)
Theorem pipeline_deterministic_up_to_trends_and_ties raw w1 w2 :
  heap w1 = heap w2 -> session_state w1 = session_state w2 ->
  match enrich_then_aggregate raw w1, enrich_then_aggregate raw w2 with
  | (Ok o1, _), (Ok o2, _) => same_but_trends_and_ties o1 o2
  | (Raise e1, _), (Raise e2, _) => e1 = e2
  | _, _ => False
  end.
Proof.
  intros Hh Hs.
  pose proof (agree_enrich_then_aggregate raw w1 w2 (world_agree_refl w1 w2 Hh Hs)) as H.
  destruct (enrich_then_aggregate raw w1) as [[o1|e1] w1'],
           (enrich_then_aggregate raw w2) as [[o2|e2] w2']; tauto.
Qed.

Lemma pipeline_deterministic_up_to_trends_and_ties_witness :
  match enrich_then_aggregate 0%nat (world_of small_frame),
        enrich_then_aggregate 0%nat
          (set_engine swapping (set_random halving (world_of small_frame))) with
  | (Ok o1, _), (Ok o2, _) => same_but_trends_and_ties o1 o2
  | (Raise e1, _), (Raise e2, _) => e1 = e2
  | _, _ => False
  end.
Proof.
  apply (pipeline_deterministic_up_to_trends_and_ties 0%nat (world_of small_frame)
           (set_engine swapping (set_random halving (world_of small_frame)))); reflexivity.
Defined.

(** C3 as stated fails.  Two runs on the same frame that start from
    different states of the generator report different trends; and two
    runs that differ in the order of emission of the engine alone return
    the two suppliers, which tie on their average defect rate, in
    different orders. *)
Lemma pipeline_randomness_counterexample :
  (exists o1 o2,
     result_value (enrich_then_aggregate 0%nat (world_of small_frame)) = Some o1 /\
     result_value (enrich_then_aggregate 0%nat (set_random halving (world_of small_frame)))
     = Some o2 /\
     Interactive.revenue_trend o1.1 = "down" /\
     Interactive.revenue_trend o2.1 = "stable" /\
     o1 <> o2) /\
  (exists o1 o2,
     result_value (enrich_then_aggregate 0%nat (world_of small_frame)) = Some o1 /\
     result_value (enrich_then_aggregate 0%nat (set_engine swapping (world_of small_frame)))
     = Some o2 /\
     map duckdb.group_key (Interactive.supplier_risk o1.2) = ["S"; "T"] /\
     map duckdb.group_key (Interactive.supplier_risk o2.2) = ["T"; "S"] /\
     o1 <> o2).
Proof.
  split.
  - eexists _, _. split; [vm_compute; reflexivity|]. split; [vm_compute; reflexivity|].
    split; [reflexivity|]. split; [reflexivity|]. intros [=].
  - eexists _, _. split; [vm_compute; reflexivity|]. split; [vm_compute; reflexivity|].
    split; [reflexivity|]. split; [reflexivity|]. intros [=].
Qed.

(* ===================================================================== *)
(** * The score of a row                                                   *)
(* ===================================================================== *)

(** Row by row, the column arithmetic of the performance score is the
    formula [score] of the row's three values and the three column
    maxima. *)
Lemma performance_scores_lookup rev lt dr i r t x :
  rev !! i = Some r -> lt !! i = Some t -> dr !! i = Some x ->
  performance_scores rev lt dr !! i
  = Some (score (pd.nanmax rev) (pd.nanmax lt) (pd.nanmax dr) r t x).
Proof.
  intros Hr Ht Hx.
  unfold performance_scores, revenue_term, penalty_term, share_of_max, score.
  rewrite list_lookup_fmap, !lookup_zip_with, !list_lookup_fmap, Hr, Ht, Hx.
  reflexivity.
Qed.

(** A column of zeros has maximum 0, and a row of it takes 0/0 into its
    score: the score is NaN whatever the other two terms are. *)
Lemma score_nan_when_maximum_is_zero a b c d s s' :
  score (S754_zero s) a b (S754_zero s') c d = B64.nan /\
  score a (S754_zero s) b c (S754_zero s') d = B64.nan /\
  score a b (S754_zero s) c d (S754_zero s') = B64.nan.
Proof.
  assert (forall x, B64.add x S754_nan = S754_nan) as Ea by (intros []; reflexivity).
  assert (forall x, B64.sub x S754_nan = S754_nan) as Es by (intros []; reflexivity).
  assert (forall x, B64.mul S754_nan x = S754_nan) as Em by reflexivity.
  assert (forall x, B64.add S754_nan x = S754_nan) as Ea' by reflexivity.
  unfold score.
  replace (B64.div (S754_zero s') (S754_zero s)) with S754_nan by reflexivity.
  rewrite ?Es, ?Em, ?Ea, ?Ea', ?Em. auto.
Qed.

(* ===================================================================== *)
(** * Multiplying by a power of two                                        *)
(* ===================================================================== *)

Lemma shr_52 m :
  SpecFloat.iter_pos shr_1 52
    {| shr_m := Z.pos (4503599627370496 * m); shr_r := false; shr_s := false |}
  = {| shr_m := Z.pos m; shr_r := false; shr_s := false |}.
Proof. reflexivity. Qed.

Lemma digits_shift_52 m :
  digits2_pos (m * 4503599627370496) = (digits2_pos m + 52)%positive.
Proof.
  rewrite Pos.mul_comm. change (4503599627370496 * m)%positive with (Pos.iter xO m 52).
  cbn. lia.
Qed.

(** Multiplying by the double [2^k] adds [k] to the exponent. *)
Lemma mul_pow2 k x : scales_exactly k x -> B64.mul x (pow2 k) = B64.scale2 k x.
Proof.
  destruct x as [s|s| |s m e]; try (intros _; simpl; now rewrite ?xorb_false_r).
  intros (Hd & He & Hk).
  unfold B64.mul, pow2, B64.scale2, SFmul. rewrite xorb_false_r.
  unfold binary_round_aux.
  assert (shr_fexp B64.prec B64.emax (Z.pos (m * 4503599627370496)) (e + (k - 52)) loc_Exact
          = ({| shr_m := Z.pos m; shr_r := false; shr_s := false |}, (e + k)%Z)) as ->.
  { unfold shr_fexp. cbn [Zdigits2]. rewrite digits_shift_52.
    replace (fexp B64.prec B64.emax (Z.pos (digits2_pos m + 52) + (e + (k - 52)))
             - (e + (k - 52)))%Z with 52%Z
      by (unfold fexp, emin, B64.prec, B64.emax; lia).
    unfold shr. cbn [shr_record_of_loc]. rewrite (Pos.mul_comm m), shr_52. f_equal. lia. }
  cbn [shr_m loc_of_shr_record round_nearest_even].
  assert (shr_fexp B64.prec B64.emax (Z.pos m) (e + k) loc_Exact
          = ({| shr_m := Z.pos m; shr_r := false; shr_s := false |}, (e + k)%Z)) as ->.
  { unfold shr_fexp. cbn [Zdigits2].
    replace (fexp B64.prec B64.emax (Z.pos (digits2_pos m) + (e + k)) - (e + k))%Z with 0%Z
      by (unfold fexp, emin, B64.prec, B64.emax; lia).
    reflexivity. }
  cbn [shr_m]. unfold B64.emax, B64.prec.
  destruct (Z.leb_spec (e + k) (1024 - 53)); [reflexivity | lia].
Qed.

Lemma numbers_rescale_eq f c d : numbers c (rescale f c d) = map f (numbers c d).
Proof. unfold rescale, numbers at 1. now rewrite column_with_column_eq. Qed.

Lemma numbers_rescale_ne f c c' d : c' <> c -> numbers c' (rescale f c d) = numbers c' d.
Proof. intros H. unfold rescale, numbers. now rewrite column_with_column_ne. Qed.

Lemma has_numeric_rescale f c c' d : has_numeric d c' -> has_numeric (rescale f c d) c'.
Proof.
  intros (s & Hs & Hn). unfold rescale. destruct (decide (c' = c)) as [->|Hne].
  - eexists. rewrite column_with_column_eq. split; [reflexivity | exact I].
  - exists s. now rewrite column_with_column_ne.
Qed.

Lemma wf_rescale f c d : pd.wf d -> has_numeric d c -> pd.wf (rescale f c d).
Proof.
  intros Hwf Hc. apply wf_with_column; [exact Hwf|].
  simpl. rewrite length_map. now apply numbers_length.
Qed.

Lemma performance_score_column d pm tsc g :
  pd.column "Performance_Score" (advanced_frame d pm tsc g)
  = Some (Float64 (performance_scores (numbers "Revenue generated" d)
                     (numbers "Lead times" d) (numbers "Defect rates" d))).
Proof. unfold advanced_frame, scored_frame. solve_column. Qed.

Lemma performance_score_result w l d :
  heap w !! l = Some d -> pd.wf d -> Forall (has_numeric d) advanced_inputs ->
  result_column "Performance_Score" (Interactive.calculate_advanced_metrics l w)
  = Some (Float64 (performance_scores (numbers "Revenue generated" d)
                     (numbers "Lead times" d) (numbers "Defect rates" d))).
Proof.
  intros Hl Hwf Hin.
  destruct (advanced_run w l d Hl Hwf Hin) as (pm & tsc & _ & _ & ->).
  unfold result_column. cbn [heap set_random set_heap].
  rewrite lookup_top. apply performance_score_column.
Qed.

(* ===================================================================== *)
(** * Rescaling by any factor that multiplies exactly                      *)
(* ===================================================================== *)

(** The division of two binary64 numbers computes the correctly rounded
    quotient from nothing but the fraction of their two values: a common
    factor of dividend and divisor, as long as it is applied without
    rounding, does not show in the quotient.  The proof follows the
    algorithm of [SFdiv]: the integer quotient it takes first, with the
    two bits that record what was cut off, and the shift that rounds it to
    53 bits. *)

Section ExactRescaling.

Local Open Scope Z_scope.

Lemma div_same_fraction a b a' b' :
  0 <= a -> 0 < b -> 0 <= a' -> 0 < b' -> a * b' = a' * b -> a / b = a' / b'.
Proof.
  intros Ha Hb Ha' Hb' E.
  pose proof (Z.div_mod a b ltac:(lia)) as D. pose proof (Z.mod_pos_bound a b Hb) as R.
  apply (Z.div_unique a' b' (a / b) (a' - b' * (a / b))); [|lia].
  left. split; nia.
Qed.

Lemma mod_same_fraction a b a' b' :
  0 <= a -> 0 < b -> 0 <= a' -> 0 < b' -> a * b' = a' * b ->
  (a mod b) * b' = (a' mod b') * b.
Proof.
  intros Ha Hb Ha' Hb' E.
  pose proof (div_same_fraction a b a' b' Ha Hb Ha' Hb' E) as Q.
  rewrite !Z.mod_eq by lia. rewrite <- Q. nia.
Qed.

Lemma twice_mod_zero r b :
  0 <= r < b -> (2 * r mod b =? 0) = (r =? 0) || (2 * r =? b).
Proof.
  intros H.
  destruct (Z.eqb_spec r 0) as [->|Hr]; [now rewrite Z.mod_0_l by lia|].
  destruct (Z.eqb_spec (2 * r) b) as [E|Hb].
  - rewrite E, Z.mod_same by lia. reflexivity.
  - simpl. apply Z.eqb_neq. destruct (Z_lt_le_dec (2 * r) b).
    + rewrite Z.mod_small by lia. lia.
    + replace (2 * r) with (2 * r - b + 1 * b) by lia.
      rewrite Z.mod_add by lia. rewrite Z.mod_small by lia. lia.
Qed.

Lemma trunc_record_fraction a b a' b' :
  0 <= a -> 0 < b -> 0 <= a' -> 0 < b' -> a * b' = a' * b ->
  B64.trunc_record a b = B64.trunc_record a' b'.
Proof.
  intros Ha Hb Ha' Hb' E. unfold B64.trunc_record.
  pose proof (div_same_fraction a b a' b' Ha Hb Ha' Hb' E) as Q.
  pose proof (mod_same_fraction a b a' b' Ha Hb Ha' Hb' E) as M.
  pose proof (Z.mod_pos_bound a b Hb) as R. pose proof (Z.mod_pos_bound a' b' Hb') as R'.
  rewrite Q. f_equal.
  - destruct (Z.leb_spec b (2 * (a mod b))), (Z.leb_spec b' (2 * (a' mod b'))); try reflexivity; nia.
  - rewrite !twice_mod_zero by assumption. f_equal.
    destruct (Z.eqb_spec (a mod b) 0), (Z.eqb_spec (a' mod b') 0),
      (Z.eqb_spec (2 * (a mod b)) b), (Z.eqb_spec (2 * (a' mod b')) b'); try reflexivity; nia.
Qed.

Lemma shr_1_spec m r s :
  0 <= m ->
  shr_1 {| shr_m := m; shr_r := r; shr_s := s |}
  = {| shr_m := m / 2; shr_r := Z.odd m; shr_s := r || s |}.
Proof.
  intros Hm. unfold shr_1. cbn [shr_m shr_r shr_s].
  destruct m as [|p|p]; [reflexivity| |lia].
  destruct p as [p|p|].
  - f_equal. rewrite Pos2Z.inj_xI. apply (Z.div_unique _ 2 _ 1); lia.
  - f_equal. rewrite Pos2Z.inj_xO. apply (Z.div_unique _ 2 _ 0); lia.
  - reflexivity.
Qed.

Lemma shr_1_trunc_record a b :
  0 <= a -> 0 < b -> shr_1 (B64.trunc_record a b) = B64.trunc_record a (2 * b).
Proof.
  intros Ha Hb. unfold B64.trunc_record at 1.
  rewrite shr_1_spec by (apply Z.div_pos; lia).
  unfold B64.trunc_record.
  pose proof (Z.div_mod a b ltac:(lia)) as D. pose proof (Z.mod_pos_bound a b Hb) as R.
  set (q := a / b) in *. set (r := a mod b) in *.
  pose proof (Z.div_mod q 2 ltac:(lia)) as D2. pose proof (Z.mod_pos_bound q 2 ltac:(lia)) as R2.
  assert (0 <= q) as Hq by (apply Z.div_pos; lia).
  assert (a / (2 * b) = q / 2) as E1.
  { symmetry. apply (Z.div_unique a (2 * b) (q / 2) (b * (q mod 2) + r)); [left; nia | nia]. }
  assert (a mod (2 * b) = b * (q mod 2) + r) as E2.
  { symmetry. apply (Z.mod_unique a (2 * b) (q / 2) (b * (q mod 2) + r)); [left; nia | nia]. }
  rewrite E1, E2. clear E1 E2 D2. rewrite (Zmod_odd q) in *. f_equal.
  - destruct (Z.odd q);
      destruct (Z.leb_spec (2 * b) (2 * (b * (if true then 1 else 0) + r)));
      destruct (Z.leb_spec (2 * b) (2 * (b * (if false then 1 else 0) + r)));
      try reflexivity; lia.
  - rewrite !twice_mod_zero by (destruct (Z.odd q); nia).
    destruct (Z.odd q).
    + destruct (Z.leb_spec b (2 * r)), (Z.eqb_spec r 0), (Z.eqb_spec (2 * r) b),
        (Z.eqb_spec (b * 1 + r) 0), (Z.eqb_spec (2 * (b * 1 + r)) (2 * b));
        simpl; try reflexivity; lia.
    + replace (b * 0 + r) with r by lia.
      destruct (Z.leb_spec b (2 * r)), (Z.eqb_spec r 0), (Z.eqb_spec (2 * r) b),
        (Z.eqb_spec (2 * r) (2 * b)); simpl; try reflexivity; lia.
Qed.

Lemma iter_shr_1_trunc_record p a b :
  0 <= a -> 0 < b ->
  SpecFloat.iter_pos shr_1 p (B64.trunc_record a b) = B64.trunc_record a (b * 2 ^ Z.pos p).
Proof.
  revert b. induction p as [p IH|p IH|]; intros b Ha Hb; cbn [SpecFloat.iter_pos].
  - rewrite shr_1_trunc_record, !IH by (try apply Z.mul_pos_pos; lia).
    f_equal. rewrite (Pos2Z.inj_xI p).
    replace (2 * Z.pos p + 1) with (Z.pos p + Z.pos p + 1) by lia.
    rewrite !Z.pow_add_r, Z.pow_1_r by lia. ring.
  - rewrite !IH by (try apply Z.mul_pos_pos; lia).
    f_equal. rewrite (Pos2Z.inj_xO p).
    replace (2 * Z.pos p) with (Z.pos p + Z.pos p) by lia.
    rewrite !Z.pow_add_r by lia. ring.
  - rewrite shr_1_trunc_record by lia. f_equal. lia.
Qed.

Lemma shr_record_of_new_location q m r :
  0 < m -> 0 <= r < m ->
  shr_record_of_loc q (new_location m r)
  = {| shr_m := q; shr_r := m <=? 2 * r; shr_s := negb (2 * r mod m =? 0) |}.
Proof.
  intros Hm Hr. rewrite twice_mod_zero by assumption.
  unfold new_location. destruct (Z.even m) eqn:Ev;
    [unfold new_location_even | unfold new_location_odd];
    (destruct (Z.eqb_spec r 0) as [->|Hr0];
     [replace (2 * 0) with 0 by lia; simpl; destruct (Z.leb_spec m 0); try lia; reflexivity|]).
  - destruct (Z.compare_spec (2 * r) m), (Z.leb_spec m (2 * r)), (Z.eqb_spec (2 * r) m);
      try lia; reflexivity.
  - assert (2 * r <> m) as Hne.
    { intros E. rewrite <- E, Z.even_mul in Ev. discriminate Ev. }
    destruct (Z.compare_spec (2 * r + 1) m), (Z.leb_spec m (2 * r)), (Z.eqb_spec (2 * r) m);
      try lia; reflexivity.
Qed.

Lemma digits2_pos_size p : digits2_pos p = Pos.size p.
Proof. induction p as [p IH|p IH|]; simpl; now rewrite ?IH. Qed.

Lemma Zdigits2_log2 q : 0 < q -> Zdigits2 q = Z.log2 q + 1.
Proof.
  destruct q as [|p|p]; try lia. intros _. simpl. rewrite digits2_pos_size.
  destruct p; simpl; lia.
Qed.

Lemma digits2_pos_bounds p :
  2 ^ (Z.pos (digits2_pos p) - 1) <= Z.pos p < 2 ^ Z.pos (digits2_pos p).
Proof.
  change (Z.pos (digits2_pos p)) with (Zdigits2 (Z.pos p)).
  rewrite Zdigits2_log2 by lia.
  pose proof (Z.log2_spec (Z.pos p) ltac:(lia)) as H.
  replace (Z.log2 (Z.pos p) + 1 - 1) with (Z.log2 (Z.pos p)) by lia.
  exact H.
Qed.

Lemma fexp_spec e : fexp B64.prec B64.emax e = Z.max (e - 53) (-1074).
Proof. reflexivity. Qed.

Lemma quotient_shift_nonneg m1 e1 m2 e2 : 0 <= B64.quotient_shift m1 e1 m2 e2.
Proof. unfold B64.quotient_shift, B64.quotient_exponent. lia. Qed.

Lemma SFdiv_core_binary_spec m1 e1 m2 e2 :
  SFdiv_core_binary B64.prec B64.emax (Z.pos m1) e1 (Z.pos m2) e2
  = (B64.first_quotient m1 e1 m2 e2, B64.quotient_exponent m1 e1 m2 e2,
     new_location (Z.pos m2)
       ((Z.pos m1 * 2 ^ B64.quotient_shift m1 e1 m2 e2) mod Z.pos m2)).
Proof.
  pose proof (quotient_shift_nonneg m1 e1 m2 e2) as Hs.
  unfold SFdiv_core_binary, B64.first_quotient.
  fold (B64.quotient_exponent m1 e1 m2 e2). fold (B64.quotient_shift m1 e1 m2 e2).
  set (s := B64.quotient_shift m1 e1 m2 e2) in *.
  assert (match s with
          | Z.pos _ => Z.shiftl (Z.pos m1) s
          | 0 => Z.pos m1
          | Z.neg _ => 0
          end = Z.pos m1 * 2 ^ s) as ->.
  { destruct s as [|p|p]; [lia | now rewrite Z.shiftl_mul_pow2 by lia | lia]. }
  unfold Z.div, Z.modulo.
  now destruct (Z.div_eucl (Z.pos m1 * 2 ^ s) (Z.pos m2)).
Qed.

Lemma first_quotient_large m1 e1 m2 e2 :
  -1074 < B64.quotient_exponent m1 e1 m2 e2 -> 2 ^ 52 <= B64.first_quotient m1 e1 m2 e2.
Proof.
  intros He. pose proof (quotient_shift_nonneg m1 e1 m2 e2) as Hs.
  unfold B64.first_quotient, B64.quotient_shift in *.
  set (e' := B64.quotient_exponent m1 e1 m2 e2) in *.
  pose proof (digits2_pos_bounds m1) as [L1 _].
  pose proof (digits2_pos_bounds m2) as [_ U2].
  set (d1 := Z.pos (digits2_pos m1)) in *. set (d2 := Z.pos (digits2_pos m2)) in *.
  assert (0 < d1 /\ 0 < d2) as [P1 P2] by (unfold d1, d2; lia).
  assert (d2 + 53 <= d1 + (e1 - e2 - e')) as Hd.
  { unfold e', B64.quotient_exponent in *. rewrite fexp_spec in *. cbn [Zdigits2] in *.
    fold d1 d2 in He |- *. lia. }
  apply Z.div_le_lower_bound; [lia|].
  assert (Z.pos m2 * 2 ^ 52 <= 2 ^ (d2 + 52)) as H1.
  { rewrite Z.pow_add_r by lia. apply Z.mul_le_mono_nonneg_r; [apply Z.pow_nonneg|]; lia. }
  assert (2 ^ (d1 - 1 + (e1 - e2 - e')) <= Z.pos m1 * 2 ^ (e1 - e2 - e')) as H2.
  { rewrite Z.pow_add_r by lia. apply Z.mul_le_mono_nonneg_r; [apply Z.pow_nonneg|]; lia. }
  assert (2 ^ (d2 + 52) <= 2 ^ (d1 - 1 + (e1 - e2 - e'))) as H3
    by (apply Z.pow_le_mono_r; lia).
  lia.
Qed.

Lemma Zdigits2_large q : 2 ^ 52 <= q -> 53 <= Zdigits2 q.
Proof.
  intros H. rewrite Zdigits2_log2 by lia.
  pose proof (Z.log2_le_mono _ _ H) as L. rewrite Z.log2_pow2 in L by lia. lia.
Qed.

Lemma first_quotient_nonneg m1 e1 m2 e2 : 0 <= B64.first_quotient m1 e1 m2 e2.
Proof.
  unfold B64.first_quotient. apply Z.div_pos; [|lia].
  apply Z.mul_nonneg_nonneg; [lia | apply Z.pow_nonneg; lia].
Qed.

Lemma Zdigits2_nonneg q : 0 <= q -> 0 <= Zdigits2 q.
Proof. destruct q; simpl; lia. Qed.

Lemma rounding_exponent_ge m1 e1 m2 e2 :
  B64.quotient_exponent m1 e1 m2 e2 <= B64.rounding_exponent m1 e1 m2 e2.
Proof.
  unfold B64.rounding_exponent. rewrite fexp_spec.
  destruct (Z_le_gt_dec (B64.quotient_exponent m1 e1 m2 e2) (-1074)) as [|H]; [lia|].
  pose proof (Zdigits2_large _ (first_quotient_large m1 e1 m2 e2 ltac:(lia))). lia.
Qed.

Lemma shr_fexp_quotient m1 e1 m2 e2 :
  (let '(q, e', l) := SFdiv_core_binary B64.prec B64.emax (Z.pos m1) e1 (Z.pos m2) e2 in
   shr_fexp B64.prec B64.emax q e' l)
  = (B64.trunc_record (Z.pos m1 * 2 ^ B64.quotient_shift m1 e1 m2 e2)
       (Z.pos m2 * 2 ^ (B64.rounding_exponent m1 e1 m2 e2 - B64.quotient_exponent m1 e1 m2 e2)),
     B64.rounding_exponent m1 e1 m2 e2).
Proof.
  rewrite SFdiv_core_binary_spec. unfold shr_fexp.
  fold (B64.rounding_exponent m1 e1 m2 e2).
  pose proof (rounding_exponent_ge m1 e1 m2 e2) as Hge.
  pose proof (quotient_shift_nonneg m1 e1 m2 e2) as Hs.
  set (a := Z.pos m1 * 2 ^ B64.quotient_shift m1 e1 m2 e2).
  assert (0 <= a) as Ha by (apply Z.mul_nonneg_nonneg; [lia | apply Z.pow_nonneg; lia]).
  rewrite shr_record_of_new_location by (try apply Z.mod_pos_bound; lia).
  change {| shr_m := B64.first_quotient m1 e1 m2 e2;
            shr_r := Z.pos m2 <=? 2 * (a mod Z.pos m2);
            shr_s := negb (2 * (a mod Z.pos m2) mod Z.pos m2 =? 0) |}
    with (B64.trunc_record a (Z.pos m2)).
  unfold shr.
  destruct (B64.rounding_exponent m1 e1 m2 e2 - B64.quotient_exponent m1 e1 m2 e2) as [|p|p] eqn:E.
  - rewrite Z.mul_1_r. f_equal. lia.
  - rewrite iter_shr_1_trunc_record by lia. f_equal. lia.
  - lia.
Qed.

Lemma pow2_pos k : 0 < 2 ^ k \/ k < 0.
Proof. destruct (Z_lt_le_dec k 0); [now right | left; apply Z.pow_pos_nonneg; lia]. Qed.

Lemma first_quotient_of_scaled m1 e1 m2 e2 K :
  0 <= K + B64.quotient_exponent m1 e1 m2 e2 ->
  B64.first_quotient m1 e1 m2 e2
  = (Z.pos m1 * 2 ^ (e1 - e2 + K)) / Z.pos m2 / 2 ^ (K + B64.quotient_exponent m1 e1 m2 e2).
Proof.
  intros HK. pose proof (quotient_shift_nonneg m1 e1 m2 e2) as Hs.
  unfold B64.first_quotient. set (s := B64.quotient_shift m1 e1 m2 e2) in *.
  set (j := K + B64.quotient_exponent m1 e1 m2 e2) in *.
  replace (e1 - e2 + K) with (s + j) by (unfold s, j, B64.quotient_shift; lia).
  assert (0 < 2 ^ j) as Hj by (apply Z.pow_pos_nonneg; lia).
  rewrite Z.div_div by lia.
  rewrite Z.pow_add_r, Z.mul_assoc by lia.
  now rewrite Z.div_mul_cancel_r by lia.
Qed.

Lemma rounding_exponent_of_scaled m1 e1 m2 e2 K :
  0 <= K + B64.quotient_exponent m1 e1 m2 e2 ->
  B64.rounding_exponent m1 e1 m2 e2
  = let Y := (Z.pos m1 * 2 ^ (e1 - e2 + K)) / Z.pos m2 in
    if Y =? 0 then -1074 else Z.max (Z.log2 Y - K - 52) (-1074).
Proof.
  intros HK. cbv zeta. unfold B64.rounding_exponent. rewrite fexp_spec.
  rewrite (first_quotient_of_scaled m1 e1 m2 e2 K HK).
  set (Y := Z.pos m1 * 2 ^ (e1 - e2 + K) / Z.pos m2).
  set (e' := B64.quotient_exponent m1 e1 m2 e2) in *.
  assert (0 <= Y) as HY.
  { apply Z.div_pos; [|lia]. apply Z.mul_nonneg_nonneg; [lia|]. apply Z.pow_nonneg; lia. }
  assert (0 < 2 ^ (K + e')) as Hj by (apply Z.pow_pos_nonneg; lia).
  assert (0 <= Y / 2 ^ (K + e')) as Hq by (apply Z.div_pos; lia).
  assert (Y / 2 ^ (K + e') = 0 -> e' <= -1074) as Hsmall.
  { intros E. destruct (Z_le_gt_dec e' (-1074)) as [|H]; [assumption|].
    pose proof (first_quotient_large m1 e1 m2 e2 ltac:(fold e'; lia)) as L.
    rewrite (first_quotient_of_scaled m1 e1 m2 e2 K HK) in L. fold Y e' in L.
    rewrite E in L. assert (0 < 2 ^ 52) by (apply Z.pow_pos_nonneg; lia). lia. }
  destruct (Z.eqb_spec Y 0) as [E0|HY0].
  { rewrite E0, Z.div_0_l by lia. simpl Zdigits2.
    specialize (Hsmall ltac:(rewrite E0; apply Z.div_0_l; lia)). lia. }
  destruct (Z.eq_dec (Y / 2 ^ (K + e')) 0) as [E|Hne].
  - specialize (Hsmall E). rewrite E. simpl Zdigits2.
    apply Z.div_small_iff in E; [|lia]. destruct E as [[_ E]|E]; [|lia].
    apply Z.log2_lt_pow2 in E; lia.
  - rewrite Zdigits2_log2 by lia.
    rewrite <- Z.shiftr_div_pow2, Z.log2_shiftr by lia.
    assert (2 ^ (K + e') <= Y) as Hle.
    { destruct (Z_lt_le_dec Y (2 ^ (K + e'))) as [Hlt|]; [|assumption].
      rewrite Z.div_small in Hne by lia. congruence. }
    apply Z.log2_le_pow2 in Hle; lia.
Qed.

Lemma pow2_cross A B u v c c' :
  0 <= u + c -> 0 <= v + c -> 0 <= u + c' -> 0 <= v + c' ->
  A * 2 ^ (u + c) = B * 2 ^ (v + c) -> A * 2 ^ (u + c') = B * 2 ^ (v + c').
Proof.
  intros Hu Hv Hu' Hv' E. destruct (Z_le_gt_dec c c') as [Hc|Hc].
  - replace (u + c') with (u + c + (c' - c)) by lia.
    replace (v + c') with (v + c + (c' - c)) by lia.
    rewrite (Z.pow_add_r 2 (u + c)), (Z.pow_add_r 2 (v + c)), !Z.mul_assoc by lia.
    now rewrite E.
  - assert (0 < 2 ^ (c - c')) as Hp by (apply Z.pow_pos_nonneg; lia).
    apply (Z.mul_cancel_r _ _ (2 ^ (c - c'))); [lia|].
    rewrite <- !Z.mul_assoc, <- (Z.pow_add_r 2 (u + c')), <- (Z.pow_add_r 2 (v + c')) by lia.
    replace (u + c' + (c - c')) with (u + c) by lia.
    replace (v + c' + (c - c')) with (v + c) by lia. exact E.
Qed.

Lemma mul_pow2_pair x y a b :
  0 <= a -> 0 <= b -> x * 2 ^ a * (y * 2 ^ b) = x * y * 2 ^ (a + b).
Proof. intros Ha Hb. rewrite Z.pow_add_r by lia. ring. Qed.

Section SameFraction.

Variables (m1 m2 m1' m2' : positive) (e1 e2 e1' e2' : Z).
Hypothesis He1 : -1074 <= e1.
Hypothesis He2 : -1074 <= e2.
Hypothesis He1' : -1074 <= e1'.
Hypothesis He2' : -1074 <= e2'.
Hypothesis Hfraction :
  Z.pos m1 * Z.pos m2' * 2 ^ (e1 + e2' + 2148)
  = Z.pos m1' * Z.pos m2 * 2 ^ (e1' + e2 + 2148).

Lemma same_rounding_exponent :
  B64.rounding_exponent m1 e1 m2 e2 = B64.rounding_exponent m1' e1' m2' e2'.
Proof using All.
  assert (Z.pos m1 * 2 ^ (e1 - e2 + (3222 + e2 + e2')) / Z.pos m2
          = Z.pos m1' * 2 ^ (e1' - e2' + (3222 + e2 + e2')) / Z.pos m2') as E.
  { apply div_same_fraction; try lia;
      try (apply Z.mul_nonneg_nonneg; [lia | apply Z.pow_nonneg; lia]).
    replace (e1 - e2 + (3222 + e2 + e2')) with (e1 + e2' + 3222) by lia.
    replace (e1' - e2' + (3222 + e2 + e2')) with (e1' + e2 + 3222) by lia.
    rewrite <- Z.mul_assoc, (Z.mul_comm (2 ^ _) (Z.pos m2')), Z.mul_assoc.
    rewrite <- (Z.mul_assoc (Z.pos m1')), (Z.mul_comm (2 ^ _) (Z.pos m2)), Z.mul_assoc.
    apply (pow2_cross _ _ _ _ 2148); first [lia | exact Hfraction]. }
  rewrite (rounding_exponent_of_scaled m1 e1 m2 e2 (3222 + e2 + e2')),
          (rounding_exponent_of_scaled m1' e1' m2' e2' (3222 + e2 + e2')).
  - cbv zeta. now rewrite E.
  - unfold B64.quotient_exponent. rewrite fexp_spec. lia.
  - unfold B64.quotient_exponent. rewrite fexp_spec. lia.
Qed.

Lemma same_trunc_record :
  B64.trunc_record (Z.pos m1 * 2 ^ B64.quotient_shift m1 e1 m2 e2)
    (Z.pos m2 * 2 ^ (B64.rounding_exponent m1 e1 m2 e2 - B64.quotient_exponent m1 e1 m2 e2))
  = B64.trunc_record (Z.pos m1' * 2 ^ B64.quotient_shift m1' e1' m2' e2')
      (Z.pos m2' * 2 ^ (B64.rounding_exponent m1' e1' m2' e2' - B64.quotient_exponent m1' e1' m2' e2')).
Proof using All.
  rewrite <- same_rounding_exponent.
  pose proof (rounding_exponent_ge m1 e1 m2 e2) as G.
  pose proof (rounding_exponent_ge m1' e1' m2' e2') as G'.
  rewrite <- same_rounding_exponent in G'.
  pose proof (quotient_shift_nonneg m1 e1 m2 e2) as S.
  pose proof (quotient_shift_nonneg m1' e1' m2' e2') as S'.
  set (t := B64.rounding_exponent m1 e1 m2 e2) in *.
  unfold B64.quotient_shift in *.
  set (ea := B64.quotient_exponent m1 e1 m2 e2) in *.
  set (eb := B64.quotient_exponent m1' e1' m2' e2') in *.
  assert (forall k, 0 <= k -> 0 < 2 ^ k) as Hpos by (intros; apply Z.pow_pos_nonneg; lia).
  apply trunc_record_fraction;
    try (apply Z.mul_pos_pos; [lia | apply Hpos; lia]);
    try (apply Z.mul_nonneg_nonneg; [lia | apply Z.pow_nonneg; lia]).
  rewrite !mul_pow2_pair by lia.
  rewrite (Z.mul_comm (Z.pos m1') (Z.pos m2)), (Z.mul_comm (Z.pos m2) (Z.pos m1')).
  replace (e1 - e2 - ea + (t - eb)) with (e1 + e2' + (t - ea - eb - e2 - e2')) by lia.
  replace (e1' - e2' - eb + (t - ea)) with (e1' + e2 + (t - ea - eb - e2 - e2')) by lia.
  apply (pow2_cross _ _ _ _ 2148); first [lia | exact Hfraction].
Qed.

(** Two divisions of fractions that denote the same rational number round
    to the same binary64 value. *)
Lemma SFdiv_same_fraction s1 s2 :
  SFdiv B64.prec B64.emax (S754_finite s1 m1 e1) (S754_finite s2 m2 e2)
  = SFdiv B64.prec B64.emax (S754_finite s1 m1' e1') (S754_finite s2 m2' e2').
Proof using All.
  unfold SFdiv.
  pose proof (shr_fexp_quotient m1 e1 m2 e2) as Ha.
  pose proof (shr_fexp_quotient m1' e1' m2' e2') as Hb.
  destruct (SFdiv_core_binary B64.prec B64.emax (Z.pos m1) e1 (Z.pos m2) e2) as [[qa ea] la].
  destruct (SFdiv_core_binary B64.prec B64.emax (Z.pos m1') e1' (Z.pos m2') e2') as [[qb eb] lb].
  unfold binary_round_aux. rewrite Ha, Hb, same_trunc_record, same_rounding_exponent.
  reflexivity.
Qed.

End SameFraction.

Lemma valid_finite s m e :
  B64.valid (S754_finite s m e) = true ->
  -1074 <= e <= 971 /\ Z.pos (digits2_pos m) <= 53 /\
  (-1074 < e -> Z.pos (digits2_pos m) = 53).
Proof.
  unfold B64.valid, valid_binary, bounded, canonical_mantissa.
  rewrite fexp_spec. unfold B64.emax, B64.prec.
  intros H. apply andb_true_iff in H as [H1 H2].
  apply Z.eqb_eq in H1. apply Z.leb_le in H2. lia.
Qed.

Lemma canonical_lt m1 e1 m2 e2 :
  B64.valid (S754_finite false m1 e1) = true ->
  B64.valid (S754_finite false m2 e2) = true ->
  e1 < e2 -> Z.pos m1 * 2 ^ (e1 + 1074) < Z.pos m2 * 2 ^ (e2 + 1074).
Proof.
  intros V1 V2 H.
  apply valid_finite in V1 as (B1 & D1 & _). apply valid_finite in V2 as (B2 & _ & D2).
  specialize (D2 ltac:(lia)).
  pose proof (digits2_pos_bounds m1) as [_ U1]. pose proof (digits2_pos_bounds m2) as [L2 _].
  rewrite D2 in L2. change (53 - 1) with 52 in L2.
  assert (Z.pos m1 < 2 ^ 53) as U.
  { eapply Z.lt_le_trans; [exact U1|]. apply Z.pow_le_mono_r; lia. }
  assert (0 < 2 ^ (e1 + 1074)) as P1 by (apply Z.pow_pos_nonneg; lia).
  assert (2 ^ (e2 + 1074) = 2 ^ (e1 + 1074) * 2 ^ (e2 - e1)) as ->
    by (rewrite <- Z.pow_add_r by lia; f_equal; lia).
  assert (2 ^ 1 <= 2 ^ (e2 - e1)) as P2 by (apply Z.pow_le_mono_r; lia).
  change (2 ^ 1) with 2 in P2. change (2 ^ 53) with (2 * 2 ^ 52) in U.
  set (T := 2 ^ 52) in *. set (P := 2 ^ (e1 + 1074)) in *. set (Q := 2 ^ (e2 - e1)) in *.
  assert (Z.pos m1 * P < 2 * T * P) as S1 by (apply Z.mul_lt_mono_pos_r; lia).
  assert (2 * T * P <= Q * Z.pos m2 * P) as S2.
  { apply Z.mul_le_mono_nonneg_r; [lia|]. apply Z.mul_le_mono_nonneg; lia. }
  lia.
Qed.

Lemma compare_canonical m1 e1 m2 e2 :
  B64.valid (S754_finite false m1 e1) = true ->
  B64.valid (S754_finite false m2 e2) = true ->
  match e1 ?= e2 with
  | Eq => Pos.compare_cont Eq m1 m2
  | Lt => Lt
  | Gt => Gt
  end = (Z.pos m1 * 2 ^ (e1 + 1074) ?= Z.pos m2 * 2 ^ (e2 + 1074)).
Proof.
  intros V1 V2. destruct (Z.compare_spec e1 e2) as [->|H|H].
  - pose proof (valid_finite _ _ _ V2) as (B & _).
    assert (0 < 2 ^ (e2 + 1074)) as P by (apply Z.pow_pos_nonneg; lia).
    rewrite <- Zmult_compare_compat_r by lia. reflexivity.
  - symmetry. apply Z.compare_lt_iff. now apply canonical_lt.
  - symmetry. apply Z.compare_gt_iff. now apply canonical_lt.
Qed.

Lemma valid_sign s s' m e :
  B64.valid (S754_finite s m e) = B64.valid (S754_finite s' m e).
Proof. reflexivity. Qed.

(** On valid data the comparison of binary64 numbers is the comparison of
    their values. *)
Lemma SFcompare_units x y :
  B64.valid x = true -> B64.valid y = true ->
  B64.is_nan x = false -> B64.is_nan y = false ->
  SFcompare x y
  = Some (match B64.rank x ?= B64.rank y with
          | Eq => B64.units x ?= B64.units y
          | c => c
          end).
Proof.
  intros Vx Vy Nx Ny.
  assert (forall s m e, B64.valid (S754_finite s m e) = true ->
                        0 < Z.pos m * 2 ^ (e + 1074)) as P.
  { intros s m e V. apply valid_finite in V as (B & _).
    apply Z.mul_pos_pos; [lia | apply Z.pow_pos_nonneg; lia]. }
  destruct x as [sx|sx| |sx mx ex], y as [sy|sy| |sy my ey]; try discriminate;
    try (destruct sx; reflexivity); try (destruct sy; reflexivity);
    try (destruct sx, sy; reflexivity).
  - pose proof (P _ _ _ Vy) as Py. unfold SFcompare. cbn [B64.rank B64.units]. change (0 ?= 0) with Eq. cbv iota. f_equal.
    symmetry. destruct sy; cbn [cond_Zopp];
      [apply Z.compare_gt_iff | apply Z.compare_lt_iff]; lia.
  - pose proof (P _ _ _ Vx) as Px. unfold SFcompare. cbn [B64.rank B64.units]. change (0 ?= 0) with Eq. cbv iota. f_equal.
    symmetry. destruct sx; cbn [cond_Zopp];
      [apply Z.compare_lt_iff | apply Z.compare_gt_iff]; lia.
  - pose proof (P _ _ _ Vx) as Px. pose proof (P _ _ _ Vy) as Py.
    unfold SFcompare. cbn [B64.rank B64.units]. change (0 ?= 0) with Eq. cbv iota. f_equal.
    destruct sx, sy; cbn [cond_Zopp].
    + rewrite (valid_sign true false) in Vx, Vy.
      pose proof (compare_canonical mx ex my ey Vx Vy) as C.
      rewrite Z.compare_opp, (Z.compare_antisym (Z.pos mx * _)), <- C.
      destruct (ex ?= ey); reflexivity.
    + symmetry. apply Z.compare_lt_iff. lia.
    + symmetry. apply Z.compare_gt_iff. lia.
    + apply compare_canonical; assumption.
Qed.

Lemma units_pos s m e :
  B64.valid (S754_finite s m e) = true -> 0 < Z.pos m * 2 ^ (e + 1074).
Proof.
  intros V. apply valid_finite in V as (B & _).
  apply Z.mul_pos_pos; [lia | apply Z.pow_pos_nonneg; lia].
Qed.

Section ExactProduct.

Variable c : spec_float.
Hypothesis Vc : B64.valid c = true.
Hypothesis Pc : B64.positive_finite c = true.

Lemma units_factor_pos : 0 < B64.units c.
Proof using All.
  destruct c as [| | |[] mc ec]; try discriminate. apply (units_pos _ _ _ Vc).
Qed.

Lemma mul_zero s : B64.mul (S754_zero s) c = S754_zero s.
Proof using All.
  destruct c as [| | |[] mc ec]; try discriminate. simpl. now rewrite xorb_false_r.
Qed.

Lemma mul_infinity s : B64.mul (S754_infinity s) c = S754_infinity s.
Proof using All.
  destruct c as [| | |[] mc ec]; try discriminate. simpl. now rewrite xorb_false_r.
Qed.

Lemma mul_nan : B64.mul S754_nan c = S754_nan.
Proof. reflexivity. Qed.

(** An exact product of a finite number is a finite number of the same
    sign. *)
Lemma exact_product_finite s m e :
  exact_product c (S754_finite s m e) ->
  exists m' e',
    B64.mul (S754_finite s m e) c = S754_finite s m' e' /\
    B64.valid (S754_finite s m' e') = true /\
    Z.pos m' * 2 ^ (e' + 1074) * 2 ^ 1074 = Z.pos m * 2 ^ (e + 1074) * B64.units c.
Proof using All.
  intros (Vx & Vy & E). pose proof units_factor_pos as Uc.
  destruct (B64.mul (S754_finite s m e) c) as [| | |s' m' e'] eqn:M; try contradiction.
  pose proof (units_pos _ _ _ Vx) as Px. pose proof (units_pos _ _ _ Vy) as Py.
  assert (0 < 2 ^ 1074) as K by (apply Z.pow_pos_nonneg; lia).
  cbn [B64.units] in E.
  assert (0 < Z.pos m' * 2 ^ (e' + 1074) * 2 ^ 1074) as P1 by (apply Z.mul_pos_pos; lia).
  assert (0 < Z.pos m * 2 ^ (e + 1074) * B64.units c) as P2 by (apply Z.mul_pos_pos; lia).
  exists m', e'. destruct s, s'; cbn [cond_Zopp] in E;
    try (split; [reflexivity | split; [exact Vy | lia]]); lia.
Qed.

Lemma exact_product_scaled x :
  exact_product c x ->
  B64.valid x = true /\ B64.valid (B64.mul x c) = true /\
  B64.is_nan (B64.mul x c) = B64.is_nan x /\
  B64.rank (B64.mul x c) = B64.rank x /\
  B64.units (B64.mul x c) * 2 ^ 1074 = B64.units x * B64.units c.
Proof using All.
  intros H. pose proof H as (Vx & Vy & _).
  split; [exact Vx|]. split; [exact Vy|].
  destruct x as [s|s| |s m e].
  - now rewrite mul_zero.
  - now rewrite mul_infinity.
  - now rewrite mul_nan.
  - destruct (exact_product_finite s m e H) as (m' & e' & -> & _ & E).
    split; [reflexivity|]. split; [reflexivity|].
    cbn [B64.units]. destruct s; cbn [cond_Zopp]; lia.
Qed.

Lemma is_nan_exact x : exact_product c x -> B64.is_nan (B64.mul x c) = B64.is_nan x.
Proof using All. intros H. apply (exact_product_scaled x H). Qed.

Lemma ltb_nan_l x : B64.ltb S754_nan x = false.
Proof. reflexivity. Qed.

Lemma ltb_nan_r x : B64.ltb x S754_nan = false.
Proof. now destruct x. Qed.

(** Exact multiplication by a positive number keeps the order. *)
Lemma ltb_exact a x :
  exact_product c a -> exact_product c x ->
  B64.ltb (B64.mul a c) (B64.mul x c) = B64.ltb a x.
Proof using All.
  intros Ha Hx. pose proof units_factor_pos as Uc.
  destruct (exact_product_scaled a Ha) as (Va & Va' & Na & Ra & Ea).
  destruct (exact_product_scaled x Hx) as (Vx & Vx' & Nx & Rx & Ex).
  destruct (B64.is_nan a) eqn:Ia.
  { destruct a; try discriminate. now rewrite mul_nan. }
  destruct (B64.is_nan x) eqn:Ix.
  { destruct x; try discriminate. now rewrite mul_nan, !ltb_nan_r. }
  unfold B64.ltb, SFltb.
  rewrite (SFcompare_units _ _ Va' Vx' Na Nx), (SFcompare_units _ _ Va Vx Ia Ix).
  rewrite Ra, Rx.
  assert (0 < 2 ^ 1074) as K by (apply Z.pow_pos_nonneg; lia).
  rewrite (Zmult_compare_compat_r (B64.units (B64.mul a c)) _ (2 ^ 1074)) by lia.
  rewrite Ea, Ex, <- Zmult_compare_compat_r by lia.
  reflexivity.
Qed.

(** The quotient of two numbers does not see a common factor, as long as
    both products are exact. *)
Lemma div_exact x y :
  exact_product c x -> exact_product c y ->
  B64.div (B64.mul x c) (B64.mul y c) = B64.div x y.
Proof using All.
  intros Hx Hy. pose proof units_factor_pos as Uc.
  destruct x as [sx|sx| |sx mx ex], y as [sy|sy| |sy my ey];
    rewrite ?mul_zero, ?mul_infinity, ?mul_nan; try reflexivity.
  - destruct (exact_product_finite sy my ey Hy) as (m' & e' & -> & _). reflexivity.
  - destruct (exact_product_finite sy my ey Hy) as (m' & e' & -> & _). reflexivity.
  - destruct (exact_product_finite sx mx ex Hx) as (m' & e' & -> & _). reflexivity.
  - destruct (exact_product_finite sx mx ex Hx) as (m' & e' & -> & _). reflexivity.
  - destruct (exact_product_finite sx mx ex Hx) as (m' & e' & -> & _). now destruct sx.
  - destruct (exact_product_finite sx mx ex Hx) as (mx' & ex' & -> & Vx' & Ex).
    destruct (exact_product_finite sy my ey Hy) as (my' & ey' & -> & Vy' & Ey).
    destruct Hx as (Vx & _). destruct Hy as (Vy & _).
    pose proof (valid_finite _ _ _ Vx) as (Bx & _).
    pose proof (valid_finite _ _ _ Vy) as (By & _).
    pose proof (valid_finite _ _ _ Vx') as (Bx' & _).
    pose proof (valid_finite _ _ _ Vy') as (By' & _).
    symmetry. apply SFdiv_same_fraction; try lia.
    assert (0 < 2 ^ 1074) as K by (apply Z.pow_pos_nonneg; lia).
    apply (Z.mul_cancel_r _ _ (2 ^ 1074 * B64.units c)); [lia|].
    replace (ex + ey' + 2148) with ((ex + 1074) + (ey' + 1074)) by lia.
    replace (ex' + ey + 2148) with ((ex' + 1074) + (ey + 1074)) by lia.
    rewrite (Z.pow_add_r 2 (ex + 1074)), (Z.pow_add_r 2 (ex' + 1074)) by lia.
    set (P := 2 ^ 1074) in *.
    set (Px := 2 ^ (ex + 1074)) in *. set (Px' := 2 ^ (ex' + 1074)) in *.
    set (Py := 2 ^ (ey + 1074)) in *. set (Py' := 2 ^ (ey' + 1074)) in *.
    transitivity ((Z.pos mx * Px * B64.units c) * (Z.pos my' * Py' * P)); [ring|].
    rewrite <- Ex, Ey. ring.
Qed.

End ExactProduct.

Lemma exact_product_nan c : exact_product c S754_nan.
Proof. repeat split. Qed.

Section ExactColumn.

Variable c : spec_float.
Hypothesis Vc : B64.valid c = true.
Hypothesis Pc : B64.positive_finite c = true.

Lemma nanmax_exact v :
  Forall (exact_product c) v ->
  pd.nanmax (map (fun x => B64.mul x c) v) = B64.mul (pd.nanmax v) c /\
  exact_product c (pd.nanmax v).
Proof using All.
  intros Hv. unfold pd.nanmax.
  set (f := fun (acc : option spec_float) x =>
              if B64.is_nan x then acc
              else match acc with
                   | None => Some x
                   | Some a => if B64.ltb a x then Some x else Some a
                   end).
  set (g := fun x => B64.mul x c).
  assert (forall acc,
             (forall a, acc = Some a -> exact_product c a) ->
             fold_left f (map g v) (option_map g acc) = option_map g (fold_left f v acc) /\
             (forall a, fold_left f v acc = Some a -> exact_product c a)) as H.
  { induction Hv as [|x v Hx _ IH]; intros acc Hacc; simpl; [now split|].
    assert (f (option_map g acc) (g x) = option_map g (f acc x)) as E.
    { unfold f, g. rewrite (is_nan_exact c Vc Pc x Hx).
      destruct (B64.is_nan x); [reflexivity|].
      destruct acc as [a|]; simpl; [|reflexivity].
      rewrite (ltb_exact c Vc Pc a x (Hacc a eq_refl) Hx). now destruct (B64.ltb a x). }
    rewrite E. apply IH. intros a. unfold f.
    destruct (B64.is_nan x); [apply Hacc|].
    destruct acc as [a'|]; [destruct (B64.ltb a' x)|]; intros [= <-]; auto. }
  destruct (H None ltac:(discriminate)) as [E1 E2]. simpl in E1. rewrite E1.
  destruct (fold_left f v None) as [m|]; simpl.
  - split; [reflexivity | now apply E2].
  - split; [reflexivity | apply exact_product_nan].
Qed.

Lemma share_of_max_exact v :
  Forall (exact_product c) v ->
  share_of_max (map (fun x => B64.mul x c) v) = share_of_max v.
Proof using All.
  intros Hv. unfold share_of_max. destruct (nanmax_exact v Hv) as [-> Hm].
  rewrite map_map. apply map_ext_in. intros x Hx.
  apply (div_exact c Vc Pc); [|exact Hm].
  rewrite Forall_forall in Hv. apply Hv. now apply list_elem_of_In.
Qed.

Lemma performance_scores_exact rev lt dr :
  (Forall (exact_product c) rev ->
   performance_scores (map (fun x => B64.mul x c) rev) lt dr = performance_scores rev lt dr) /\
  (Forall (exact_product c) lt ->
   performance_scores rev (map (fun x => B64.mul x c) lt) dr = performance_scores rev lt dr) /\
  (Forall (exact_product c) dr ->
   performance_scores rev lt (map (fun x => B64.mul x c) dr) = performance_scores rev lt dr).
Proof using All.
  unfold performance_scores, revenue_term, penalty_term.
  repeat split; intros H; now rewrite share_of_max_exact.
Qed.

End ExactColumn.


(** Multiplication by a power of two within the range of normal numbers
    is exact on every normal number whose exponent stays in range. *)
Lemma power_of_two_exact k x :
  B64.valid x = true -> B64.valid (pow2 k) = true -> scales_exactly k x ->
  exact_product (pow2 k) x.
Proof.
  intros Vx Vk Hx. split; [exact Vx|]. rewrite (mul_pow2 k x Hx).
  destruct x as [s|s| |s m e]; try (now repeat split).
  destruct Hx as (Hd & He & Hk). cbn [B64.scale2].
  pose proof (valid_finite _ _ _ Vk) as (Bk & _).
  split.
  - unfold B64.valid, valid_binary, bounded, canonical_mantissa.
    rewrite fexp_spec, Hd. unfold B64.emax, B64.prec.
    apply andb_true_iff. split; [apply Z.eqb_eq | apply Z.leb_le]; lia.
  - cbn [B64.units pow2].
    replace (k - 52 + 1074) with (k + 1022) by lia.
    replace (e + k + 1074) with ((e + 1074) + k) by lia.
    change 4503599627370496 with (2 ^ 52).
    rewrite <- (Z.pow_add_r 2 52) by lia. replace (52 + (k + 1022)) with (k + 1074) by lia.
    assert (2 ^ (e + 1074 + k) * 2 ^ 1074 = 2 ^ (e + 1074) * 2 ^ (k + 1074)) as E
      by (rewrite <- !Z.pow_add_r by lia; f_equal; lia).
    destruct s; cbn [cond_Zopp]; rewrite ?Z.mul_opp_l, <- !Z.mul_assoc, E; reflexivity.
Qed.

End ExactRescaling.

(** C7 (as amended).  Multiplying the revenue column, the lead time column
    or the defect rate column of a frame by a positive number [c], where
    that multiplication is exact on every value of the column (nothing is
    rounded, nothing overflows or underflows), leaves the
    [Performance_Score] of every row unchanged, bit for bit. *)
Theorem performance_score_invariant_under_exact_rescaling w w' l d col c :
  heap w !! l = Some d -> pd.wf d -> Forall (has_numeric d) advanced_inputs ->
  In col score_inputs ->
  B64.valid c = true -> B64.positive_finite c = true ->
  Forall (exact_product c) (numbers col d) ->
  heap w' !! l = Some (rescale (fun x => B64.mul x c) col d) ->
  exists scores,
    result_column "Performance_Score" (Interactive.calculate_advanced_metrics l w)
    = Some (Float64 scores) /\
    result_column "Performance_Score" (Interactive.calculate_advanced_metrics l w')
    = Some (Float64 scores).
Proof.
  intros Hl Hwf Hin Hc Vc Pc Hk Hl'.
  set (f := fun x => B64.mul x c) in *.
  assert (has_numeric d col) as Hnc.
  { eapply input_column; [exact Hin|]. simpl in Hc. simpl. tauto. }
  assert (Forall (has_numeric (rescale f col d)) advanced_inputs) as Hin'.
  { eapply Forall_impl; [exact Hin|]. intros c'. apply has_numeric_rescale. }
  eexists. split; [exact (performance_score_result w l d Hl Hwf Hin)|].
  rewrite (performance_score_result w' l _ Hl' (wf_rescale f col d Hwf Hnc) Hin').
  do 2 f_equal.
  destruct (performance_scores_exact c Vc Pc (numbers "Revenue generated" d)
              (numbers "Lead times" d) (numbers "Defect rates" d)) as (E1 & E2 & E3).
  simpl in Hc. destruct Hc as [<-|[<-|[<-|[]]]];
    rewrite numbers_rescale_eq, !numbers_rescale_ne by discriminate; auto.
Qed.

Lemma performance_score_invariant_under_exact_rescaling_witness :
  exists scores,
    result_column "Performance_Score"
      (Interactive.calculate_advanced_metrics 0%nat (world_of small_frame))
    = Some (Float64 scores) /\
    result_column "Performance_Score"
      (Interactive.calculate_advanced_metrics 0%nat
         (world_of (rescale (fun x => B64.mul x B64.f3) "Revenue generated" small_frame)))
    = Some (Float64 scores).
Proof.
  apply (performance_score_invariant_under_exact_rescaling
           (world_of small_frame)
           (world_of (rescale (fun x => B64.mul x B64.f3) "Revenue generated" small_frame))
           0%nat small_frame "Revenue generated" B64.f3);
    [ ready | ready | ready | simpl; tauto | reflexivity | reflexivity | | reflexivity ].
  repeat constructor; vm_compute; reflexivity.
Defined.

(** C7 as stated fails.  Revenues 3 and 5 times 0.1 are
    0.30000000000000004 and 0.5; the first row's score moves from 24.0 to
    24.000000000000004.  And a revenue of [2^1023] times 4 is infinite: the
    first row's score goes from 40.0 to NaN, the second row's, next to it,
    to 0. *)
Lemma rescaling_counterexample :
  (let scaled := rescale (fun x => B64.mul x B64.f0_1) "Revenue generated" small_frame in
   numbers "Revenue generated" scaled
   = [S754_finite false 5404319552844596 (-54); S754_finite false 4503599627370496 (-53)]
   /\ result_column "Performance_Score"
        (Interactive.calculate_advanced_metrics 0%nat (world_of small_frame))
      = Some (Float64 [S754_finite false 6755399441055744 (-48);
                       S754_finite false 5629499534213120 (-47)])
   /\ result_column "Performance_Score"
        (Interactive.calculate_advanced_metrics 0%nat (world_of scaled))
      = Some (Float64 [S754_finite false 6755399441055745 (-48);
                       S754_finite false 5629499534213120 (-47)])) /\
  (let scaled := rescale (fun x => B64.mul x (pow2 2)) "Revenue generated" steep_frame in
   numbers "Revenue generated" scaled = [B64.inf; pow2 2]
   /\ result_column "Performance_Score"
        (Interactive.calculate_advanced_metrics 0%nat (world_of steep_frame))
      = Some (Float64 [S754_finite false 5629499534213120 (-47);
                       S754_finite false 5629499534213119 (-1070)])
   /\ result_column "Performance_Score"
        (Interactive.calculate_advanced_metrics 0%nat (world_of scaled))
      = Some (Float64 [B64.nan; B64.zero])).
Proof.
  repeat split; vm_compute; reflexivity.
Qed.

(* ===================================================================== *)
(** * What the calls leave alone                                           *)
(* ===================================================================== *)

Section Keeps.

Context {A B : Type}.

Lemma keeps_ret n (Q : A -> Prop) a : Q a -> keeps n Q (ret a).
Proof. intros HQ w Hn. simpl. repeat split; auto. now intros ? [= <-]. Qed.

Lemma keeps_raise n (Q : A -> Prop) e : keeps n Q (raise e).
Proof. intros w Hn. simpl. repeat split; auto. discriminate. Qed.

Lemma keeps_lift n (r : result A) : keeps n (fun _ => True) (lift r).
Proof. intros w Hn. simpl. repeat split; auto. Qed.

Lemma keeps_weaken n (Q R : A -> Prop) c :
  keeps n Q c -> (forall a, Q a -> R a) -> keeps n R c.
Proof.
  intros H HQR w Hn. destruct (H w Hn) as (H1 & H2 & H3 & H4). repeat split; auto.
Qed.

Lemma keeps_bind n (Q : A -> Prop) (R : B -> Prop) (c : M A) (k : A -> M B) :
  keeps n Q c -> (forall a, Q a -> keeps n R (k a)) -> keeps n R (bind c k).
Proof.
  intros Hc Hk w Hn. destruct (Hc w Hn) as (H1 & H2 & H3 & H4).
  unfold bind. destruct (c w) as [[a|e] w'] eqn:E; simpl in *.
  - destruct (Hk a (H4 a eq_refl) w' H2) as (K1 & K2 & K3 & K4).
    repeat split; auto; try congruence.
    intros l Hl. rewrite K3, H3; auto.
  - repeat split; auto. discriminate.
Qed.

End Keeps.

Lemma keeps_deref n l : keeps n (fun _ => True) (deref l).
Proof.
  intros w Hn. unfold deref, bind, get_heap.
  destruct (heap w !! l); simpl; repeat split; auto.
Qed.

Lemma keeps_get_session n : keeps n (fun _ => True) get_session.
Proof. intros w Hn. simpl. repeat split; auto. Qed.

Lemma keeps_alloc n d : keeps n (fun l => n <= l) (alloc d).
Proof.
  intros w Hn. unfold alloc, bind, get_heap, put_heap, ret. simpl.
  rewrite length_app. simpl. repeat split; try lia.
  - intros l Hl. apply lookup_app_l. lia.
  - intros a [= <-]. exact Hn.
Qed.

Lemma keeps_store n l d : n <= l -> keeps n (fun _ => True) (store l d).
Proof.
  intros Hl w Hn. unfold store, bind, get_heap, put_heap. simpl.
  rewrite length_insert. repeat split; auto.
  intros l' Hl'. apply list_lookup_insert_ne. lia.
Qed.

Lemma keeps_copy n l : keeps n (fun l' => n <= l') (pd.copy l).
Proof.
  unfold pd.copy. eapply keeps_bind; [apply keeps_deref|]. intros d _. apply keeps_alloc.
Qed.

Lemma keeps_getitem n l c : keeps n (fun _ => True) (pd.getitem l c).
Proof.
  unfold pd.getitem. eapply keeps_bind; [apply keeps_deref|]. intros d _.
  destruct (pd.column c d); [now apply keeps_ret | apply keeps_raise].
Qed.

Lemma keeps_setitem n l c s : n <= l -> keeps n (fun _ => True) (pd.setitem l c s).
Proof.
  intros Hl. unfold pd.setitem. eapply keeps_bind; [apply keeps_deref|]. intros d _.
  destruct (decide _); [now apply keeps_store | apply keeps_raise].
Qed.

Lemma keeps_getitem_mask n l m : keeps n (fun l' => n <= l') (pd.getitem_mask l m).
Proof.
  unfold pd.getitem_mask. eapply keeps_bind; [apply keeps_deref|]. intros d _.
  destruct (decide _); [apply keeps_alloc | apply keeps_raise].
Qed.

Lemma keeps_next_raw n : keeps n (fun _ => True) np.next_raw.
Proof. intros w Hn. simpl. repeat split; auto. Qed.

Lemma keeps_random_choice1 n a : keeps n (fun _ => True) (np.random_choice1 a).
Proof.
  unfold np.random_choice1. eapply keeps_bind; [apply keeps_next_raw|]. intros r _.
  destruct (a !! _); [now apply keeps_ret | apply keeps_raise].
Qed.

Lemma keeps_random_choice n a size : keeps n (fun _ => True) (np.random_choice a size).
Proof.
  induction size as [|size IH]; simpl; [now apply keeps_ret|].
  eapply keeps_bind; [apply keeps_random_choice1|]. intros x _.
  eapply keeps_bind; [apply IH|]. intros xs _. now apply keeps_ret.
Qed.

Lemma keeps_random_uniform n low high size :
  keeps n (fun _ => True) (np.random_uniform low high size).
Proof.
  induction size as [|size IH]; simpl; [now apply keeps_ret|].
  eapply keeps_bind.
  { unfold np.random_double. eapply keeps_bind; [apply keeps_next_raw|].
    intros r _. apply (keeps_ret n (fun _ => True)). exact I. }
  intros u _. eapply keeps_bind; [apply IH|]. intros xs _. now apply keeps_ret.
Qed.

Lemma keeps_get_engine n : keeps n (fun _ => True) get_engine.
Proof. intros w Hn. simpl. repeat split; auto. Qed.

Lemma keeps_put_engine n e : keeps n (fun _ => True) (put_engine e).
Proof. intros w Hn. simpl. repeat split; auto. Qed.

Lemma keeps_execute n l q : keeps n (fun _ => True) (duckdb.execute l q).
Proof.
  unfold duckdb.execute. eapply keeps_bind; [apply keeps_deref|]. intros d _.
  eapply keeps_bind; [apply keeps_get_engine|]. intros e _.
  eapply keeps_bind; [apply keeps_lift|]. intros rows _.
  eapply keeps_bind; [apply keeps_put_engine|]. intros _ _.
  now apply keeps_ret.
Qed.

Lemma keeps_execute_df n l q : keeps n (fun _ => True) (duckdb.execute_df l q).
Proof.
  unfold duckdb.execute_df. eapply keeps_bind; [apply keeps_execute|]. intros rows _.
  now apply keeps_ret.
Qed.

(** What a [try] block kept, the statement keeps; its outcome is the
    outcome of the block. *)
Lemma keeps_try_except {A} n (Q : A -> Prop) (c : M A) :
  keeps n Q c ->
  keeps n (fun r => match r with Ok a => Q a | Raise _ => True end) (try_except c).
Proof.
  intros H w Hn. destruct (H w Hn) as (H1 & H2 & H3 & H4).
  unfold try_except. destruct (c w) as [r w'] eqn:E. simpl in *.
  repeat split; auto. intros r' [= <-]. destruct r as [a|e]; auto.
Qed.

Lemma keeps_load_global n name : keeps n (fun _ => name ∈ Interactive.module_names)
                                   (Interactive.load_global name).
Proof.
  unfold Interactive.load_global.
  destruct (decide _); [now apply keeps_ret | apply keeps_raise].
Qed.

Lemma keeps_fetchone n l a : keeps n (fun _ => True) (duckdb_scalar.fetchone l a).
Proof.
  unfold duckdb_scalar.fetchone. eapply keeps_bind; [apply keeps_deref|]. intros d _.
  apply keeps_lift.
Qed.

(** One step of a body: the first call by its own lemma, then the rest. *)
Ltac keeps_call :=
  first [ apply keeps_getitem | apply keeps_lift | apply keeps_deref
        | apply keeps_get_session | apply keeps_copy | apply keeps_getitem_mask
        | apply keeps_random_choice1 | apply keeps_random_choice
        | apply keeps_random_uniform | apply keeps_execute_df | apply keeps_execute
        | apply keeps_fetchone
        | apply keeps_setitem; assumption ].

Ltac keeps_done := apply keeps_ret; first [assumption | exact I].

Ltac keeps_body :=
  repeat (lazymatch goal with
          | |- keeps _ _ (bind _ _) =>
              eapply keeps_bind; [keeps_call | intros ? ?; cbv beta in *]
          end).

Lemma keeps_calculate_derived_metrics n l :
  keeps n (fun l' => n <= l') (Enhanced.calculate_derived_metrics l).
Proof.
  unfold Enhanced.calculate_derived_metrics. keeps_body. keeps_done.
Qed.

Lemma keeps_calculate_advanced_metrics n l :
  keeps n (fun l' => n <= l') (Interactive.calculate_advanced_metrics l).
Proof.
  unfold Interactive.calculate_advanced_metrics. keeps_body. keeps_done.
Qed.

Lemma keeps_selection n l c k :
  n <= l ->
  keeps n (fun l' => n <= l')
    (if decide (k = "All") then ret l
     else s <- pd.getitem l c ;; pd.getitem_mask l (pd.eq_str s k)).
Proof.
  intros Hl. destruct (decide _); [keeps_done|]. keeps_body. keeps_call.
Qed.

Lemma keeps_apply_filters n l : keeps n (fun l' => n <= l') (Interactive.apply_filters l).
Proof.
  unfold Interactive.apply_filters.
  eapply keeps_bind; [apply keeps_copy|]. intros l0 H0.
  eapply keeps_bind; [apply keeps_get_session|]. intros st _.
  eapply keeps_bind; [now apply keeps_selection|]. intros l1 H1.
  eapply keeps_bind; [now apply keeps_selection|]. intros l2 H2.
  eapply keeps_bind.
  { destruct (revenue_range st) as [[lo hi]|]; [|apply keeps_ret; exact H2].
    keeps_body. keeps_call. }
  intros l3 H3. eapply keeps_bind.
  { destruct (lead_time_max st) as [k|]; [|apply keeps_ret; exact H3].
    keeps_body. keeps_call. }
  intros l4 H4. eapply keeps_bind.
  { destruct (risk_levels st) as [[|level levels]|]; try (apply keeps_ret; exact H4).
    keeps_body. keeps_call. }
  intros l5 H5. keeps_done.
Qed.

Lemma keeps_main_filters n l pt loc0 :
  keeps n (fun l' => n <= l') (Enhanced.main_filters l pt loc0).
Proof.
  unfold Enhanced.main_filters.
  eapply keeps_bind; [apply keeps_copy|]. intros l0 H0.
  eapply keeps_bind; [now apply keeps_selection|]. intros l1 H1.
  eapply keeps_bind; [now apply keeps_selection|]. intros l2 H2.
  keeps_done.
Qed.

Lemma keeps_get_performance_metrics n self :
  keeps n (fun _ => True) (Interactive.get_performance_metrics self).
Proof.
  unfold Interactive.get_performance_metrics. keeps_body. keeps_done.
Qed.

Lemma keeps_get_advanced_analytics n self :
  keeps n (fun _ => True) (Interactive.get_advanced_analytics self).
Proof.
  unfold Interactive.get_advanced_analytics. keeps_body. keeps_done.
Qed.

Lemma create_plotly_theme_undefined : "create_plotly_theme" ∉ Interactive.module_names.
Proof. apply (bool_decide_eq_false _). reflexivity. Qed.

(** The block never hands over an enriched frame. *)
Lemma keeps_initialize_dashboard n raw :
  keeps n (fun r => r = None) (Interactive.initialize_dashboard raw).
Proof.
  unfold Interactive.initialize_dashboard.
  eapply keeps_bind; [apply keeps_deref|]. intros d _.
  destruct (pd.empty d); [now apply keeps_ret|].
  eapply keeps_bind; [apply keeps_calculate_advanced_metrics|]. intros l1 H1.
  eapply keeps_bind; [apply keeps_load_global|]. intros u H. cbv beta in H.
  now apply create_plotly_theme_undefined in H.
Qed.

Lemma keeps_main n raw dashboard :
  keeps n (fun _ => True) (Interactive.main raw dashboard).
Proof.
  unfold Interactive.main.
  eapply keeps_bind; [apply keeps_try_except, keeps_initialize_dashboard|].
  intros [[l|]|e] H; [discriminate H | |]; now apply keeps_ret.
Qed.

Lemma keeps_untouched {A} (Q : A -> Prop) (c : M A) w :
  keeps (length (heap w)) Q c -> untouched w (c w).2.
Proof.
  intros H. destruct (H w (Nat.le_refl _)) as (H1 & _ & H3 & _).
  split; [exact H1|]. intros l d Hl. rewrite H3; [exact Hl|].
  eapply lookup_lt_Some; eauto.
Qed.

(** X1.  Whatever frame they are given, complete or not, and whether they
    return or raise, the two enrichment functions leave every existing
    object, their argument among them, and the session as they were: all
    their writes go to the copy they make. *)
Theorem enrichment_never_writes_to_existing_frames w l :
  untouched w (Enhanced.calculate_derived_metrics l w).2 /\
  untouched w (Interactive.calculate_advanced_metrics l w).2.
Proof.
  split; eapply keeps_untouched.
  - apply keeps_calculate_derived_metrics.
  - apply keeps_calculate_advanced_metrics.
Qed.

(** X2.  The same holds of the filters of both dashboards, of the two
    methods of [EnhancedDataAnalyzer] and of [main()] as a whole: no run,
    successful or not, changes a frame that existed before it or the
    session. *)
Theorem dashboards_never_write_to_existing_frames w l self pt loc0 dashboard :
  untouched w (Interactive.apply_filters l w).2 /\
  untouched w (Enhanced.main_filters l pt loc0 w).2 /\
  untouched w (Interactive.get_performance_metrics self w).2 /\
  untouched w (Interactive.get_advanced_analytics self w).2 /\
  untouched w (Interactive.main l dashboard w).2.
Proof.
  split; [|split; [|split; [|split]]]; eapply keeps_untouched.
  - apply keeps_apply_filters.
  - apply keeps_main_filters.
  - apply keeps_get_performance_metrics.
  - apply keeps_get_advanced_analytics.
  - apply keeps_main.
Qed.

(* ===================================================================== *)
(** * The filters as one selection                                         *)
(* ===================================================================== *)

Section Masks.

Context {A B C : Type}.

Lemma compress_zip_with (f : A -> B -> C) mask a b :
  pd.compress mask (zip_with f a b) = zip_with f (pd.compress mask a) (pd.compress mask b).
Proof.
  revert a b. induction mask as [|m mask IH]; intros [|x a] [|y b]; simpl; auto.
  - now rewrite ?compress_nil_r, ?zip_with_nil_r.
  - destruct m; simpl; now rewrite IH.
Qed.

Lemma compress_replicate_true mask (l : list A) :
  length mask = length l ->
  pd.compress mask (replicate (length l) true) = replicate (length (pd.compress mask l)) true.
Proof.
  revert l. induction mask as [|m mask IH]; intros [|x l]; simpl; try discriminate; auto.
  intros [= H]. destruct m; simpl; now rewrite IH.
Qed.

(** A position the mask keeps. *)
Lemma compress_In_lookup mask (l : list A) x :
  In x (pd.compress mask l) -> exists i, l !! i = Some x /\ mask !! i = Some true.
Proof.
  revert l. induction mask as [|m mask IH]; intros [|y l]; simpl; try tauto.
  destruct m; simpl.
  - intros [<-|H]; [exists 0; auto|]. destruct (IH l H) as (i & ? & ?). now exists (S i).
  - intros H. destruct (IH l H) as (i & ? & ?). now exists (S i).
Qed.

Lemma lookup_compress_In mask (l : list A) x i :
  l !! i = Some x -> mask !! i = Some true -> In x (pd.compress mask l).
Proof.
  revert l i. induction mask as [|m mask IH]; intros [|y l] [|i]; simpl; try discriminate.
  - intros [= ->] [= ->]. now left.
  - intros Hl Hm. destruct m; [right|]; eauto.
Qed.

End Masks.

Lemma mask_compose_compress m1 m2 :
  length m1 = length m2 -> mask_compose m1 (pd.compress m1 m2) = pd.mask_and m1 m2.
Proof.
  revert m2. induction m1 as [|b m1 IH]; intros [|b2 m2]; simpl; try discriminate; auto.
  intros [= H]. destruct b; simpl; now rewrite IH.
Qed.

Lemma mask_and_length m1 m2 :
  length m1 = length m2 -> length (pd.mask_and m1 m2) = length m1.
Proof. intros H. unfold pd.mask_and. rewrite length_zip_with. lia. Qed.

Lemma mask_and_true m n : length m = n -> pd.mask_and m (replicate n true) = m.
Proof.
  intros <-. induction m as [|b m IH]; simpl; [reflexivity|].
  unfold pd.mask_and in *. simpl. rewrite IH. now rewrite andb_true_r.
Qed.

Lemma mask_and_all_rows m d : length m = pd.len d -> pd.mask_and m (all_rows d) = m.
Proof. apply mask_and_true. Qed.

Lemma mask_and_lookup m1 m2 i :
  pd.mask_and m1 m2 !! i = Some true <-> m1 !! i = Some true /\ m2 !! i = Some true.
Proof.
  unfold pd.mask_and. rewrite lookup_zip_with.
  destruct (m1 !! i) as [[]|], (m2 !! i) as [[]|]; simpl; split;
    try (intros [? ?]); try (intros ?); try discriminate; auto.
Qed.

Lemma eq_str_compress mask s k :
  pd.eq_str (pd.Series_compress mask s) k = pd.compress mask (pd.eq_str s k).
Proof. destruct s; simpl; now rewrite compress_map. Qed.

Lemma isin_compress mask s names :
  pd.isin (pd.Series_compress mask s) names = pd.compress mask (pd.isin s names).
Proof. destruct s; simpl; now rewrite compress_map. Qed.

Lemma len_take mask d : pd.len (pd.take mask d) = length (pd.compress mask (index d)).
Proof. reflexivity. Qed.

Lemma all_rows_length d : length (all_rows d) = pd.len d.
Proof. apply length_replicate. Qed.

Lemma all_rows_take mask d :
  length mask = pd.len d -> all_rows (pd.take mask d) = pd.compress mask (all_rows d).
Proof. intros H. unfold all_rows. rewrite len_take. symmetry. now apply compress_replicate_true. Qed.

(** Each test, made on a selection of the rows, is the test made on all
    the rows, restricted to the selection. *)
Lemma text_mask_take c k mask d :
  length mask = pd.len d ->
  text_mask c k (pd.take mask d) = pd.compress mask (text_mask c k d).
Proof.
  intros H. unfold text_mask. rewrite column_take.
  destruct (pd.column c d) as [s|]; simpl; [apply eq_str_compress | now apply all_rows_take].
Qed.

Lemma selection_mask_take c k mask d :
  length mask = pd.len d ->
  selection_mask c k (pd.take mask d) = pd.compress mask (selection_mask c k d).
Proof.
  intros H. unfold selection_mask.
  destruct (decide _); [now apply all_rows_take | now apply text_mask_take].
Qed.

Lemma revenue_mask_take st mask d :
  length mask = pd.len d ->
  revenue_mask st (pd.take mask d) = pd.compress mask (revenue_mask st d).
Proof.
  intros H. unfold revenue_mask. destruct (revenue_range st) as [[lo hi]|].
  - unfold pd.mask_and. now rewrite numbers_take, compress_zip_with, !compress_map.
  - now apply all_rows_take.
Qed.

Lemma lead_time_mask_take st mask d :
  length mask = pd.len d ->
  lead_time_mask st (pd.take mask d) = pd.compress mask (lead_time_mask st d).
Proof.
  intros H. unfold lead_time_mask. destruct (lead_time_max st) as [k|].
  - now rewrite numbers_take, compress_map.
  - now apply all_rows_take.
Qed.

Lemma risk_mask_take st mask d :
  length mask = pd.len d ->
  risk_mask st (pd.take mask d) = pd.compress mask (risk_mask st d).
Proof.
  intros H. unfold risk_mask. destruct (risk_levels st) as [[|level levels]|];
    try (now apply all_rows_take).
  rewrite column_take. destruct (pd.column "Risk_Level" d) as [s|]; simpl;
    [apply isin_compress | now apply all_rows_take].
Qed.

Lemma filter_masks_take st mask d :
  length mask = pd.len d ->
  filter_masks st (pd.take mask d) = map (pd.compress mask) (filter_masks st d).
Proof.
  intros H. unfold filter_masks. simpl.
  now rewrite !selection_mask_take, revenue_mask_take, lead_time_mask_take, risk_mask_take.
Qed.

(** The length of each test is the number of rows. *)
Lemma text_mask_length c k d : pd.wf d -> length (text_mask c k d) = pd.len d.
Proof.
  intros Hwf. unfold text_mask. destruct (pd.column c d) as [s|] eqn:E.
  - rewrite eq_str_length. eapply wf_column; eauto.
  - apply all_rows_length.
Qed.

Lemma selection_mask_length c k d : pd.wf d -> length (selection_mask c k d) = pd.len d.
Proof.
  intros Hwf. unfold selection_mask.
  destruct (decide _); [apply all_rows_length | now apply text_mask_length].
Qed.

Lemma revenue_mask_length st d :
  pd.wf d -> (revenue_range st <> None -> has_numeric d "Revenue generated") ->
  length (revenue_mask st d) = pd.len d.
Proof.
  intros Hwf H. unfold revenue_mask. destruct (revenue_range st) as [[lo hi]|].
  - assert (has_numeric d "Revenue generated") as Hn by now apply H.
    unfold pd.mask_and. rewrite length_zip_with, !length_map, numbers_length by auto. lia.
  - apply all_rows_length.
Qed.

Lemma lead_time_mask_length st d :
  pd.wf d -> (lead_time_max st <> None -> has_numeric d "Lead times") ->
  length (lead_time_mask st d) = pd.len d.
Proof.
  intros Hwf H. unfold lead_time_mask. destruct (lead_time_max st) as [k|].
  - rewrite length_map, numbers_length; auto.
  - apply all_rows_length.
Qed.

Lemma risk_mask_length st d : pd.wf d -> length (risk_mask st d) = pd.len d.
Proof.
  intros Hwf. unfold risk_mask. destruct (risk_levels st) as [[|level levels]|];
    try apply all_rows_length.
  destruct (pd.column "Risk_Level" d) as [s|] eqn:E; [|apply all_rows_length].
  rewrite isin_length. eapply wf_column; eauto.
Qed.

Lemma select_rows w l d mask m :
  holds_rows d mask w l -> length m = pd.len d ->
  pd.getitem_mask l (pd.compress mask m) w
  = (Ok (length (heap w)), set_heap (heap w ++ [pd.take (pd.mask_and mask m) d]) w).
Proof.
  intros [Hl Hmask] Hm.
  erewrite getitem_mask_ok; [|exact Hl|].
  - rewrite take_compose, mask_compose_compress by congruence. reflexivity.
  - rewrite len_take. apply compress_length. unfold pd.len in *. congruence.
Qed.

Lemma holds_rows_top w d mask m :
  length mask = pd.len d -> length m = pd.len d ->
  holds_rows d (pd.mask_and mask m)
    (set_heap (heap w ++ [pd.take (pd.mask_and mask m) d]) w) (length (heap w)).
Proof.
  intros Hmask Hm. split; [apply lookup_top|]. rewrite mask_and_length; congruence.
Qed.

(** One selection filter: the rows it leaves are those that pass its
    test as well. *)
Lemma selection_stage w l d mask c k :
  pd.wf d -> holds_rows d mask w l ->
  (k <> "All" -> exists s, pd.column c d = Some s) ->
  exists l' w',
    (if decide (k = "All") then ret l
     else s <- pd.getitem l c ;; pd.getitem_mask l (pd.eq_str s k)) w = (Ok l', w') /\
    holds_rows d (pd.mask_and mask (selection_mask c k d)) w' l' /\
    session_state w' = session_state w.
Proof.
  intros Hwf Hh Hc. unfold selection_mask. destruct (decide (k = "All")) as [E|E].
  - exists l, w. split; [reflexivity|]. split; [|reflexivity].
    rewrite mask_and_all_rows by apply Hh. exact Hh.
  - destruct (Hc E) as [s Hs]. eexists _, _.
    erewrite bind_ok
      by (eapply getitem_ok; [apply Hh | rewrite column_take, Hs; reflexivity]).
    rewrite eq_str_compress.
    assert (length (pd.eq_str s k) = pd.len d) as Hm
      by (rewrite eq_str_length; eapply wf_column; eauto).
    split; [eapply select_rows; eassumption|]. split; [|reflexivity].
    unfold text_mask. rewrite Hs. apply holds_rows_top; [apply Hh | exact Hm].
Qed.

Lemma revenue_stage w l d mask st :
  pd.wf d -> holds_rows d mask w l ->
  (revenue_range st <> None -> has_numeric d "Revenue generated") ->
  exists l' w',
    match revenue_range st with
    | Some (min_rev, max_rev) =>
        c <- pd.getitem l "Revenue generated" ;;
        m1 <- lift (pd.ge_scalar c min_rev) ;;
        c <- pd.getitem l "Revenue generated" ;;
        m2 <- lift (pd.le_scalar c max_rev) ;;
        pd.getitem_mask l (pd.mask_and m1 m2)
    | None => ret l
    end w = (Ok l', w') /\
    holds_rows d (pd.mask_and mask (revenue_mask st d)) w' l' /\
    session_state w' = session_state w.
Proof.
  intros Hwf Hh Hc. pose proof (revenue_mask_length st d Hwf Hc) as Hm.
  pose proof (revenue_mask_take st mask d (proj2 Hh)) as Ht.
  unfold revenue_mask in *. destruct (revenue_range st) as [[lo hi]|].
  - destruct (input_facts (pd.take mask d) "Revenue generated") as (s & Hs & Fs & _);
      [now apply wf_take | apply has_numeric_take, Hc; discriminate|].
    eexists _, _.
    erewrite bind_ok by (eapply getitem_ok; [apply Hh | exact Hs]).
    erewrite bind_lift_ok by (eapply cmp_scalar_ok; exact Fs).
    erewrite bind_ok by (eapply getitem_ok; [apply Hh | exact Hs]).
    erewrite bind_lift_ok by (eapply cmp_scalar_ok; exact Fs).
    unfold B64.geb, B64.leb in *. rewrite Ht.
    split; [eapply select_rows; eassumption|]. split; [|reflexivity].
    apply holds_rows_top; [apply Hh | exact Hm].
  - exists l, w. split; [reflexivity|]. split; [|reflexivity].
    rewrite mask_and_all_rows by apply Hh. exact Hh.
Qed.

Lemma lead_time_stage w l d mask st :
  pd.wf d -> holds_rows d mask w l ->
  (lead_time_max st <> None -> has_numeric d "Lead times") ->
  exists l' w',
    match lead_time_max st with
    | Some k =>
        c <- pd.getitem l "Lead times" ;;
        m <- lift (pd.le_scalar c (B64.of_int k)) ;;
        pd.getitem_mask l m
    | None => ret l
    end w = (Ok l', w') /\
    holds_rows d (pd.mask_and mask (lead_time_mask st d)) w' l' /\
    session_state w' = session_state w.
Proof.
  intros Hwf Hh Hc. pose proof (lead_time_mask_length st d Hwf Hc) as Hm.
  pose proof (lead_time_mask_take st mask d (proj2 Hh)) as Ht.
  unfold lead_time_mask in *. destruct (lead_time_max st) as [k|].
  - destruct (input_facts (pd.take mask d) "Lead times") as (s & Hs & Fs & _);
      [now apply wf_take | apply has_numeric_take, Hc; discriminate|].
    eexists _, _.
    erewrite bind_ok by (eapply getitem_ok; [apply Hh | exact Hs]).
    erewrite bind_lift_ok by (eapply cmp_scalar_ok; exact Fs).
    rewrite Ht.
    split; [eapply select_rows; eassumption|]. split; [|reflexivity].
    apply holds_rows_top; [apply Hh | exact Hm].
  - exists l, w. split; [reflexivity|]. split; [|reflexivity].
    rewrite mask_and_all_rows by apply Hh. exact Hh.
Qed.

Lemma risk_stage w l d mask st :
  pd.wf d -> holds_rows d mask w l ->
  (forall level levels, risk_levels st = Some (level :: levels) ->
     exists s, pd.column "Risk_Level" d = Some s) ->
  exists l' w',
    match risk_levels st with
    | Some (level :: levels) =>
        c <- pd.getitem l "Risk_Level" ;;
        pd.getitem_mask l (pd.isin c (level :: levels))
    | Some [] | None => ret l
    end w = (Ok l', w') /\
    holds_rows d (pd.mask_and mask (risk_mask st d)) w' l' /\
    session_state w' = session_state w.
Proof.
  intros Hwf Hh Hc. pose proof (risk_mask_length st d Hwf) as Hm.
  unfold risk_mask in *. destruct (risk_levels st) as [[|level levels]|].
  - exists l, w. split; [reflexivity|]. split; [|reflexivity].
    rewrite mask_and_all_rows by apply Hh. exact Hh.
  - destruct (Hc level levels eq_refl) as [s Hs]. rewrite Hs in *. eexists _, _.
    erewrite bind_ok
      by (eapply getitem_ok; [apply Hh | rewrite column_take, Hs; reflexivity]).
    rewrite isin_compress.
    split; [eapply select_rows; eassumption|]. split; [|reflexivity].
    apply holds_rows_top; [apply Hh | exact Hm].
  - exists l, w. split; [reflexivity|]. split; [|reflexivity].
    rewrite mask_and_all_rows by apply Hh. exact Hh.
Qed.

Lemma holds_rows_copy w l d :
  heap w !! l = Some d -> pd.wf d ->
  holds_rows d (all_rows d) (set_heap (heap w ++ [d]) w) (length (heap w)).
Proof.
  intros Hl Hwf. split; [|apply all_rows_length].
  unfold all_rows. rewrite take_all by exact Hwf. apply lookup_top.
Qed.

(** The run of [apply_filters] on a frame that has what the active
    filters test. *)
Lemma apply_filters_exact w l d :
  heap w !! l = Some d -> filters_ready (session_state w) d ->
  exists l' w',
    Interactive.apply_filters l w = (Ok l', w') /\
    heap w' !! l' = Some (pd.take (filter_mask (session_state w) d) d) /\
    length (filter_mask (session_state w) d) = pd.len d.
Proof.
  intros Hl (Hwf & Hpt & Hloc & Hrev & Hlt & Hrisk). set (st := session_state w) in *.
  unfold Interactive.apply_filters.
  erewrite bind_ok by (apply copy_ok; exact Hl).
  erewrite bind_ok by reflexivity. cbn [session_state set_heap]. fold st.
  pose proof (holds_rows_copy w l d Hl Hwf) as H0.
  destruct (selection_stage _ _ d _ "Product type" (selected_product_type st) Hwf H0 Hpt)
    as (l1 & w1 & R1 & H1 & _).
  rewrite (bind_ok _ _ _ _ _ R1).
  destruct (selection_stage _ _ d _ "Location" (selected_location st) Hwf H1 Hloc)
    as (l2 & w2 & R2 & H2 & _).
  rewrite (bind_ok _ _ _ _ _ R2).
  destruct (revenue_stage _ _ d _ st Hwf H2 Hrev) as (l3 & w3 & R3 & H3 & _).
  rewrite (bind_ok _ _ _ _ _ R3).
  destruct (lead_time_stage _ _ d _ st Hwf H3 Hlt) as (l4 & w4 & R4 & H4 & _).
  rewrite (bind_ok _ _ _ _ _ R4).
  destruct (risk_stage _ _ d _ st Hwf H4 Hrisk) as (l5 & w5 & R5 & H5 & _).
  rewrite (bind_ok _ _ _ _ _ R5).
  exists l5, w5. split; [reflexivity|]. exact H5.
Qed.

Lemma main_filters_exact w l d pt loc0 :
  heap w !! l = Some d -> filters_ready (selections pt loc0) d ->
  exists l' w',
    Enhanced.main_filters l pt loc0 w = (Ok l', w') /\
    heap w' !! l' = Some (pd.take (filter_mask (selections pt loc0) d) d).
Proof.
  intros Hl (Hwf & Hpt & Hloc & _). simpl in Hpt, Hloc.
  unfold Enhanced.main_filters.
  erewrite bind_ok by (apply copy_ok; exact Hl).
  pose proof (holds_rows_copy w l d Hl Hwf) as H0.
  destruct (selection_stage _ _ d _ "Product type" pt Hwf H0 Hpt) as (l1 & w1 & R1 & H1 & _).
  rewrite (bind_ok _ _ _ _ _ R1).
  destruct (selection_stage _ _ d _ "Location" loc0 Hwf H1 Hloc) as (l2 & w2 & R2 & H2 & _).
  rewrite (bind_ok _ _ _ _ _ R2).
  exists l2, w2. split; [reflexivity|].
  unfold filter_mask, filter_masks, revenue_mask, lead_time_mask, risk_mask. simpl.
  destruct H2 as [H2 L2]. rewrite !(mask_and_all_rows _ d L2). exact H2.
Qed.

Lemma compress_self mask : pd.compress mask mask = replicate (length (pd.compress mask mask)) true.
Proof. induction mask as [|[] mask IH]; simpl; [reflexivity| |exact IH]. now rewrite <- IH. Qed.

Lemma compress_fold_mask_and mask ms a :
  pd.compress mask (fold_left pd.mask_and ms a)
  = fold_left pd.mask_and (map (pd.compress mask) ms) (pd.compress mask a).
Proof.
  revert a. induction ms as [|m ms IH]; intros a; simpl; [reflexivity|].
  rewrite IH. unfold pd.mask_and at 2 4. now rewrite compress_zip_with.
Qed.

Lemma filter_mask_take st mask d :
  length mask = pd.len d ->
  filter_mask st (pd.take mask d) = pd.compress mask (filter_mask st d).
Proof.
  intros H. unfold filter_mask.
  now rewrite compress_fold_mask_and, filter_masks_take, all_rows_take.
Qed.

Lemma filters_ready_take st mask d :
  filters_ready st d -> filters_ready st (pd.take mask d).
Proof.
  intros (Hwf & Hpt & Hloc & Hrev & Hlt & Hrisk).
  split; [now apply wf_take|].
  split; [intros E; destruct (Hpt E) as [s Hs]; rewrite column_take, Hs; simpl; eauto|].
  split; [intros E; destruct (Hloc E) as [s Hs]; rewrite column_take, Hs; simpl; eauto|].
  split; [intros E; now apply has_numeric_take, Hrev|].
  split; [intros E; now apply has_numeric_take, Hlt|].
  intros level levels E. destruct (Hrisk level levels E) as [s Hs].
  rewrite column_take, Hs. simpl. eauto.
Qed.

Lemma fold_mask_and_length ms a n :
  length a = n -> Forall (fun m => length m = n) ms ->
  length (fold_left pd.mask_and ms a) = n.
Proof.
  intros Ha Hms. revert a Ha. induction Hms as [|m ms Hm _ IH]; intros a Ha; simpl; [exact Ha|].
  apply IH. rewrite mask_and_length; congruence.
Qed.

Lemma filter_mask_length st d : filters_ready st d -> length (filter_mask st d) = pd.len d.
Proof.
  intros (Hwf & _ & _ & Hrev & Hlt & _). apply fold_mask_and_length; [apply all_rows_length|].
  repeat apply List.Forall_cons; try apply List.Forall_nil;
    auto using selection_mask_length, revenue_mask_length, lead_time_mask_length,
               risk_mask_length.
Qed.

(** A row passes the filter exactly when it passes each of the five
    tests. *)
Lemma filter_mask_lookup st d i :
  filter_mask st d !! i = Some true <->
  i < pd.len d /\ Forall (fun m => m !! i = Some true) (filter_masks st d).
Proof.
  unfold filter_mask, filter_masks. simpl. rewrite !mask_and_lookup.
  unfold all_rows. rewrite lookup_replicate.
  rewrite !Forall_cons, Forall_nil. tauto.
Qed.

Lemma session_apply_filters w l :
  session_state (Interactive.apply_filters l w).2 = session_state w.
Proof. now destruct (keeps_apply_filters 0 l w (Nat.le_0_l _)) as (H & _). Qed.

Lemma fresh_apply_filters w l l' w' :
  Interactive.apply_filters l w = (Ok l', w') -> heap w !! l' = None.
Proof.
  intros H. destruct (keeps_apply_filters (length (heap w)) l w (Nat.le_refl _))
    as (_ & _ & _ & H4).
  apply lookup_ge_None. apply H4. now rewrite H.
Qed.

(** X3.  [apply_filters] drops rows in up to five steps, each test made on
    what the steps before have left.  On a frame that has the columns the
    active filters test, the outcome is one selection: a new frame with
    the rows of the input, in their order and with their labels, that pass
    every active test, a test being made on the input itself. *)
Theorem apply_filters_keeps_rows_passing_every_test w l d :
  heap w !! l = Some d -> filters_ready (session_state w) d ->
  exists l' w' mask,
    Interactive.apply_filters l w = (Ok l', w') /\
    heap w !! l' = None /\
    heap w' !! l' = Some (pd.take mask d) /\
    length mask = pd.len d /\
    forall i, mask !! i = Some true <->
      i < pd.len d /\
      Forall (fun m => m !! i = Some true) (filter_masks (session_state w) d).
Proof.
  intros Hl Hr. destruct (apply_filters_exact w l d Hl Hr) as (l' & w' & Hrun & Hh & Hlen).
  exists l', w', (filter_mask (session_state w) d).
  split; [exact Hrun|]. split; [eapply fresh_apply_filters; eauto|].
  split; [exact Hh|]. split; [exact Hlen|]. apply filter_mask_lookup.
Qed.

Lemma apply_filters_keeps_rows_passing_every_test_witness :
  exists l' w' mask,
    Interactive.apply_filters 0 narrow_world = (Ok l', w') /\
    heap w' !! l' = Some (pd.take mask trade_frame) /\
    mask !! 0 = Some true /\ mask !! 1 <> Some true /\ mask !! 2 <> Some true.
Proof.
  destruct (apply_filters_keeps_rows_passing_every_test narrow_world 0 trade_frame)
    as (l' & w' & mask & H1 & _ & H2 & _ & H3).
  - reflexivity.
  - split; [repeat constructor|].
    split; [intros _; eexists; reflexivity|]. split; [intros _; eexists; reflexivity|].
    split; [intros _; eexists; split; [reflexivity | exact I]|].
    split; [intros _; eexists; split; [reflexivity | exact I]|].
    intros ? ? E. discriminate E.
  - exists l', w', mask. split; [exact H1|]. split; [exact H2|]. split; [|split].
    + apply H3. split; [vm_compute; lia|]. repeat constructor.
    + intros E. apply H3 in E as [_ E]. inversion E as [|? ? _ E1]. inversion E1 as [|? ? _ E2].
      inversion E2 as [|? ? _ E3]. inversion E3 as [|? ? E4 _]. discriminate E4.
    + intros E. apply H3 in E as [_ E]. inversion E as [|? ? E1 _]. discriminate E1.
Defined.

(** X4.  With nothing selected and no range or risk attribute in the
    session, [apply_filters] returns a copy: a new object equal to its
    argument, whatever the frame holds. *)
Theorem apply_filters_without_filters_copies w l d :
  heap w !! l = Some d ->
  selected_product_type (session_state w) = "All" ->
  selected_location (session_state w) = "All" ->
  revenue_range (session_state w) = None ->
  lead_time_max (session_state w) = None ->
  risk_levels (session_state w) = None \/ risk_levels (session_state w) = Some [] ->
  Interactive.apply_filters l w = (Ok (length (heap w)), set_heap (heap w ++ [d]) w).
Proof.
  intros Hl Hpt Hloc Hrev Hlt Hrisk. unfold Interactive.apply_filters.
  erewrite bind_ok by (apply copy_ok; exact Hl).
  erewrite bind_ok by reflexivity. cbn [session_state set_heap].
  rewrite Hpt, Hloc, Hrev, Hlt. destruct Hrisk as [-> | ->]; reflexivity.
Qed.

Lemma apply_filters_without_filters_copies_witness :
  Interactive.apply_filters 0 (world_of trade_frame)
  = (Ok 1, set_heap [trade_frame; trade_frame] (world_of trade_frame)).
Proof.
  apply (apply_filters_without_filters_copies (world_of trade_frame) 0 trade_frame);
    try reflexivity. now left.
Defined.

Lemma column_take_Object c mask d v :
  pd.column c (pd.take mask d) = Some (Object v) ->
  exists v0, pd.column c d = Some (Object v0) /\ v = pd.compress mask v0.
Proof.
  rewrite column_take. destruct (pd.column c d) as [[]|]; simpl; intros [= <-]; eauto.
Qed.

Lemma column_take_Categorical c mask d v :
  pd.column c (pd.take mask d) = Some (Categorical v) ->
  exists v0, pd.column c d = Some (Categorical v0) /\ v = pd.compress mask v0.
Proof.
  rewrite column_take. destruct (pd.column c d) as [[]|]; simpl; intros [= <-]; eauto.
Qed.

(** What passing one test says of the row's entry. *)
Lemma selection_mask_true c k d v i s :
  k <> "All" -> pd.column c d = Some (Object v) -> v !! i = Some s ->
  selection_mask c k d !! i = Some true -> s = k.
Proof.
  intros Hk Hc Hs. unfold selection_mask, text_mask. rewrite decide_False, Hc by exact Hk.
  simpl. rewrite list_lookup_fmap, Hs. simpl. intros [= H].
  now apply bool_decide_eq_true in H.
Qed.

Lemma revenue_mask_true st d lo hi i x :
  revenue_range st = Some (lo, hi) -> numbers "Revenue generated" d !! i = Some x ->
  revenue_mask st d !! i = Some true -> B64.geb x lo = true /\ B64.leb x hi = true.
Proof.
  intros Hr Hx. unfold revenue_mask. rewrite Hr, mask_and_lookup, !list_lookup_fmap, Hx.
  simpl. intros [[= H1] [= H2]]. auto.
Qed.

Lemma lead_time_mask_true st d k i x :
  lead_time_max st = Some k -> numbers "Lead times" d !! i = Some x ->
  lead_time_mask st d !! i = Some true -> B64.leb x (B64.of_int k) = true.
Proof.
  intros Hk Hx. unfold lead_time_mask. rewrite Hk, list_lookup_fmap, Hx.
  simpl. now intros [= H].
Qed.

Lemma risk_mask_true st d level levels v i o :
  risk_levels st = Some (level :: levels) -> pd.column "Risk_Level" d = Some (Categorical v) ->
  v !! i = Some o -> risk_mask st d !! i = Some true ->
  exists s, o = Some s /\ s ∈ level :: levels.
Proof.
  intros Hr Hc Ho. unfold risk_mask. rewrite Hr, Hc. simpl.
  rewrite list_lookup_fmap, Ho. simpl. destruct o as [s|]; [|discriminate].
  intros [= H]. apply bool_decide_eq_true in H. eauto.
Qed.

(** An entry of a column of the filtered frame comes from a row that
    passes the five tests. *)
Lemma filtered_entry {A} st d (v : list A) x :
  In x (pd.compress (filter_mask st d) v) ->
  exists i, v !! i = Some x /\ Forall (fun m => m !! i = Some true) (filter_masks st d).
Proof.
  intros H. destruct (compress_In_lookup _ _ _ H) as (i & Hx & Hm).
  exists i. split; [exact Hx|]. now apply filter_mask_lookup in Hm.
Qed.

Ltac passed H :=
  unfold filter_masks in H;
  repeat match type of H with
         | Forall _ (_ :: _) => let H1 := fresh "P" in apply Forall_cons in H as [H1 H]
         end.

(** X5.  Every row [apply_filters] returns passes the active tests: its
    product type and location are the selected ones, its revenue lies in
    the selected range (so it is no NaN), its lead time is at most the
    selected maximum, and its risk level is one of the selected names (so
    the row has one). *)
Theorem filtered_rows_pass_the_active_tests w l d :
  heap w !! l = Some d -> filters_ready (session_state w) d ->
  exists l' w' d',
    Interactive.apply_filters l w = (Ok l', w') /\
    heap w' !! l' = Some d' /\
    (selected_product_type (session_state w) <> "All" ->
     forall v, pd.column "Product type" d' = Some (Object v) ->
     forall s, In s v -> s = selected_product_type (session_state w)) /\
    (selected_location (session_state w) <> "All" ->
     forall v, pd.column "Location" d' = Some (Object v) ->
     forall s, In s v -> s = selected_location (session_state w)) /\
    (forall min_rev max_rev, revenue_range (session_state w) = Some (min_rev, max_rev) ->
     forall x, In x (numbers "Revenue generated" d') ->
       B64.geb x min_rev = true /\ B64.leb x max_rev = true) /\
    (forall k, lead_time_max (session_state w) = Some k ->
     forall x, In x (numbers "Lead times" d') -> B64.leb x (B64.of_int k) = true) /\
    (forall level levels, risk_levels (session_state w) = Some (level :: levels) ->
     forall v, pd.column "Risk_Level" d' = Some (Categorical v) ->
     forall o, In o v -> exists s, o = Some s /\ s ∈ level :: levels).
Proof.
  intros Hl Hr. destruct (apply_filters_exact w l d Hl Hr) as (l' & w' & Hrun & Hh & Hlen).
  set (st := session_state w) in *.
  exists l', w', (pd.take (filter_mask st d) d).
  split; [exact Hrun|]. split; [exact Hh|].
  split; [|split; [|split; [|split]]].
  - intros Hk v Hv s Hs. apply column_take_Object in Hv as (v0 & Hv0 & ->).
    apply filtered_entry in Hs as (i & Hi & Hp). passed Hp.
    eapply selection_mask_true; eauto.
  - intros Hk v Hv s Hs. apply column_take_Object in Hv as (v0 & Hv0 & ->).
    apply filtered_entry in Hs as (i & Hi & Hp). passed Hp.
    eapply selection_mask_true; eauto.
  - intros lo hi Hrange x Hx. rewrite numbers_take in Hx.
    apply filtered_entry in Hx as (i & Hi & Hp). passed Hp.
    eapply revenue_mask_true; eauto.
  - intros k Hk x Hx. rewrite numbers_take in Hx.
    apply filtered_entry in Hx as (i & Hi & Hp). passed Hp.
    eapply lead_time_mask_true; eauto.
  - intros level levels Hrisk v Hv o Ho. apply column_take_Categorical in Hv as (v0 & Hv0 & ->).
    apply filtered_entry in Ho as (i & Hi & Hp). passed Hp.
    eapply risk_mask_true; eauto.
Qed.

Lemma filtered_rows_pass_the_active_tests_witness :
  exists l' w' d',
    Interactive.apply_filters 0 narrow_world = (Ok l', w') /\
    heap w' !! l' = Some d' /\
    (forall v, pd.column "Product type" d' = Some (Object v) -> forall s, In s v -> s = "A") /\
    (forall x, In x (numbers "Lead times" d') -> B64.leb x (B64.of_int 1) = true).
Proof.
  destruct (filtered_rows_pass_the_active_tests narrow_world 0 trade_frame)
    as (l' & w' & d' & H1 & H2 & H3 & _ & _ & H4 & _).
  - reflexivity.
  - split; [repeat constructor|].
    split; [intros _; eexists; reflexivity|]. split; [intros _; eexists; reflexivity|].
    split; [intros _; eexists; split; [reflexivity | exact I]|].
    split; [intros _; eexists; split; [reflexivity | exact I]|].
    intros ? ? E. discriminate E.
  - exists l', w', d'. split; [exact H1|]. split; [exact H2|]. split.
    + apply H3. discriminate.
    + apply (H4 1%Z). reflexivity.
Defined.

(** X6.  Filtering is idempotent: [apply_filters] applied to the frame it
    returned, under the same session, returns a frame equal to it. *)
Theorem apply_filters_idempotent w l d :
  heap w !! l = Some d -> filters_ready (session_state w) d ->
  exists l1 w1 d1 l2 w2,
    Interactive.apply_filters l w = (Ok l1, w1) /\
    heap w1 !! l1 = Some d1 /\
    Interactive.apply_filters l1 w1 = (Ok l2, w2) /\
    heap w2 !! l2 = Some d1.
Proof.
  intros Hl Hr. destruct (apply_filters_exact w l d Hl Hr) as (l1 & w1 & Hrun & Hh & Hlen).
  set (st := session_state w) in *. set (F := filter_mask st d) in *.
  assert (session_state w1 = st) as Hst.
  { pose proof (session_apply_filters w l) as H. now rewrite Hrun in H. }
  assert (filters_ready (session_state w1) (pd.take F d)) as Hr1.
  { rewrite Hst. now apply filters_ready_take. }
  destruct (apply_filters_exact w1 l1 _ Hh Hr1) as (l2 & w2 & Hrun2 & Hh2 & _).
  exists l1, w1, (pd.take F d), l2, w2.
  split; [exact Hrun|]. split; [exact Hh|]. split; [exact Hrun2|].
  rewrite Hh2. f_equal. rewrite Hst, filter_mask_take by exact Hlen. fold F.
  rewrite compress_self.
  replace (length (pd.compress F F)) with (pd.len (pd.take F d)).
  - apply take_all. apply wf_take, Hr.
  - rewrite len_take. apply compress_length. unfold pd.len in Hlen. congruence.
Qed.

Lemma apply_filters_idempotent_witness :
  exists l1 w1 d1 l2 w2,
    Interactive.apply_filters 0 narrow_world = (Ok l1, w1) /\
    heap w1 !! l1 = Some d1 /\
    Interactive.apply_filters l1 w1 = (Ok l2, w2) /\
    heap w2 !! l2 = Some d1.
Proof.
  apply (apply_filters_idempotent narrow_world 0 trade_frame).
  - reflexivity.
  - split; [repeat constructor|].
    split; [intros _; eexists; reflexivity|]. split; [intros _; eexists; reflexivity|].
    split; [intros _; eexists; split; [reflexivity | exact I]|].
    split; [intros _; eexists; split; [reflexivity | exact I]|].
    intros ? ? E. discriminate E.
Defined.

(** X7.  The filters of the first dashboard are the filters of the second
    one with its later additions switched off: as long as the session has
    no revenue range, no maximal lead time and no risk level, the in-line
    filters of [main()] and [apply_filters] do the same on every world,
    return value, exception and resulting heap alike. *)
Theorem main_filters_are_apply_filters_without_ranges w l :
  revenue_range (session_state w) = None ->
  lead_time_max (session_state w) = None ->
  risk_levels (session_state w) = None \/ risk_levels (session_state w) = Some [] ->
  Enhanced.main_filters l (selected_product_type (session_state w))
    (selected_location (session_state w)) w
  = Interactive.apply_filters l w.
Proof.
  intros Hrev Hlt Hrisk.
  unfold Enhanced.main_filters, Interactive.apply_filters.
  assert (session_state (pd.copy l w).2 = session_state w) as Hs
    by now destruct (keeps_copy 0 l w (Nat.le_0_l _)) as (H & _).
  destruct (pd.copy l w) as [[l0|e] w0] eqn:E0;
    [rewrite !(bind_ok _ _ _ _ _ E0) | now rewrite !(bind_raise _ _ _ _ _ E0)].
  simpl in Hs. erewrite (bind_ok get_session) by reflexivity.
  rewrite Hs, Hrev, Hlt.
  match goal with
  | |- bind ?c _ _ = _ =>
      destruct (c w0) as [[l1|e] w1] eqn:E1;
        [rewrite !(bind_ok _ _ _ _ _ E1) | now rewrite !(bind_raise _ _ _ _ _ E1)]
  end.
  match goal with
  | |- bind ?c _ _ = _ =>
      destruct (c w1) as [[l2|e] w2] eqn:E2;
        [rewrite !(bind_ok _ _ _ _ _ E2) | now rewrite !(bind_raise _ _ _ _ _ E2)]
  end.
  destruct Hrisk as [-> | ->]; reflexivity.
Qed.

Lemma main_filters_are_apply_filters_without_ranges_witness :
  let w := {| heap := [trade_frame]; random := counting;
              session_state := selections "A" "X"; engine := idle |} in
  Enhanced.main_filters 0 "A" "X" w = Interactive.apply_filters 0 w.
Proof.
  apply (main_filters_are_apply_filters_without_ranges
           {| heap := [trade_frame]; random := counting;
              session_state := selections "A" "X"; engine := idle |} 0);
    try reflexivity. now left.
Defined.

Lemma getitem_missing l w d c :
  heap w !! l = Some d -> pd.column c d = None -> pd.getitem l c w = (Raise (KeyError c), w).
Proof.
  intros Hl Hc. unfold pd.getitem.
  erewrite bind_ok by (apply deref_ok; eassumption). now rewrite Hc.
Qed.

(** X8.  The risk filter needs the [Risk_Level] column: on a frame without
    it, such as one enriched by [calculate_derived_metrics] only, and with
    a non-empty list of risk levels in the session, [apply_filters] raises
    a [KeyError] for that column once the filters before it have run; no
    existing frame is changed. *)
Theorem apply_filters_without_risk_level_raises w l d level levels :
  heap w !! l = Some d -> pd.wf d ->
  (selected_product_type (session_state w) <> "All" ->
     exists s, pd.column "Product type" d = Some s) ->
  (selected_location (session_state w) <> "All" -> exists s, pd.column "Location" d = Some s) ->
  (revenue_range (session_state w) <> None -> has_numeric d "Revenue generated") ->
  (lead_time_max (session_state w) <> None -> has_numeric d "Lead times") ->
  risk_levels (session_state w) = Some (level :: levels) ->
  pd.column "Risk_Level" d = None ->
  exists w',
    Interactive.apply_filters l w = (Raise (KeyError "Risk_Level"), w') /\ untouched w w'.
Proof.
  intros Hl Hwf Hpt Hloc Hrev Hlt Hrisk Hnone.
  pose proof (keeps_untouched _ _ w (keeps_apply_filters (length (heap w)) l)) as Hu.
  set (st := session_state w) in *.
  unfold Interactive.apply_filters in *.
  erewrite bind_ok in * by (apply copy_ok; exact Hl).
  erewrite bind_ok in * by reflexivity. cbn [session_state set_heap] in *. fold st in Hu |- *.
  pose proof (holds_rows_copy w l d Hl Hwf) as H0.
  destruct (selection_stage _ _ d _ "Product type" (selected_product_type st) Hwf H0 Hpt)
    as (l1 & w1 & R1 & H1 & _).
  rewrite (bind_ok _ _ _ _ _ R1) in *.
  destruct (selection_stage _ _ d _ "Location" (selected_location st) Hwf H1 Hloc)
    as (l2 & w2 & R2 & H2 & _).
  rewrite (bind_ok _ _ _ _ _ R2) in *.
  destruct (revenue_stage _ _ d _ st Hwf H2 Hrev) as (l3 & w3 & R3 & H3 & _).
  rewrite (bind_ok _ _ _ _ _ R3) in *.
  destruct (lead_time_stage _ _ d _ st Hwf H3 Hlt) as (l4 & w4 & R4 & H4 & _).
  rewrite (bind_ok _ _ _ _ _ R4) in *.
  rewrite Hrisk in *.
  assert (pd.getitem l4 "Risk_Level" w4 = (Raise (KeyError "Risk_Level"), w4)) as R5
    by (eapply getitem_missing; [apply H4 | rewrite column_take, Hnone; reflexivity]).
  erewrite bind_raise in * by (erewrite bind_raise by exact R5; reflexivity).
  exists w4. split; [reflexivity | exact Hu].
Qed.

Lemma apply_filters_without_risk_level_raises_witness :
  result_exn (Interactive.apply_filters 0 trade_world) = Some (KeyError "Risk_Level").
Proof.
  destruct (apply_filters_without_risk_level_raises trade_world 0 trade_frame
              "Low" ["Medium"; "High"; "Critical"]) as (w' & H & _).
  - reflexivity.
  - repeat constructor.
  - intros E. now elim E.
  - intros E. now elim E.
  - intros _. eexists. split; [reflexivity | exact I].
  - intros _. eexists. split; [reflexivity | exact I].
  - reflexivity.
  - reflexivity.
  - now rewrite H.
Defined.

(* ===================================================================== *)
(** * More on the risk levels                                              *)
(* ===================================================================== *)

Lemma risk_level_nan x : B64.is_nan x = true -> risk_level x = None.
Proof. destruct x; try discriminate. reflexivity. Qed.

(** A rate gets a level exactly when it is above 0. *)
Lemma risk_level_positive x :
  (B64.ltb B64.zero x = true -> exists s, risk_level x = Some s /\ In s Interactive.risk_labels) /\
  (B64.ltb B64.zero x = false -> risk_level x = None).
Proof.
  destruct (B64.is_nan x) eqn:Hn.
  - rewrite (risk_level_nan x Hn). split; [|reflexivity].
    intros H. apply ltb_true in H as (_ & H & _). congruence.
  - rewrite (risk_level_edges x _ _ _ _ Hn eq_refl eq_refl eq_refl eq_refl).
    split; intros ->; [|reflexivity].
    destruct (B64.ltb B64.f1 x), (B64.ltb B64.f3 x), (B64.ltb B64.f5 x);
      eexists; (split; [reflexivity | simpl; tauto]).
Qed.

Lemma lt3_le_trans a b c : B64.lt3 a b -> ~ B64.lt3 c b -> B64.lt3 a c.
Proof.
  intros Hab Hcb. destruct (lt3_cases b c) as [H|[H|H]]; [|now subst|tauto].
  eapply lt3_trans; eauto.
Qed.

(** An edge below [x] is below every [y] that [x] does not exceed. *)
Lemma edge_below_monotone c x y :
  B64.leb x y = true -> B64.ltb c x = true -> B64.ltb c y = true.
Proof.
  intros Hxy Hcx. apply leb_true in Hxy as (Hx & Hy & Hxy).
  apply ltb_true in Hcx as (Hc & _ & Hcx). apply ltb_true.
  split; [exact Hc|]. split; [exact Hy|]. eapply lt3_le_trans; eauto.
Qed.

Lemma risk_level_monotone x y :
  B64.leb x y = true -> severity (risk_level x) <= severity (risk_level y).
Proof.
  intros Hxy. pose proof Hxy as H. apply leb_true in H as (Hx & Hy & _).
  rewrite (risk_level_edges x _ _ _ _ Hx eq_refl eq_refl eq_refl eq_refl).
  rewrite (risk_level_edges y _ _ _ _ Hy eq_refl eq_refl eq_refl eq_refl).
  pose proof (edge_below_monotone B64.zero x y Hxy) as M0.
  pose proof (edge_below_monotone B64.f1 x y Hxy) as M1.
  pose proof (edge_below_monotone B64.f3 x y Hxy) as M3.
  pose proof (edge_below_monotone B64.f5 x y Hxy) as M5.
  destruct (B64.ltb B64.zero x); [rewrite M0 by reflexivity | simpl; lia].
  destruct (B64.ltb B64.f1 x); [rewrite M1 by reflexivity|].
  - destruct (B64.ltb B64.f3 x); [rewrite M3 by reflexivity|].
    + destruct (B64.ltb B64.f5 x); [rewrite M5 by reflexivity; reflexivity|].
      destruct (B64.ltb B64.f5 y); vm_compute; lia.
    + destruct (B64.ltb B64.f3 y), (B64.ltb B64.f5 y); vm_compute; lia.
  - destruct (B64.ltb B64.f1 y), (B64.ltb B64.f3 y), (B64.ltb B64.f5 y); vm_compute; lia.
Qed.

(** X9.  [calculate_advanced_metrics] gives a risk level, one of the four
    names, to exactly the rows whose defect rate is above 0: a rate that
    is 0, negative or NaN gets none. *)
Theorem risk_level_given_to_positive_rates_only w l d :
  heap w !! l = Some d -> pd.wf d -> Forall (has_numeric d) advanced_inputs ->
  exists l' w' d' levels,
    Interactive.calculate_advanced_metrics l w = (Ok l', w') /\
    heap w' !! l' = Some d' /\
    pd.column "Risk_Level" d' = Some (Categorical levels) /\
    forall i x, numbers "Defect rates" d !! i = Some x ->
      (B64.ltb B64.zero x = true ->
         exists s, levels !! i = Some (Some s) /\ In s Interactive.risk_labels) /\
      (B64.ltb B64.zero x = false -> levels !! i = Some None).
Proof.
  intros Hl Hwf Hin.
  destruct (advanced_run w l d Hl Hwf Hin) as (pm & tsc & _ & _ & Hrun).
  eexists _, _, _, _. split; [exact Hrun|].
  split; [apply lookup_top|]. split; [apply risk_level_column|].
  intros i x Hx. rewrite list_lookup_fmap, Hx. simpl.
  destruct (risk_level_positive x) as [Hpos Hnone]. split.
  - intros H. destruct (Hpos H) as (s & -> & Hs). eauto.
  - intros H. now rewrite Hnone.
Qed.

Lemma risk_level_given_to_positive_rates_only_witness :
  exists l' w' d' levels,
    Interactive.calculate_advanced_metrics 0 (world_of trade_frame) = (Ok l', w') /\
    heap w' !! l' = Some d' /\
    pd.column "Risk_Level" d' = Some (Categorical levels) /\
    levels !! 2 = Some None /\
    exists s, levels !! 1 = Some (Some s) /\ In s Interactive.risk_labels.
Proof.
  destruct (risk_level_given_to_positive_rates_only (world_of trade_frame) 0 trade_frame)
    as (l' & w' & d' & levels & Hrun & Hd' & Hcol & Hrows); [ready | ready | ready |].
  exists l', w', d', levels. repeat split; try assumption.
  - apply (Hrows 2 B64.zero); reflexivity.
  - apply (Hrows 1 B64.f3); reflexivity.
Defined.

(** X10.  The risk level never decreases with the defect rate: of two rows
    of a frame, the one with the higher rate is in the same or in a more
    severe risk class (none, Low, Medium, High, Critical). *)
Theorem risk_level_monotone_in_defect_rate w l d :
  heap w !! l = Some d -> pd.wf d -> Forall (has_numeric d) advanced_inputs ->
  exists l' w' d' levels,
    Interactive.calculate_advanced_metrics l w = (Ok l', w') /\
    heap w' !! l' = Some d' /\
    pd.column "Risk_Level" d' = Some (Categorical levels) /\
    forall i j x y a b,
      numbers "Defect rates" d !! i = Some x -> numbers "Defect rates" d !! j = Some y ->
      levels !! i = Some a -> levels !! j = Some b ->
      B64.leb x y = true -> severity a <= severity b.
Proof.
  intros Hl Hwf Hin.
  destruct (advanced_run w l d Hl Hwf Hin) as (pm & tsc & _ & _ & Hrun).
  eexists _, _, _, _. split; [exact Hrun|].
  split; [apply lookup_top|]. split; [apply risk_level_column|].
  intros i j x y a b Hx Hy. rewrite !list_lookup_fmap, Hx, Hy. simpl.
  intros [= <-] [= <-]. apply risk_level_monotone.
Qed.

Lemma risk_level_monotone_in_defect_rate_witness :
  exists l' w' d' levels a b,
    Interactive.calculate_advanced_metrics 0 (world_of boundary_frame) = (Ok l', w') /\
    heap w' !! l' = Some d' /\
    pd.column "Risk_Level" d' = Some (Categorical levels) /\
    levels !! 1 = Some a /\ levels !! 4 = Some b /\ severity a <= severity b.
Proof.
  destruct (risk_level_monotone_in_defect_rate (world_of boundary_frame) 0 boundary_frame)
    as (l' & w' & d' & levels & Hrun & Hd' & Hcol & Hrows); [ready | ready | ready |].
  assert (length levels = 7) as Hn.
  { vm_compute in Hrun. injection Hrun as <- <-. vm_compute in Hd'. injection Hd' as <-.
    vm_compute in Hcol. injection Hcol as <-. reflexivity. }
  destruct (lookup_lt_is_Some_2 levels 1) as [a Ha]; [lia|].
  destruct (lookup_lt_is_Some_2 levels 4) as [b Hb]; [lia|].
  exists l', w', d', levels, a, b. repeat split; try assumption.
  apply (Hrows 1 4 B64.f1 (B64.dec 4999 1000)); try assumption; reflexivity.
Defined.

(* ===================================================================== *)
(** * The two enrichment functions side by side                            *)
(* ===================================================================== *)

Lemma profit_margin_spec d :
  pd.wf d -> has_numeric d "Revenue generated" -> has_numeric d "Manufacturing costs" ->
  exists a b,
    pd.column "Revenue generated" d = Some a /\ pd.column "Manufacturing costs" d = Some b /\
    pd.sub a b = Ok (profit_margin d) /\ pd.Series_len (profit_margin d) = pd.len d.
Proof.
  intros Hwf H1 H2.
  destruct (input_facts d _ Hwf H1) as (a & Ha & Fa & La).
  destruct (input_facts d _ Hwf H2) as (b & Hb & Fb & Lb).
  destruct (sub_ok _ _ _ _ Fa Fb) as (r & Hr & Lr).
  exists a, b. unfold profit_margin. rewrite Ha, Hb, Hr. repeat split; auto. lia.
Qed.

Lemma total_shipping_cost_spec d :
  pd.wf d -> has_numeric d "Number of products sold" -> has_numeric d "Shipping costs" ->
  exists a b,
    pd.column "Number of products sold" d = Some a /\ pd.column "Shipping costs" d = Some b /\
    pd.mul a b = Ok (total_shipping_cost d) /\
    pd.Series_len (total_shipping_cost d) = pd.len d.
Proof.
  intros Hwf H1 H2.
  destruct (input_facts d _ Hwf H1) as (a & Ha & Fa & La).
  destruct (input_facts d _ Hwf H2) as (b & Hb & Fb & Lb).
  destruct (mul_ok _ _ _ _ Fa Fb) as (r & Hr & Lr).
  exists a, b. unfold total_shipping_cost. rewrite Ha, Hb, Hr. repeat split; auto. lia.
Qed.

Ltac input H := eapply input_column; [exact H | simpl; tauto].

Section ExactRuns.

Variables (w : World) (l : loc) (d : DataFrame).
Hypothesis Hl : heap w !! l = Some d.
Hypothesis Hwf : pd.wf d.

Lemma derived_run_exact :
  Forall (has_numeric d) derived_inputs ->
  Enhanced.calculate_derived_metrics l w
  = (Ok (length (heap w)),
     set_heap (heap w ++ [derived_frame d (profit_margin d) (total_shipping_cost d)]) w).
Proof.
  intros Hin.
  destruct (profit_margin_spec d Hwf) as (srev & smc & Hrev & Hmc & Hpm & Lpm);
    [input Hin | input Hin |].
  destruct (total_shipping_cost_spec d Hwf) as (snps & ssc & Hnps & Hsc & Htsc & Ltsc);
    [input Hin | input Hin |].
  destruct (input_facts d "Revenue generated" Hwf) as (? & Hrev' & Frev & Lrev); [input Hin|].
  destruct (input_facts d "Manufacturing costs" Hwf) as (? & Hmc' & Fmc & Lmc); [input Hin|].
  destruct (input_facts d "Number of products sold" Hwf) as (? & Hnps' & Fnps & Lnps);
    [input Hin|].
  destruct (input_facts d "Stock levels" Hwf) as (ssl & Hsl & Fsl & Lsl); [input Hin|].
  rewrite Hrev in Hrev'. injection Hrev' as <-. rewrite Hmc in Hmc'. injection Hmc' as <-.
  rewrite Hnps in Hnps'. injection Hnps' as <-.
  unfold Enhanced.calculate_derived_metrics.
  erewrite bind_ok by (apply copy_ok; exact Hl).
  step_get. step_get. erewrite bind_lift_ok by exact Hpm. step_set.
  step_get. step_get. erewrite bind_lift_ok by exact Htsc. step_set.
  step_get. step_get. step_lift truediv_ok. step_set.
  step_get. step_get. step_lift truediv_ok. step_set.
  reflexivity.
Qed.

Lemma advanced_run_exact :
  Forall (has_numeric d) advanced_inputs ->
  Interactive.calculate_advanced_metrics l w
  = (Ok (length (heap w)),
     set_random (Nat.iter (pd.len d) next (Nat.iter (pd.len d) next (random w)))
       (set_heap (heap w ++ [advanced_frame d (profit_margin d) (total_shipping_cost d)
                               (random w)]) w)).
Proof.
  intros Hin.
  destruct (profit_margin_spec d Hwf) as (srev & smc & Hrev & Hmc & Hpm & Lpm);
    [input Hin | input Hin |].
  destruct (total_shipping_cost_spec d Hwf) as (snps & ssc & Hnps & Hsc & Htsc & Ltsc);
    [input Hin | input Hin |].
  destruct (input_facts d "Revenue generated" Hwf) as (? & Hrev' & Frev & Lrev); [input Hin|].
  destruct (input_facts d "Manufacturing costs" Hwf) as (? & Hmc' & Fmc & Lmc); [input Hin|].
  destruct (input_facts d "Number of products sold" Hwf) as (? & Hnps' & Fnps & Lnps);
    [input Hin|].
  destruct (input_facts d "Stock levels" Hwf) as (ssl & Hsl & Fsl & Lsl); [input Hin|].
  destruct (input_facts d "Lead times" Hwf) as (slt & Hlt & Flt & Llt); [input Hin|].
  destruct (input_facts d "Defect rates" Hwf) as (sdr & Hdr & Fdr & Ldr); [input Hin|].
  rewrite Hrev in Hrev'. injection Hrev' as <-. rewrite Hmc in Hmc'. injection Hmc' as <-.
  rewrite Hnps in Hnps'. injection Hnps' as <-.
  unfold Interactive.calculate_advanced_metrics.
  erewrite bind_ok by (apply copy_ok; exact Hl).
  step_get. step_get. erewrite bind_lift_ok by exact Hpm. step_set.
  step_get. step_get. erewrite bind_lift_ok by exact Htsc. step_set.
  step_get. step_lift gt_scalar_ok. step_get. step_get. step_lift truediv_ok.
  erewrite bind_lift_ok by reflexivity. step_set.
  step_get. step_lift gt_scalar_ok. step_get. step_get. step_lift truediv_ok.
  erewrite bind_lift_ok by reflexivity. step_set.
  step_get. step_get. step_lift max_ok. step_lift truediv_scalar_ok.
  erewrite bind_lift_ok by reflexivity.
  step_get. step_get. step_lift max_ok. step_lift truediv_scalar_ok.
  erewrite bind_lift_ok by reflexivity. erewrite bind_lift_ok by reflexivity.
  erewrite bind_lift_ok by reflexivity.
  step_get. step_get. step_lift max_ok. step_lift truediv_scalar_ok.
  erewrite bind_lift_ok by reflexivity. erewrite bind_lift_ok by reflexivity.
  erewrite bind_lift_ok by reflexivity. erewrite bind_lift_ok by reflexivity.
  step_set.
  step_get. step_lift cut_ok. step_set.
  erewrite bind_ok by (apply deref_ok; apply lookup_top).
  erewrite bind_ok by (apply random_choice_run; discriminate).
  step_set.
  erewrite bind_ok by (apply deref_ok; apply lookup_top).
  erewrite bind_ok by apply random_uniform_run.
  step_set.
  reflexivity.
Qed.

End ExactRuns.

Lemma advanced_inputs_derived d :
  Forall (has_numeric d) advanced_inputs -> Forall (has_numeric d) derived_inputs.
Proof.
  unfold advanced_inputs. intros H. now apply Forall_app in H as [H _].
Qed.

Lemma derived_ratio_column c num den d pm tsc :
  (c = "Efficiency_Ratio" /\ num = "Revenue generated" /\ den = "Manufacturing costs") \/
  (c = "Inventory_Turnover" /\ num = "Number of products sold" /\ den = "Stock levels") ->
  pd.column c (derived_frame d pm tsc)
  = Some (Float64 (zip_with B64.div (numbers num d) (numbers den d))).
Proof.
  intros [(-> & -> & ->)|(-> & -> & ->)]; unfold derived_frame; solve_column.
Qed.

(** Row by row, the guarded ratio is the plain quotient where the
    denominator is above 0 and 0 elsewhere. *)
Lemma guarded_ratio_lookup num den i m :
  length num = length den -> den !! i = Some m ->
  guarded_ratio num den !! i
  = if B64.gtb m B64.zero then zip_with B64.div num den !! i else Some B64.zero.
Proof.
  intros Hlen Hm.
  destruct (lookup_lt_is_Some_2 num i) as [n Hn].
  { rewrite Hlen. eapply lookup_lt_Some; eauto. }
  unfold guarded_ratio.
  rewrite lookup_zip_with, list_lookup_fmap, Hm. simpl.
  rewrite lookup_zip_with, Hn. simpl. rewrite Hm. simpl.
  now destruct (B64.gtb m B64.zero).
Qed.

(** X11.  The two dashboards derive the same profit margin and the same
    total shipping cost from a frame.  Their efficiency ratios and
    inventory turnovers agree on every row whose denominator
    (manufacturing cost, stock level) is above 0; on every other row, be
    the denominator 0, negative or NaN, the second dashboard has 0 where
    the first has the plain quotient. *)
Theorem enrichments_agree_where_the_denominator_is_positive w l d :
  heap w !! l = Some d -> pd.wf d -> Forall (has_numeric d) advanced_inputs ->
  let old := Enhanced.calculate_derived_metrics l w in
  let new := Interactive.calculate_advanced_metrics l w in
  (exists pm, result_column "Profit_Margin" old = Some pm /\
              result_column "Profit_Margin" new = Some pm) /\
  (exists tsc, result_column "Total_Shipping_Cost" old = Some tsc /\
               result_column "Total_Shipping_Cost" new = Some tsc) /\
  (exists eff eff',
     result_column "Efficiency_Ratio" old = Some (Float64 eff) /\
     result_column "Efficiency_Ratio" new = Some (Float64 eff') /\
     forall i m, numbers "Manufacturing costs" d !! i = Some m ->
       eff' !! i = if B64.gtb m B64.zero then eff !! i else Some B64.zero) /\
  (exists inv inv',
     result_column "Inventory_Turnover" old = Some (Float64 inv) /\
     result_column "Inventory_Turnover" new = Some (Float64 inv') /\
     forall i m, numbers "Stock levels" d !! i = Some m ->
       inv' !! i = if B64.gtb m B64.zero then inv !! i else Some B64.zero).
Proof.
  intros Hl Hwf Hin old new. subst old new.
  rewrite (derived_run_exact w l d Hl Hwf (advanced_inputs_derived d Hin)).
  rewrite (advanced_run_exact w l d Hl Hwf Hin).
  unfold result_column. cbn [heap set_heap set_random]. rewrite !lookup_top.
  assert (forall c, In c advanced_inputs -> length (numbers c d) = pd.len d) as Hlen
    by (intros; apply numbers_length; eauto using input_column).
  split; [|split; [|split]].
  - eexists. split; unfold derived_frame, advanced_frame, scored_frame; solve_column.
  - eexists. split; unfold derived_frame, advanced_frame, scored_frame; solve_column.
  - eexists _, _. split; [apply derived_ratio_column; tauto|].
    split; [apply efficiency_ratio_column|].
    intros i m Hm. apply guarded_ratio_lookup; [|exact Hm].
    rewrite !Hlen; simpl; tauto.
  - eexists _, _. split; [apply derived_ratio_column; tauto|].
    split; [apply inventory_turnover_column|].
    intros i m Hm. apply guarded_ratio_lookup; [|exact Hm].
    rewrite !Hlen; simpl; tauto.
Qed.

Lemma enrichments_agree_where_the_denominator_is_positive_witness :
  exists eff eff',
    result_column "Efficiency_Ratio"
      (Enhanced.calculate_derived_metrics 0 (world_of zero_cost_frame)) = Some (Float64 eff) /\
    result_column "Efficiency_Ratio"
      (Interactive.calculate_advanced_metrics 0 (world_of zero_cost_frame))
    = Some (Float64 eff') /\
    eff' !! 0 = Some B64.zero.
Proof.
  destruct (enrichments_agree_where_the_denominator_is_positive
              (world_of zero_cost_frame) 0 zero_cost_frame)
    as (_ & _ & (eff & eff' & H1 & H2 & H3) & _); [ready | ready | ready |].
  exists eff, eff'. split; [exact H1|]. split; [exact H2|].
  apply (H3 0 B64.zero). reflexivity.
Defined.

(* ===================================================================== *)
(** * Enriching twice                                                      *)
(* ===================================================================== *)

Lemma assign_same c s cols : pd.assoc c cols = Some s -> pd.assign c s cols = cols.
Proof.
  induction cols as [|[c' s'] cols IH]; simpl; [discriminate|].
  destruct (decide (c = c')); [now intros [= ->] | intros H; now rewrite IH].
Qed.

Lemma with_column_same c s d : pd.column c d = Some s -> pd.with_column c s d = d.
Proof.
  intros H. destruct d as [idx cols]. unfold pd.with_column, pd.column in *. simpl in *.
  now rewrite assign_same.
Qed.

Lemma names_assign c s cols :
  pd.assoc c cols <> None -> map fst (pd.assign c s cols) = map fst cols.
Proof.
  induction cols as [|[c' s'] cols IH]; simpl; [congruence|].
  destruct (decide (c = c')); simpl; [reflexivity | intros H; now rewrite IH].
Qed.

Lemma names_with_column c s d :
  pd.column c d <> None ->
  map fst (columns (pd.with_column c s d)) = map fst (columns d).
Proof. apply names_assign. Qed.

Lemma numbers_derived_frame c d pm tsc :
  ~ In c derived_outputs -> numbers c (derived_frame d pm tsc) = numbers c d.
Proof. intros Hc. unfold numbers. now rewrite derived_frame_column. Qed.

Lemma has_numeric_derived_frame c d pm tsc :
  ~ In c derived_outputs -> has_numeric d c -> has_numeric (derived_frame d pm tsc) c.
Proof. intros Hc (s & H & Hn). exists s. now rewrite derived_frame_column. Qed.

Lemma derived_inputs_kept d pm tsc :
  Forall (has_numeric d) derived_inputs ->
  Forall (has_numeric (derived_frame d pm tsc)) derived_inputs.
Proof.
  intros Hin. repeat apply List.Forall_cons; try apply List.Forall_nil;
    (apply has_numeric_derived_frame; [not_an_output | input Hin]).
Qed.

Lemma advanced_inputs_kept d pm tsc g :
  Forall (has_numeric d) advanced_inputs ->
  Forall (has_numeric (advanced_frame d pm tsc g)) advanced_inputs.
Proof.
  intros Hin. repeat apply List.Forall_cons; try apply List.Forall_nil;
    (apply has_numeric_advanced_frame; [not_an_output | input Hin]).
Qed.

Lemma profit_margin_derived_frame d pm tsc :
  profit_margin (derived_frame d pm tsc) = profit_margin d.
Proof. unfold profit_margin. now rewrite !derived_frame_column by not_an_output. Qed.

Lemma total_shipping_cost_derived_frame d pm tsc :
  total_shipping_cost (derived_frame d pm tsc) = total_shipping_cost d.
Proof. unfold total_shipping_cost. now rewrite !derived_frame_column by not_an_output. Qed.

Lemma profit_margin_advanced_frame d pm tsc g :
  profit_margin (advanced_frame d pm tsc g) = profit_margin d.
Proof. unfold profit_margin. now rewrite !advanced_frame_column by not_an_output. Qed.

Lemma total_shipping_cost_advanced_frame d pm tsc g :
  total_shipping_cost (advanced_frame d pm tsc g) = total_shipping_cost d.
Proof. unfold total_shipping_cost. now rewrite !advanced_frame_column by not_an_output. Qed.

(** Computing the derived columns of an enriched frame anew gives the
    columns it has. *)
Lemma derived_frame_twice d pm tsc :
  derived_frame (derived_frame d pm tsc) pm tsc = derived_frame d pm tsc.
Proof.
  unfold derived_frame at 1. rewrite !numbers_derived_frame by not_an_output.
  rewrite (with_column_same "Profit_Margin") by (unfold derived_frame; solve_column).
  rewrite (with_column_same "Total_Shipping_Cost") by (unfold derived_frame; solve_column).
  rewrite (with_column_same "Efficiency_Ratio") by (unfold derived_frame; solve_column).
  apply with_column_same. unfold derived_frame. solve_column.
Qed.

Lemma scored_frame_twice d pm tsc g :
  scored_frame (advanced_frame d pm tsc g) pm tsc = advanced_frame d pm tsc g.
Proof.
  unfold scored_frame at 1. rewrite !numbers_advanced_frame by not_an_output.
  rewrite (with_column_same "Profit_Margin")
    by (unfold advanced_frame, scored_frame; solve_column).
  rewrite (with_column_same "Total_Shipping_Cost")
    by (unfold advanced_frame, scored_frame; solve_column).
  rewrite (with_column_same "Efficiency_Ratio")
    by (unfold advanced_frame, scored_frame; solve_column).
  rewrite (with_column_same "Inventory_Turnover")
    by (unfold advanced_frame, scored_frame; solve_column).
  rewrite (with_column_same "Performance_Score")
    by (unfold advanced_frame, scored_frame; solve_column).
  apply with_column_same. unfold advanced_frame, scored_frame. solve_column.
Qed.

(** X12.  [calculate_derived_metrics] is idempotent: applied to the frame
    it returned, it returns a new frame equal to it, the four derived
    columns being computed again from inputs that have not changed and
    stored where they stand. *)
Theorem calculate_derived_metrics_idempotent w l d :
  heap w !! l = Some d -> pd.wf d -> Forall (has_numeric d) derived_inputs ->
  exists l1 w1 d1 l2 w2,
    Enhanced.calculate_derived_metrics l w = (Ok l1, w1) /\
    heap w1 !! l1 = Some d1 /\
    Enhanced.calculate_derived_metrics l1 w1 = (Ok l2, w2) /\
    l2 <> l1 /\ heap w2 !! l2 = Some d1.
Proof.
  intros Hl Hwf Hin.
  pose proof (derived_run_exact w l d Hl Hwf Hin) as Hrun.
  set (pm := profit_margin d) in *. set (tsc := total_shipping_cost d) in *.
  set (d1 := derived_frame d pm tsc) in *. set (w1 := set_heap _ w) in Hrun.
  assert (heap w1 !! length (heap w) = Some d1) as Hd1 by apply lookup_top.
  assert (pd.wf d1) as Hwf1.
  { destruct (profit_margin_spec d Hwf) as (_ & _ & _ & _ & _ & Lpm); [input Hin | input Hin|].
    destruct (total_shipping_cost_spec d Hwf) as (_ & _ & _ & _ & _ & Ltsc);
      [input Hin | input Hin|].
    now apply derived_frame_wf. }
  pose proof (derived_run_exact w1 _ d1 Hd1 Hwf1 (derived_inputs_kept d pm tsc Hin)) as Hrun2.
  unfold d1 in Hrun2 at 2 3.
  rewrite profit_margin_derived_frame, total_shipping_cost_derived_frame in Hrun2.
  fold pm tsc d1 in Hrun2. unfold d1 in Hrun2 at 1. rewrite derived_frame_twice in Hrun2.
  fold d1 in Hrun2.
  eexists _, _, _, _, _. split; [exact Hrun|]. split; [exact Hd1|]. split; [exact Hrun2|].
  split; [|apply lookup_top].
  unfold w1. simpl. rewrite length_app. simpl. lia.
Qed.

Lemma calculate_derived_metrics_idempotent_witness :
  exists l1 w1 d1 l2 w2,
    Enhanced.calculate_derived_metrics 0 (world_of trade_frame) = (Ok l1, w1) /\
    heap w1 !! l1 = Some d1 /\
    Enhanced.calculate_derived_metrics l1 w1 = (Ok l2, w2) /\
    l2 <> l1 /\ heap w2 !! l2 = Some d1.
Proof.
  apply (calculate_derived_metrics_idempotent (world_of trade_frame) 0 trade_frame); ready.
Defined.

(** X13.  Enriching an enriched frame again with
    [calculate_advanced_metrics] changes nothing but the simulated trends:
    the second result has the rows, the column names in their order, and,
    except for [Trend_Direction] and [Trend_Strength], the columns of the
    first. *)
Theorem calculate_advanced_metrics_twice_differs_in_trends_only w l d :
  heap w !! l = Some d -> pd.wf d -> Forall (has_numeric d) advanced_inputs ->
  exists l1 w1 d1 l2 w2 d2,
    Interactive.calculate_advanced_metrics l w = (Ok l1, w1) /\
    heap w1 !! l1 = Some d1 /\
    Interactive.calculate_advanced_metrics l1 w1 = (Ok l2, w2) /\
    heap w2 !! l2 = Some d2 /\
    index d2 = index d1 /\
    map fst (columns d2) = map fst (columns d1) /\
    forall c, ~ In c trend_columns -> pd.column c d2 = pd.column c d1.
Proof.
  intros Hl Hwf Hin.
  pose proof (advanced_run_exact w l d Hl Hwf Hin) as Hrun.
  set (pm := profit_margin d) in *. set (tsc := total_shipping_cost d) in *.
  set (d1 := advanced_frame d pm tsc (random w)) in *. set (w1 := set_random _ _) in Hrun.
  assert (heap w1 !! length (heap w) = Some d1) as Hd1 by apply lookup_top.
  assert (pd.wf d1) as Hwf1.
  { destruct (profit_margin_spec d Hwf) as (_ & _ & _ & _ & _ & Lpm); [input Hin | input Hin|].
    destruct (total_shipping_cost_spec d Hwf) as (_ & _ & _ & _ & _ & Ltsc);
      [input Hin | input Hin|].
    now apply advanced_frame_wf. }
  pose proof (advanced_run_exact w1 _ d1 Hd1 Hwf1 (advanced_inputs_kept d pm tsc _ Hin))
    as Hrun2.
  unfold d1 in Hrun2 at 4 5.
  rewrite profit_margin_advanced_frame, total_shipping_cost_advanced_frame in Hrun2.
  fold pm tsc d1 in Hrun2.
  assert (forall g, advanced_frame d1 pm tsc g
                    = pd.with_column "Trend_Strength"
                        (Float64 (uniforms B64.f0_1 B64.f1 (Nat.iter (pd.len d1) next g)
                                    (pd.len d1)))
                        (pd.with_column "Trend_Direction"
                           (Object (choices ["Up"; "Down"; "Stable"] g (pd.len d1))) d1)) as E.
  { intros g. unfold advanced_frame at 1. do 2 f_equal. subst d1. apply scored_frame_twice. }
  rewrite E in Hrun2.
  assert (forall c, In c trend_columns -> pd.column c d1 <> None) as Htrend.
  { intros c [<-|[<-|[]]]; subst d1; unfold advanced_frame;
      repeat (rewrite column_with_column_ne by (intros [=]));
      rewrite column_with_column_eq; discriminate. }
  eexists _, _, _, _, _, _. split; [exact Hrun|]. split; [exact Hd1|].
  split; [exact Hrun2|]. split; [apply lookup_top|].
  split; [reflexivity|]. split.
  - rewrite !names_with_column; [reflexivity | |].
    + apply Htrend. simpl. tauto.
    + rewrite column_with_column_ne by (intros [=]). apply Htrend. simpl. tauto.
  - intros c Hc. rewrite !column_with_column_ne; [reflexivity | |];
      intros ->; apply Hc; simpl; tauto.
Qed.

Lemma calculate_advanced_metrics_twice_differs_in_trends_only_witness :
  exists l1 w1 d1 l2 w2 d2,
    Interactive.calculate_advanced_metrics 0 (world_of trade_frame) = (Ok l1, w1) /\
    heap w1 !! l1 = Some d1 /\
    Interactive.calculate_advanced_metrics l1 w1 = (Ok l2, w2) /\
    heap w2 !! l2 = Some d2 /\
    pd.column "Performance_Score" d2 = pd.column "Performance_Score" d1.
Proof.
  destruct (calculate_advanced_metrics_twice_differs_in_trends_only
              (world_of trade_frame) 0 trade_frame)
    as (l1 & w1 & d1 & l2 & w2 & d2 & H1 & H2 & H3 & H4 & _ & _ & H5); [ready | ready | ready |].
  exists l1, w1, d1, l2, w2, d2. repeat split; try assumption.
  apply H5. simpl. intros [E|[E|[]]]; discriminate E.
Defined.

(* ===================================================================== *)
(** * The simulated trends                                                 *)
(* ===================================================================== *)

Lemma pick_In a r : a <> [] -> In (pick a r) a.
Proof.
  intros Ha. apply list_elem_of_In. eapply list_elem_of_lookup_2. now apply pick_lookup.
Qed.

Lemma choices_In a g n s : a <> [] -> In s (choices a g n) -> In s a.
Proof.
  intros Ha. revert g. induction n as [|n IH]; intros g; simpl; [tauto|].
  intros [<-|H]; [now apply pick_In | eauto].
Qed.

(** X14.  The two trend columns [calculate_advanced_metrics] adds have one
    entry per row, and every trend direction is one of Up, Down and Stable,
    whatever the generator yields. *)
Theorem trend_columns_are_well_formed w l d :
  heap w !! l = Some d -> pd.wf d -> Forall (has_numeric d) advanced_inputs ->
  exists l' w' d' directions strengths,
    Interactive.calculate_advanced_metrics l w = (Ok l', w') /\
    heap w' !! l' = Some d' /\
    pd.column "Trend_Direction" d' = Some (Object directions) /\
    pd.column "Trend_Strength" d' = Some (Float64 strengths) /\
    length directions = pd.len d /\ length strengths = pd.len d /\
    (forall s, In s directions -> In s ["Up"; "Down"; "Stable"]).
Proof.
  intros Hl Hwf Hin.
  destruct (advanced_run w l d Hl Hwf Hin) as (pm & tsc & _ & _ & Hrun).
  eexists _, _, _, _, _. split; [exact Hrun|]. split; [apply lookup_top|].
  split; [unfold advanced_frame; solve_column|].
  split; [unfold advanced_frame; solve_column|].
  split; [apply choices_length|]. split; [apply uniforms_length|].
  intros s. apply choices_In. discriminate.
Qed.

Lemma trend_columns_are_well_formed_witness :
  exists l' w' d' directions strengths,
    Interactive.calculate_advanced_metrics 0 (world_of trade_frame) = (Ok l', w') /\
    heap w' !! l' = Some d' /\
    pd.column "Trend_Direction" d' = Some (Object directions) /\
    pd.column "Trend_Strength" d' = Some (Float64 strengths) /\
    length directions = 3 /\ length strengths = 3.
Proof.
  destruct (trend_columns_are_well_formed (world_of trade_frame) 0 trade_frame)
    as (l' & w' & d' & t & u & H1 & H2 & H3 & H4 & H5 & H6 & _); [ready | ready | ready |].
  exists l', w', d', t, u. repeat split; assumption.
Defined.

(* ===================================================================== *)
(** * Metrics of a frame without rows, or without derived columns          *)
(* ===================================================================== *)

Lemma no_rows_column d c :
  no_rows d -> has_numeric d c ->
  pd.column c d = Some (Float64 []) \/ pd.column c d = Some (Int64 []).
Proof.
  intros [Hwf Hlen] (s & Hc & Hn). pose proof (wf_column c s d Hwf Hc) as Hs.
  rewrite Hlen in Hs. rewrite Hc.
  destruct s as [v|v|v|v]; try (destruct Hn); destruct v; try discriminate; auto.
Qed.

Lemma no_rows_sum d c :
  no_rows d -> has_numeric d c ->
  exists s x, pd.column c d = Some s /\ pd.sum s = Ok x /\
              pd.py_float x = B64.zero /\ pd.py_int x = Ok 0%Z.
Proof.
  intros Hd Hc. destruct (no_rows_column d c Hd Hc) as [-> | ->];
    eexists _, _; repeat split; reflexivity.
Qed.

Lemma no_rows_mean d c :
  no_rows d -> has_numeric d c ->
  exists s, pd.column c d = Some s /\ pd.mean s = Ok B64.nan.
Proof.
  intros Hd Hc. destruct (no_rows_column d c Hd Hc) as [-> | ->];
    eexists; split; reflexivity.
Qed.

(** X15.  On a frame without rows, as the filters may leave it,
    [get_performance_metrics] raises nothing: the two totals are 0, the
    order count is 0, and the four averages are NaN. *)
Theorem metrics_of_no_rows self w d :
  heap w !! Interactive.df self = Some d -> no_rows d ->
  Forall (has_numeric d) (metrics_inputs ++ metrics_derived) ->
  exists m w',
    Interactive.get_performance_metrics self w = (Ok m, w') /\
    Interactive.total_revenue m = B64.zero /\
    Interactive.total_orders m = 0%Z /\
    Interactive.total_availability m = B64.zero /\
    Interactive.avg_lead_time m = B64.nan /\
    Interactive.avg_profit_margin m = B64.nan /\
    Interactive.efficiency_score m = B64.nan /\
    Interactive.performance_score m = B64.nan.
Proof.
  intros Hl Hd Hin.
  destruct (no_rows_sum d "Revenue generated" Hd) as (s1 & x1 & C1 & S1 & F1 & _);
    [input Hin|].
  destruct (no_rows_sum d "Order quantities" Hd) as (s2 & x2 & C2 & S2 & _ & I2);
    [input Hin|].
  destruct (no_rows_mean d "Lead times" Hd) as (s3 & C3 & M3); [input Hin|].
  destruct (no_rows_sum d "Availability" Hd) as (s4 & x4 & C4 & S4 & F4 & _); [input Hin|].
  destruct (no_rows_mean d "Profit_Margin" Hd) as (s5 & C5 & M5); [input Hin|].
  destruct (no_rows_mean d "Efficiency_Ratio" Hd) as (s6 & C6 & M6); [input Hin|].
  destruct (no_rows_mean d "Performance_Score" Hd) as (s7 & C7 & M7); [input Hin|].
  unfold Interactive.get_performance_metrics.
  erewrite bind_ok by (eapply getitem_ok; eassumption). erewrite bind_lift_ok by exact S1.
  erewrite bind_ok by (eapply getitem_ok; eassumption). erewrite bind_lift_ok by exact S2.
  erewrite bind_lift_ok by exact I2.
  erewrite bind_ok by (eapply getitem_ok; eassumption). erewrite bind_lift_ok by exact M3.
  erewrite bind_ok by (eapply getitem_ok; eassumption). erewrite bind_lift_ok by exact S4.
  erewrite bind_ok by (eapply getitem_ok; eassumption). erewrite bind_lift_ok by exact M5.
  erewrite bind_ok by (eapply getitem_ok; eassumption). erewrite bind_lift_ok by exact M6.
  erewrite bind_ok by (eapply getitem_ok; eassumption). erewrite bind_lift_ok by exact M7.
  erewrite bind_ok by (apply random_choice1_run; discriminate).
  erewrite bind_ok by (apply random_choice1_run; discriminate).
  erewrite bind_ok by (apply random_choice1_run; discriminate).
  eexists _, _. split; [reflexivity|]. simpl. repeat split; assumption.
Qed.

Lemma metrics_of_no_rows_witness :
  exists m w',
    Interactive.get_performance_metrics {| Interactive.df := 0 |} (world_of empty_enriched)
    = (Ok m, w') /\
    Interactive.total_orders m = 0%Z /\ Interactive.performance_score m = B64.nan.
Proof.
  destruct (metrics_of_no_rows {| Interactive.df := 0 |} (world_of empty_enriched)
              empty_enriched) as (m & w' & H1 & _ & H2 & _ & _ & _ & _ & H3).
  - reflexivity.
  - split; [repeat constructor | reflexivity].
  - ready.
  - exists m, w'. auto.
Defined.

(** X16.  [get_performance_metrics] needs an enriched frame: on a frame with
    the columns of the data file but without [Profit_Margin], it raises a
    [KeyError] for that column, after the totals have been computed and
    before the generator is used; the world is what it was. *)
Theorem metrics_need_the_derived_columns self w d :
  heap w !! Interactive.df self = Some d ->
  has_numeric d "Revenue generated" -> has_numeric d "Lead times" ->
  has_numeric d "Availability" ->
  (exists s x n, pd.column "Order quantities" d = Some s /\ pd.sum s = Ok x /\
                 pd.py_int x = Ok n) ->
  pd.column "Profit_Margin" d = None ->
  Interactive.get_performance_metrics self w = (Raise (KeyError "Profit_Margin"), w).
Proof.
  intros Hl (s1 & C1 & N1) (s3 & C3 & N3) (s4 & C4 & N4) (s2 & x2 & n2 & C2 & S2 & I2) Hnone.
  assert (forall s, numeric s -> exists x, pd.sum s = Ok x) as Hsum
    by (intros [] []; simpl; eauto).
  assert (forall s, numeric s -> exists x, pd.mean s = Ok x) as Hmean
    by (intros [] []; simpl; eauto).
  destruct (Hsum s1 N1) as [x1 S1]. destruct (Hmean s3 N3) as [x3 M3].
  destruct (Hsum s4 N4) as [x4 S4].
  unfold Interactive.get_performance_metrics.
  erewrite bind_ok by (eapply getitem_ok; eassumption). erewrite bind_lift_ok by exact S1.
  erewrite bind_ok by (eapply getitem_ok; eassumption). erewrite bind_lift_ok by exact S2.
  erewrite bind_lift_ok by exact I2.
  erewrite bind_ok by (eapply getitem_ok; eassumption). erewrite bind_lift_ok by exact M3.
  erewrite bind_ok by (eapply getitem_ok; eassumption). erewrite bind_lift_ok by exact S4.
  erewrite bind_raise by (eapply getitem_missing; eassumption). reflexivity.
Qed.

Lemma metrics_need_the_derived_columns_witness :
  Interactive.get_performance_metrics {| Interactive.df := 0 |} (world_of trade_frame)
  = (Raise (KeyError "Profit_Margin"), world_of trade_frame).
Proof.
  apply (metrics_need_the_derived_columns {| Interactive.df := 0 |} (world_of trade_frame)
           trade_frame).
  - reflexivity.
  - eexists; split; [reflexivity | exact I].
  - eexists; split; [reflexivity | exact I].
  - eexists; split; [reflexivity | exact I].
  - eexists _, _, _. split; [reflexivity|]. split; reflexivity.
  - reflexivity.
Defined.

(* ===================================================================== *)
(** * The indicators of the first dashboard                                *)
(* ===================================================================== *)

Lemma fetchone_ok l w d a v :
  heap w !! l = Some d -> duckdb_scalar.eval a d = Ok v ->
  duckdb_scalar.fetchone l a w = (Ok v, w).
Proof.
  intros Hl Hv. unfold duckdb_scalar.fetchone.
  erewrite bind_ok by (apply deref_ok; exact Hl). unfold lift. now rewrite Hv.
Qed.

Lemma no_rows_aggregate d c :
  no_rows d -> has_numeric d c ->
  duckdb_scalar.eval (duckdb.SUM c) d = Ok duckdb.NULL /\
  duckdb_scalar.eval (duckdb.AVG c) d = Ok duckdb.NULL.
Proof.
  intros Hd Hc. simpl. destruct (no_rows_column d c Hd Hc) as [-> | ->]; split; reflexivity.
Qed.

(** X17.  On a frame without rows the three indicators of [DataAnalyzer]
    are 0: the aggregate is NULL, which the methods replace by 0 instead
    of converting it. *)
Theorem indicators_of_no_rows self w d :
  heap w !! Enhanced.df self = Some d -> no_rows d ->
  has_numeric d "Revenue generated" -> has_numeric d "Order quantities" ->
  has_numeric d "Lead times" ->
  Enhanced.get_total_revenue self w = (Ok B64.zero, w) /\
  Enhanced.get_total_orders self w = (Ok 0%Z, w) /\
  Enhanced.get_average_lead_time self w = (Ok B64.zero, w).
Proof.
  intros Hl Hd H1 H2 H3.
  destruct (no_rows_aggregate d _ Hd H1) as [S1 _].
  destruct (no_rows_aggregate d _ Hd H2) as [S2 _].
  destruct (no_rows_aggregate d _ Hd H3) as [_ A3].
  unfold Enhanced.get_total_revenue, Enhanced.get_total_orders,
    Enhanced.get_average_lead_time.
  rewrite (bind_ok _ _ _ _ _ (fetchone_ok _ _ _ _ _ Hl S1)).
  rewrite (bind_ok _ _ _ _ _ (fetchone_ok _ _ _ _ _ Hl S2)).
  rewrite (bind_ok _ _ _ _ _ (fetchone_ok _ _ _ _ _ Hl A3)).
  repeat split; reflexivity.
Qed.

Lemma indicators_of_no_rows_witness :
  Enhanced.get_total_revenue {| Enhanced.df := 0 |} (world_of empty_frame)
  = (Ok B64.zero, world_of empty_frame) /\
  Enhanced.get_total_orders {| Enhanced.df := 0 |} (world_of empty_frame)
  = (Ok 0%Z, world_of empty_frame) /\
  Enhanced.get_average_lead_time {| Enhanced.df := 0 |} (world_of empty_frame)
  = (Ok B64.zero, world_of empty_frame).
Proof.
  apply (indicators_of_no_rows {| Enhanced.df := 0 |} (world_of empty_frame) empty_frame).
  - reflexivity.
  - split; [repeat constructor | reflexivity].
  - eexists; split; [reflexivity | exact I].
  - eexists; split; [reflexivity | exact I].
  - eexists; split; [reflexivity | exact I].
Defined.

(* ===================================================================== *)
(** * Groups                                                               *)
(* ===================================================================== *)

Lemma distinct_elem seen keys k :
  k ∈ duckdb.distinct seen keys <-> k ∈ keys /\ k ∉ seen.
Proof.
  revert seen. induction keys as [|k' keys IH]; intros seen; simpl.
  - rewrite elem_of_nil. tauto.
  - destruct (decide (k' ∈ seen)) as [Hs|Hs].
    + rewrite IH, elem_of_cons. split; [tauto|]. intros [[->|H] Hk]; tauto.
    + rewrite !elem_of_cons, IH, elem_of_cons.
      destruct (decide (k = k')) as [->|Hne]; tauto.
Qed.

Lemma distinct_NoDup seen keys : NoDup (duckdb.distinct seen keys).
Proof.
  revert seen. induction keys as [|k keys IH]; intros seen; simpl; [constructor|].
  destruct (decide (k ∈ seen)); [apply IH|]. constructor; [|apply IH].
  rewrite distinct_elem, elem_of_cons. tauto.
Qed.

Lemma count_mask k keys :
  length (filter (fun b : bool => b) (map (fun s => bool_decide (s = k)) keys))
  = occurrences k keys.
Proof.
  unfold occurrences. induction keys as [|s keys IH]; simpl; [reflexivity|].
  rewrite !filter_cons. destruct (decide (s = k)) as [E|E].
  - rewrite bool_decide_eq_true_2 by exact E. simpl. now rewrite IH.
  - rewrite bool_decide_eq_false_2 by exact E. simpl. exact IH.
Qed.

(** Every key is counted in exactly one of the groups. *)
Lemma occurrences_sum keys groups :
  NoDup groups -> (forall k, k ∈ keys -> k ∈ groups) ->
  sum_list (map (fun k => occurrences k keys) groups) = length keys.
Proof.
  intros Hnd. induction keys as [|s keys IH]; intros Hin.
  - induction groups as [|g groups IHg]; simpl; [reflexivity|].
    inversion Hnd; subst. rewrite IHg; auto. intros k Hk. now apply elem_of_nil in Hk.
  - assert (sum_list (map (fun k => occurrences k (s :: keys)) groups)
            = S (sum_list (map (fun k => occurrences k keys) groups))) as ->.
    { assert (s ∈ groups) as Hs by (apply Hin; left).
      clear IH Hin. induction Hnd as [|g groups Hg Hnd IHg]; [now apply elem_of_nil in Hs|].
      simpl. unfold occurrences at 1. rewrite filter_cons.
      apply elem_of_cons in Hs as [<-|Hs].
      - rewrite decide_True by reflexivity. simpl. f_equal. f_equal.
        clear IHg Hnd. induction groups as [|g groups IHg]; simpl; [reflexivity|].
        rewrite elem_of_cons in Hg. unfold occurrences at 1. rewrite filter_cons.
        rewrite decide_False by (intros ->; tauto). rewrite IHg by tauto. reflexivity.
      - rewrite decide_False by (intros ->; tauto). rewrite IHg by exact Hs.
        unfold occurrences at 2. lia. }
    rewrite IH; [reflexivity|]. intros k Hk. apply Hin. now right.
Qed.

Lemma eval_aggregates_lookup d mask sel vs j a alias :
  duckdb.eval_aggregates d mask sel = Ok vs -> sel !! j = Some (a, alias) ->
  exists v, vs !! j = Some v /\ duckdb.eval_aggregate d mask a = Ok v.
Proof.
  revert vs j. induction sel as [|[a' alias'] sel IH]; intros vs j; simpl; [discriminate|].
  destruct (duckdb.eval_aggregate d mask a') as [v|] eqn:Ev; [|discriminate]. simpl.
  destruct (duckdb.eval_aggregates d mask sel) as [vs'|] eqn:Evs; [|discriminate]. simpl.
  intros [= <-]. destruct j as [|j]; simpl.
  - intros [= <- <-]. eauto.
  - intros Hj. eapply IH; eauto.
Qed.

(** The rows of the groups, before they are sorted. *)
Lemma eval_groups_rows d keys sel groups rows :
  duckdb.eval_groups d keys sel groups = Ok rows ->
  map duckdb.group_key rows = groups /\
  Forall (fun r => duckdb.eval_aggregates d
                     (map (fun s => bool_decide (s = duckdb.group_key r)) keys) sel
                   = Ok (duckdb.cells r)) rows.
Proof.
  revert rows. induction groups as [|k groups IH]; intros rows; simpl.
  - intros [= <-]. split; [reflexivity | constructor].
  - destruct (duckdb.eval_aggregates d _ sel) as [vs|] eqn:Evs; [|discriminate]. simpl.
    destruct (duckdb.eval_groups d keys sel groups) as [rows'|]; [|discriminate]. simpl.
    intros [= <-]. destruct (IH rows' eq_refl) as [Hk Hr]. simpl.
    split; [now rewrite Hk|]. constructor; [exact Evs | exact Hr].
Qed.

Lemma sum_list_count_at j keys rows :
  Forall (fun r => duckdb.cells r !! j
                   = Some (duckdb.BIGINT (Z.of_nat (occurrences (duckdb.group_key r) keys))))
         rows ->
  sum_list (map (count_at j) rows)
  = sum_list (map (fun k => occurrences k keys) (map duckdb.group_key rows)).
Proof.
  induction 1 as [|r rows Hr _ IH]; simpl; [reflexivity|].
  unfold count_at at 1. rewrite Hr, Nat2Z.id, IH. reflexivity.
Qed.

(** What a grouped query with a COUNT( * ) at position [j] returns. *)
Lemma run_groups q d keys j alias order :
  pd.column (duckdb.group_by q) d = Some (Object keys) ->
  Forall (aggregate_ready d) (map fst (duckdb.select q)) ->
  is_Some (duckdb.alias_index (fst (duckdb.order_by q)) (duckdb.select q)) ->
  duckdb.select q !! j = Some (duckdb.COUNT_STAR, alias) ->
  exists rows,
    duckdb.run q d order = Ok rows /\
    NoDup (map duckdb.group_key rows) /\
    (forall k, In k (map duckdb.group_key rows) <-> In k keys) /\
    (forall r, In r rows ->
       duckdb.cells r !! j
       = Some (duckdb.BIGINT (Z.of_nat (occurrences (duckdb.group_key r) keys)))) /\
    sum_list (map (count_at j) rows) = length keys.
Proof.
  intros Hk Hsel [i Hi] Hj. unfold duckdb.run. rewrite Hk, Hi.
  destruct (eval_groups_ok d keys (duckdb.select q) (duckdb.distinct [] keys) Hsel)
    as [rows0 Hrows]. rewrite Hrows. simpl.
  destruct (eval_groups_rows _ _ _ _ _ Hrows) as [Hkeys Hcells].
  set (rows := merge_sort _ _).
  assert (rows ≡ₚ rows0) as Hperm
    by (unfold rows; now rewrite merge_sort_Permutation, arrange_Permutation).
  assert (Forall (fun r => duckdb.cells r !! j
                   = Some (duckdb.BIGINT (Z.of_nat (occurrences (duckdb.group_key r) keys))))
                 rows) as Hcount.
  { rewrite Hperm. eapply Forall_impl; [exact Hcells|]. intros r Hr. simpl in Hr.
    destruct (eval_aggregates_lookup _ _ _ _ _ _ _ Hr Hj) as (v & Hv & Ev).
    simpl in Ev. injection Ev as <-. now rewrite Hv, count_mask. }
  assert (map duckdb.group_key rows ≡ₚ duckdb.distinct [] keys) as Hgroups
    by now rewrite Hperm, Hkeys.
  exists rows. split; [reflexivity|]. split; [|split; [|split]].
  - rewrite Hgroups. apply distinct_NoDup.
  - intros k. rewrite <- !list_elem_of_In, Hgroups, distinct_elem, elem_of_nil. tauto.
  - intros r Hr. rewrite Forall_forall in Hcount. apply Hcount. now apply list_elem_of_In.
  - rewrite (sum_list_count_at j keys rows Hcount), Hgroups.
    apply occurrences_sum; [apply distinct_NoDup|].
    intros k Hk'. rewrite distinct_elem, elem_of_nil. tauto.
Qed.

(** X19.  The grouped summaries that count their rows partition the frame:
    there is one result row per distinct key of the grouping column and
    none else, COUNT( * ) of a row is the number of frame rows with its
    key, and the counts add up to the number of rows of the frame. *)
Theorem grouped_counts_partition_the_rows w l d q j keys :
  heap w !! l = Some d ->
  In (q, j) counting_queries ->
  pd.column (duckdb.group_by q) d = Some (Object keys) ->
  Forall (aggregate_ready d) (map fst (duckdb.select q)) ->
  exists rows,
    duckdb.execute l q w = (Ok rows, queried w) /\
    NoDup (map duckdb.group_key rows) /\
    (forall k, In k (map duckdb.group_key rows) <-> In k keys) /\
    (forall r, In r rows ->
       duckdb.cells r !! j
       = Some (duckdb.BIGINT (Z.of_nat (occurrences (duckdb.group_key r) keys)))) /\
    sum_list (map (count_at j) rows) = length keys.
Proof.
  intros Hl Hq Hk Hsel.
  assert (exists alias,
            is_Some (duckdb.alias_index (fst (duckdb.order_by q)) (duckdb.select q)) /\
            duckdb.select q !! j = Some (duckdb.COUNT_STAR, alias)) as (alias & Hi & Hj).
  { simpl in Hq. repeat (destruct Hq as [[= <- <-]|Hq]; [eexists; split; [eexists|]; reflexivity|]).
    destruct Hq. }
  destruct (run_groups q d keys j alias (emission (engine w) (executed (engine w)))
              Hk Hsel Hi Hj) as (rows & Hrun & H).
  exists rows. split; [|exact H]. now apply (execute_ok w l d).
Qed.

Lemma grouped_counts_partition_the_rows_witness :
  exists rows,
    duckdb.execute 0 Enhanced.revenue_by_product_type_query (world_of trade_frame)
    = (Ok rows, queried (world_of trade_frame)) /\
    NoDup (map duckdb.group_key rows) /\
    (In "B" (map duckdb.group_key rows)) /\
    sum_list (map (count_at 1) rows) = 3.
Proof.
  destruct (grouped_counts_partition_the_rows (world_of trade_frame) 0 trade_frame
              Enhanced.revenue_by_product_type_query 1 ["A"; "A"; "B"])
    as (rows & H1 & H2 & H3 & _ & H4).
  - reflexivity.
  - simpl. tauto.
  - reflexivity.
  - repeat constructor. eexists. split; [reflexivity | exact I].
  - exists rows. split; [exact H1|]. split; [exact H2|]. split; [|exact H4].
    apply H3. simpl. tauto.
Defined.

(* ===================================================================== *)
(** * The second dashboard: what [main()] reaches                          *)
(* ===================================================================== *)

Lemma sub_numeric a b r : pd.sub a b = Ok r -> numeric r.
Proof.
  destruct a, b; simpl; unfold pd.float_op; simpl; intros [= <-]; exact I.
Qed.

Lemma Forall_member {A} (P : A -> Prop) l x : Forall P l -> In x l -> P x.
Proof. rewrite Forall_forall. intros H Hx. apply H. now apply list_elem_of_In. Qed.

Lemma analyzable_take mask d : analyzable d -> analyzable (pd.take mask d).
Proof.
  intros (Hwf & Htext & Hnum & (v & Hv) & (s & Hs)).
  split; [now apply wf_take|]. split; [|split; [|split]].
  - eapply Forall_impl; [exact Htext|]. intros c (keys & Hc). simpl.
    rewrite column_take, Hc. simpl. eauto.
  - eapply Forall_impl; [exact Hnum|]. intros c. apply has_numeric_take.
  - rewrite column_take, Hv. simpl. eauto.
  - rewrite column_take, Hs. simpl. eauto.
Qed.

Lemma analyzable_filters_ready st d : analyzable d -> filters_ready st d.
Proof.
  intros (Hwf & Htext & Hnum & _ & Hrisk).
  split; [exact Hwf|]. split; [|split; [|split; [|split]]].
  - intros _. destruct (Forall_member _ _ "Product type" Htext) as [k Hk]; [simpl; tauto|]. eauto.
  - intros _. destruct (Forall_member _ _ "Location" Htext) as [k Hk]; [simpl; tauto|]. eauto.
  - intros _. apply (Forall_member _ _ _ Hnum). simpl. tauto.
  - intros _. apply (Forall_member _ _ _ Hnum). simpl. tauto.
  - intros _ _ _. exact Hrisk.
Qed.

Lemma advanced_frame_analyzable d g :
  data_file_frame d ->
  analyzable (advanced_frame d (profit_margin d) (total_shipping_cost d) g).
Proof.
  intros (Hwf & Htext & Hnum & (v & Hv)).
  assert (Forall (has_numeric d) advanced_inputs) as Hin
    by (now apply Forall_app in Hnum as [H _]).
  destruct (profit_margin_spec d Hwf) as (a & b & _ & _ & Hpm & Lpm); [input Hin | input Hin|].
  destruct (total_shipping_cost_spec d Hwf) as (_ & _ & _ & _ & _ & Ltsc);
    [input Hin | input Hin|].
  split; [now apply advanced_frame_wf|]. split; [|split; [|split]].
  - assert (forall c, In c text_columns -> exists keys, pd.column c d = Some (Object keys))
      as Ht by (intros c Hc; exact (Forall_member _ _ c Htext Hc)).
    repeat apply List.Forall_cons; try apply List.Forall_nil;
      (rewrite advanced_frame_column by not_an_output; apply Ht; simpl; tauto).
  - repeat apply List.Forall_cons; try apply List.Forall_nil;
      try (apply has_numeric_advanced_frame; [not_an_output | input Hnum]);
      eexists; (split; [unfold advanced_frame, scored_frame; solve_column|]);
      first [exact I | eapply sub_numeric; exact Hpm].
  - exists v. rewrite advanced_frame_column; [exact Hv | not_an_output].
  - eexists. apply risk_level_column.
Qed.

Lemma get_performance_metrics_ok self w d :
  heap w !! Interactive.df self = Some d -> analyzable d ->
  exists m w', Interactive.get_performance_metrics self w = (Ok m, w') /\ heap w' = heap w.
Proof.
  intros Hl (Hwf & _ & Hnum & (v & C2) & _).
  assert (forall s, numeric s -> exists x, pd.sum s = Ok x) as Hsum
    by (intros [] []; simpl; eauto).
  assert (forall s, numeric s -> exists x, pd.mean s = Ok x) as Hmean
    by (intros [] []; simpl; eauto).
  destruct (Forall_member _ _ "Revenue generated" Hnum) as (s1 & C1 & N1); [simpl; tauto|].
  destruct (Forall_member _ _ "Lead times" Hnum) as (s3 & C3 & N3); [simpl; tauto|].
  destruct (Forall_member _ _ "Availability" Hnum) as (s4 & C4 & N4); [simpl; tauto|].
  destruct (Forall_member _ _ "Profit_Margin" Hnum) as (s5 & C5 & N5); [simpl; tauto|].
  destruct (Forall_member _ _ "Efficiency_Ratio" Hnum) as (s6 & C6 & N6); [simpl; tauto|].
  destruct (Forall_member _ _ "Performance_Score" Hnum) as (s7 & C7 & N7); [simpl; tauto|].
  destruct (Hsum s1 N1) as [x1 S1]. destruct (Hmean s3 N3) as [x3 M3].
  destruct (Hsum s4 N4) as [x4 S4]. destruct (Hmean s5 N5) as [x5 M5].
  destruct (Hmean s6 N6) as [x6 M6]. destruct (Hmean s7 N7) as [x7 M7].
  unfold Interactive.get_performance_metrics.
  erewrite bind_ok by (eapply getitem_ok; eassumption). erewrite bind_lift_ok by exact S1.
  erewrite bind_ok by (eapply getitem_ok; eassumption). erewrite bind_lift_ok by reflexivity.
  erewrite bind_lift_ok by reflexivity.
  erewrite bind_ok by (eapply getitem_ok; eassumption). erewrite bind_lift_ok by exact M3.
  erewrite bind_ok by (eapply getitem_ok; eassumption). erewrite bind_lift_ok by exact S4.
  erewrite bind_ok by (eapply getitem_ok; eassumption). erewrite bind_lift_ok by exact M5.
  erewrite bind_ok by (eapply getitem_ok; eassumption). erewrite bind_lift_ok by exact M6.
  erewrite bind_ok by (eapply getitem_ok; eassumption). erewrite bind_lift_ok by exact M7.
  erewrite bind_ok by (apply random_choice1_run; discriminate).
  erewrite bind_ok by (apply random_choice1_run; discriminate).
  erewrite bind_ok by (apply random_choice1_run; discriminate).
  eexists _, _. split; reflexivity.
Qed.

Lemma analyzable_query_ready d q :
  analyzable d ->
  In q [Interactive.product_performance_query; Interactive.location_efficiency_query;
        Interactive.supplier_risk_query; Interactive.transportation_analysis_query] ->
  query_ready d q.
Proof.
  intros (Hwf & Htext & Hnum & (v & Hv) & _) Hq.
  assert (forall c, In c text_columns -> exists keys, pd.column c d = Some (Object keys))
    as Ht by (intros c Hc; exact (Forall_member _ _ c Htext Hc)).
  assert (forall c, In c analyzed_columns -> has_numeric d c)
    as Hn by (intros c Hc; exact (Forall_member _ _ c Hnum Hc)).
  assert (has_numeric d "Order quantities") as Ho by (eexists; split; [exact Hv | exact I]).
  simpl in Hq. destruct Hq as [<-|[<-|[<-|[<-|[]]]]];
    (split; [apply Ht; simpl; tauto|]);
    repeat apply List.Forall_cons; try apply List.Forall_nil; simpl;
    try exact I; try exact Ho; apply Hn; simpl; tauto.
Qed.

Lemma get_advanced_analytics_ok self w d :
  heap w !! Interactive.df self = Some d -> analyzable d ->
  exists a,
    Interactive.get_advanced_analytics self w
    = (Ok a, queried (queried (queried (queried w)))).
Proof.
  intros Hl Hd.
  assert (forall q, In q [Interactive.product_performance_query;
                          Interactive.location_efficiency_query;
                          Interactive.supplier_risk_query;
                          Interactive.transportation_analysis_query] ->
                    query_ready d q) as Hq
    by (intros q; now apply analyzable_query_ready).
  destruct (execute_df_sorted w _ d Interactive.product_performance_query 0 Hl)
    as (r1 & E1 & _); [apply Hq; simpl; tauto | reflexivity |].
  destruct (execute_df_sorted (queried w) _ d Interactive.location_efficiency_query 2 Hl)
    as (r2 & E2 & _); [apply Hq; simpl; tauto | reflexivity |].
  destruct (execute_df_sorted (queried (queried w)) _ d
              Interactive.supplier_risk_query 0 Hl)
    as (r3 & E3 & _); [apply Hq; simpl; tauto | reflexivity |].
  destruct (execute_df_sorted (queried (queried (queried w))) _ d
              Interactive.transportation_analysis_query 0 Hl)
    as (r4 & E4 & _); [apply Hq; simpl; tauto | reflexivity |].
  eexists. unfold Interactive.get_advanced_analytics.
  rewrite (bind_ok _ _ _ _ _ E1), (bind_ok _ _ _ _ _ E2),
          (bind_ok _ _ _ _ _ E3), (bind_ok _ _ _ _ _ E4).
  reflexivity.
Qed.

(** X22.  On an enriched frame that has what the analyzer reads (text to
    group by, numbers to compute with, whole order quantities), both
    methods of [EnhancedDataAnalyzer] return without an exception, however
    few rows the frame has: the metrics, every frame left as it was, and
    the four grouped summaries. *)
Theorem analyzer_methods_return self w d :
  heap w !! Interactive.df self = Some d -> analyzable d ->
  (exists m w',
     Interactive.get_performance_metrics self w = (Ok m, w') /\ heap w' = heap w) /\
  (exists a,
     Interactive.get_advanced_analytics self w
     = (Ok a, queried (queried (queried (queried w))))).
Proof.
  intros Hl Hd. split.
  - now apply (get_performance_metrics_ok self w d).
  - now apply (get_advanced_analytics_ok self w d).
Qed.

Lemma analyzer_methods_return_witness :
  (exists m w',
     Interactive.get_performance_metrics {| Interactive.df := 0 |}
       (world_of trade_orders_enriched) = (Ok m, w') /\
     heap w' = [trade_orders_enriched]) /\
  (exists a,
     Interactive.get_advanced_analytics {| Interactive.df := 0 |}
       (world_of trade_orders_enriched)
     = (Ok a, queried (queried (queried (queried (world_of trade_orders_enriched)))))).
Proof.
  apply (analyzer_methods_return {| Interactive.df := 0 |} (world_of trade_orders_enriched)
           trade_orders_enriched).
  - reflexivity.
  - split; [repeat constructor|]. split; [|split; [|split]].
    + repeat constructor; eexists; reflexivity.
    + repeat constructor; eexists; (split; [vm_compute; reflexivity | exact I]).
    + eexists. reflexivity.
    + eexists. reflexivity.
Defined.

(** X20.  [main()] of the second dashboard never gets past its [try]
    block.  Whatever the frame it loads, it returns without an exception
    of its own and without running anything of what follows the block (the
    sidebar, [apply_filters], the sections that call the analyzer); the
    frames that existed and the session are as they were.  On a frame that
    has rows and the columns the enrichment reads, the block enriches a
    copy and then fails on [create_plotly_theme], a name the file neither
    defines nor imports: the [NameError] is what [except Exception]
    catches. *)
Theorem main_stops_at_the_undefined_theme w raw :
  (exists w', (forall dashboard, Interactive.main raw dashboard w = (Ok tt, w')) /\
              untouched w w') /\
  (forall d,
     heap w !! raw = Some d -> pd.empty d = false -> pd.wf d ->
     Forall (has_numeric d) advanced_inputs ->
     exists w' d',
       Interactive.initialize_dashboard raw w
       = (Raise (NameError "name 'create_plotly_theme' is not defined"), w') /\
       heap w' = heap w ++ [d'] /\ index d' = index d /\
       forall c, ~ In c advanced_outputs -> pd.column c d' = pd.column c d).
Proof.
  split.
  - pose proof (keeps_initialize_dashboard (length (heap w)) raw) as K.
    pose proof (keeps_untouched _ _ w K) as U.
    destruct (K w (Nat.le_refl _)) as (_ & _ & _ & HQ).
    destruct (Interactive.initialize_dashboard raw w) as [r w'] eqn:E. simpl in U, HQ.
    exists w'. split; [|exact U]. intros dashboard.
    unfold Interactive.main, bind, try_except. rewrite E.
    destruct r as [[l|]|e]; [discriminate (HQ _ eq_refl) | reflexivity | reflexivity].
  - intros d Hl He Hwf Hin. unfold Interactive.initialize_dashboard.
    erewrite bind_ok by (apply deref_ok; exact Hl). rewrite He.
    rewrite (bind_ok _ _ _ _ _ (advanced_run_exact w raw d Hl Hwf Hin)).
    unfold Interactive.load_global.
    rewrite decide_False by apply create_plotly_theme_undefined.
    eexists _, _. split; [reflexivity|]. split; [reflexivity|]. split; [reflexivity|].
    intros c. apply advanced_frame_column.
Qed.

Lemma main_stops_at_the_undefined_theme_witness :
  exists w' d',
    Interactive.initialize_dashboard 0 (world_of trade_frame)
    = (Raise (NameError "name 'create_plotly_theme' is not defined"), w') /\
    heap w' = [trade_frame; d'] /\ index d' = [0; 1; 2]%Z.
Proof.
  destruct (main_stops_at_the_undefined_theme (world_of trade_frame) 0) as [_ H].
  destruct (H trade_frame) as (w' & d' & H1 & H2 & H3 & _);
    [reflexivity | reflexivity | repeat constructor | ready |].
  exists w', d'. repeat split; assumption.
Defined.

(* ===================================================================== *)
(** * The total revenue                                                    *)
(* ===================================================================== *)

Lemma nansum_no_value v : pd.count v = 0 -> pd.nansum v = B64.zero.
Proof.
  unfold pd.count, pd.nansum. generalize B64.zero.
  induction v as [|x v IH]; intros acc; simpl; [reflexivity|].
  rewrite filter_cons. destruct (B64.is_nan x); simpl; [apply IH | discriminate].
Qed.

(** X21.  On a [float64] revenue column [get_total_revenue] never raises and
    returns the sum of the revenues that are not NaN: the test
    [if result[0]] only replaces a missing sum and a sum equal to 0 by
    0.0, so the value returned always compares equal to the sum, or both
    are NaN. *)
Theorem total_revenue_is_the_sum self w d v :
  heap w !! Enhanced.df self = Some d ->
  pd.column "Revenue generated" d = Some (Float64 v) ->
  exists x,
    Enhanced.get_total_revenue self w = (Ok x, w) /\
    (x = pd.nansum v \/ (x = B64.zero /\ B64.eqb (pd.nansum v) B64.zero = true)).
Proof.
  intros Hl Hc. unfold Enhanced.get_total_revenue.
  assert (duckdb_scalar.eval (duckdb.SUM "Revenue generated") d = Ok (duckdb.sum_double v))
    as Hv by (simpl; now rewrite Hc).
  rewrite (bind_ok _ _ _ _ _ (fetchone_ok _ _ _ _ _ Hl Hv)).
  unfold duckdb.sum_double. destruct (decide (pd.count v = 0)) as [E|E]; simpl.
  - exists B64.zero. split; [reflexivity|]. left. symmetry. now apply nansum_no_value.
  - destruct (B64.eqb (pd.nansum v) B64.zero) eqn:Ez; simpl; eexists; (split; [reflexivity|]);
      auto.
Qed.

Lemma total_revenue_is_the_sum_witness :
  exists x,
    Enhanced.get_total_revenue {| Enhanced.df := 0 |} (world_of trade_frame)
    = (Ok x, world_of trade_frame) /\
    (x = pd.nansum [B64.f100; B64.f5; B64.f3] \/
     (x = B64.zero /\ B64.eqb (pd.nansum [B64.f100; B64.f5; B64.f3]) B64.zero = true)).
Proof.
  apply (total_revenue_is_the_sum {| Enhanced.df := 0 |} (world_of trade_frame) trade_frame);
    reflexivity.
Defined.
